(** * s2fft: index conventions, HEALPix spectral folding and Wigner wrappers

    A shallow embedding of the array-manipulating parts of s2fft:
    - [s2fft/healpix_ffts.py]: spectral folding and periodic extension,
      the per-ring HEALPix FFT drivers;
    - [s2fft/wigner/samples.py]: shapes and coefficient packing;
    - [s2fft/wigner/transform.py]: the Wigner transform wrappers;
    - [s2fft/general_precompute/resampling_jax.py]: periodic extension
      and resampling between the MW and MWSS grids;
    - [s2fft/precompute_transforms/construct.py]: kernel construction.

    Python integers are [Z]; one-dimensional arrays are lists, indexed the
    way Python does (negative indices count from the end, out-of-range
    indices raise).  Array entries live in an abstract scalar domain with
    the operations the code applies to them (exact arithmetic). *)

From Stdlib Require Import ZArith Lia Ascii String.
From stdpp Require Import base list list_numbers strings pretty.

Local Open Scope Z_scope.

(** ** Scalars *)

(** The entries of the arrays: complex numbers with addition,
    multiplication and conjugation.  The laws are those of a commutative
    ring with an involution; rounding is not modelled. *)
Class Scalar (C : Type) := {
  czero : C;
  cone : C;
  cadd : C → C → C;
  cmul : C → C → C;
  copp : C → C;
  cconj : C → C;
  cre : C → C;
  cadd_comm : ∀ a b, cadd a b = cadd b a;
  cadd_assoc : ∀ a b c, cadd a (cadd b c) = cadd (cadd a b) c;
  cadd_zero_r : ∀ a, cadd a czero = a;
  cadd_opp_r : ∀ a, cadd a (copp a) = czero;
  cmul_comm : ∀ a b, cmul a b = cmul b a;
  cmul_assoc : ∀ a b c, cmul a (cmul b c) = cmul (cmul a b) c;
  cmul_one_r : ∀ a, cmul a cone = a;
  cmul_add_distr_l : ∀ a b c, cmul a (cadd b c) = cadd (cmul a b) (cmul a c);
  cconj_add : ∀ a b, cconj (cadd a b) = cadd (cconj a) (cconj b);
  cconj_mul : ∀ a b, cconj (cmul a b) = cmul (cconj a) (cconj b);
  cconj_one : cconj cone = cone;
  cconj_invol : ∀ a, cconj (cconj a) = a;
  cmul_zero_l : ∀ a, cmul czero a = czero;
  cmul_opp_opp : ∀ a b, cmul (copp a) (copp b) = cmul a b;
  cconj_zero : cconj czero = czero;
  cconj_opp : ∀ a, cconj (copp a) = copp (cconj a);
  cre_real : ∀ a, cconj a = a → cre a = a;
  cconj_re : ∀ a, cconj (cre a) = cre a;
}.

#[export] Instance scalar_inhabited {C} {SC : Scalar C} : Inhabited C :=
  populate czero.

(** Gaussian integers: the complex numbers with integer real and imaginary
    parts.  They are closed under every operation of [Scalar] and serve to
    evaluate the definitions on concrete arrays. *)
Module GaussZ.
Definition t : Type := Z * Z.
Definition add (a b : t) : t := (a.1 + b.1, a.2 + b.2).
Definition mul (a b : t) : t := (a.1 * b.1 - a.2 * b.2, a.1 * b.2 + a.2 * b.1).
Definition opp (a : t) : t := (- a.1, - a.2).
Definition conj (a : t) : t := (a.1, - a.2).
(** [re n] is the real integer [n]; [im n] is [n * i]. *)
Definition re (n : Z) : t := (n, 0).
Definition im (n : Z) : t := (0, n).
End GaussZ.

#[export] Program Instance GaussZ_scalar : Scalar GaussZ.t := {|
  czero := (0, 0);
  cone := (1, 0);
  cadd := GaussZ.add;
  cmul := GaussZ.mul;
  copp := GaussZ.opp;
  cconj := GaussZ.conj;
  cre := λ a, GaussZ.re a.1;
|}.
Solve All Obligations with
  (intros; repeat match goal with a : GaussZ.t |- _ => destruct a end;
   unfold GaussZ.add, GaussZ.mul, GaussZ.opp, GaussZ.conj, GaussZ.re in *;
   simpl in *; simplify_eq; f_equal; lia).

(** ** Python and NumPy: exceptions, indices, slices *)

Inductive exn : Type :=
  | AssertionError
  | IndexError
  | ZeroDivisionError
  | ValueError (msg : string)
  | TypeError (msg : string).

Inductive result (A : Type) : Type :=
  | Ok (a : A)
  | Raise (e : exn).
Arguments Ok {A} a.
Arguments Raise {A} e.

#[export] Instance result_ret : MRet result := λ A a, Ok a.
#[export] Instance result_bind : MBind result := λ A B f r,
  match r with
  | Ok a => f a
  | Raise e => Raise e
  end.
#[export] Instance result_fmap : FMap result := λ A B f r,
  match r with
  | Ok a => Ok (f a)
  | Raise e => Raise e
  end.

(** [assert c] *)
Definition py_assert (c : bool) : result unit :=
  if c then Ok () else Raise AssertionError.

(** What Python raises when a function [name] that takes from [required] to
    [params] positional arguments is called with [given] of them, more than
    it takes. *)
Definition too_many_positional (name : string) (required params given : nat)
  : exn :=
  TypeError
    (name +:+ "() takes "
     +:+ (if bool_decide (required = params) then pretty params
          else "from " +:+ pretty required +:+ " to " +:+ pretty params)
     +:+ (if bool_decide (params = 1%nat) then " positional argument but "
          else " positional arguments but ")
     +:+ pretty given
     +:+ (if bool_decide (given = 1%nat) then " was given" else " were given")).

(** The binding of [given] positional arguments to the parameters of the
    function [name], which happens before its body runs.  (No call of the
    code modelled here passes too few arguments.) *)
Definition bind_positional (name : string) (required params given : nat)
  : result unit :=
  if bool_decide (given ≤ params)%nat then Ok ()
  else Raise (too_many_positional name required params given).

(** [a % b]: the remainder has the sign of the divisor, as [Z.modulo]. *)
Definition py_mod (a b : Z) : result Z :=
  if b =? 0 then Raise ZeroDivisionError else Ok (a `mod` b).

(** A [for] loop (or a counting [while] loop) over the values [idxs] of its
    index, threading the loop state; an exception leaves the loop. *)
Fixpoint for_each {S I : Type} (body : S → I → result S) (idxs : list I) (s : S)
  : result S :=
  match idxs with
  | [] => Ok s
  | i :: rest => s1 ← body s i; for_each body rest s1
  end.

(** [range(a, b)] *)
Definition py_range (a b : Z) : list Z := seqZ a (b - a).

Section PyList.
Context {A : Type}.

(** Position of index [k] in a sequence of length [len]: negative indices
      count from the end, anything else out of range raises. *)
Definition norm_index (len : nat) (k : Z) : result nat :=
    if (0 <=? k) && (k <? Z.of_nat len) then Ok (Z.to_nat k)
    else if (- Z.of_nat len <=? k) && (k <? 0) then Ok (Z.to_nat (k + Z.of_nat len))
    else Raise IndexError.

(** [l[k]] *)
Definition getitem (l : list A) (k : Z) : result A :=
    i ← norm_index (length l) k;
    match l !! i with
    | Some x => Ok x
    | None => Raise IndexError
    end.

(** [l[k] = v] on an array (in place: the result is the new contents). *)
Definition setitem (l : list A) (k : Z) (v : A) : result (list A) :=
    i ← norm_index (length l) k;
    Ok (<[i := v]> l).

(** Bound of a slice [l[a:b]]: negative bounds count from the end and
      everything is clamped to [0, len]. *)
Definition slice_bound (len : nat) (k : Z) : nat :=
    if k <? 0 then Z.to_nat (Z.max 0 (k + Z.of_nat len))
    else Z.to_nat (Z.min k (Z.of_nat len)).

(** [np.zeros(n)] and friends raise on a negative dimension. *)
Definition np_full (n : Z) (x : A) : result (list A) :=
    if n <? 0 then Raise (ValueError "negative dimensions are not allowed")
    else Ok (replicate (Z.to_nat n) x).
End PyList.

(** A basic slice [a[start:stop]] of a NumPy array does not copy: it is a
    window on the buffer of [a].  [v_off] is the position in the buffer of
    the window's first entry, [v_len] its length. *)
Record view : Type := View { v_off : nat; v_len : nat }.

Definition mk_view (len : nat) (start stop : Z) : view :=
  let s := slice_bound len start in
  let e := slice_bound len stop in
  View s (e - s)%nat.

(** The entries seen through a view. *)
Definition view_contents {A} (buf : list A) (w : view) : list A :=
  take (v_len w) (drop (v_off w) buf).

(** [a[start:stop] = src] for one-dimensional arrays: [src] must have the
    length of the slice, or length one (broadcast). *)
Definition slice_assign {A} (buf : list A) (start stop : Z) (src : list A)
  : result (list A) :=
  let w := mk_view (length buf) start stop in
  if decide (length src = v_len w) then
    Ok (take (v_off w) buf ++ src ++ drop (v_off w + v_len w) buf)
  else
    match src with
    | [x] => Ok (take (v_off w) buf ++ replicate (v_len w) x
                   ++ drop (v_off w + v_len w) buf)
    | _ => Raise (ValueError "could not broadcast input array")
    end.

(** ** s2fft/healpix_ffts.py *)

Section healpix_ffts.
Context {C : Type} {SC : Scalar C}.

(** [ftm_slice[j] += v] where [ftm_slice] is the view [w] on [buf]. *)
Definition view_iadd (w : view) (j : Z) (v : C) (buf : list C)
    : result (list C) :=
    k ← norm_index (v_len w) j;
    Ok (alter (λ x, cadd x v) (v_off w + k)%nat buf).

(** [spectral_folding(fm, nphi, L)].  The array [fm] is updated in place;
      the result is the final contents of [fm] together with the returned
      view [ftm_slice] on it.  The first [while] loop runs for
      [idx = 1, ..., slice_start], the second for
      [idx = 0, ..., len(fm) - slice_stop - 1]. *)
Definition spectral_folding (fm : list C) (nphi L : Z)
    : result (list C * view) :=
    _ ← py_assert (nphi <=? 2 * L);
    let slice_start := L - nphi `div` 2 in
    let slice_stop := slice_start + nphi in
    let ftm_slice := mk_view (length fm) slice_start slice_stop in
    fm ← for_each (λ fm idx,
            j ← py_mod (- idx) nphi;
            v ← getitem fm (slice_start - idx);
            view_iadd ftm_slice j v fm)
          (seqZ 1 slice_start) fm;
    fm ← for_each (λ fm idx,
            j ← py_mod idx nphi;
            v ← getitem fm (slice_stop + idx);
            view_iadd ftm_slice j v fm)
          (seqZ 0 (Z.of_nat (length fm) - slice_stop)) fm;
    Ok (fm, ftm_slice).

(** [spectral_periodic_extension(fm, nphi, L)]: a fresh array of length
      [2L]; [fm] is only read. *)
Definition spectral_periodic_extension (fm : list C) (nphi L : Z)
    : result (list C) :=
    _ ← py_assert (nphi <=? 2 * L);
    let slice_start := L - nphi `div` 2 in
    let slice_stop := slice_start + nphi in
    fm_full ← np_full (2 * L) czero;
    fm_full ← slice_assign fm_full slice_start slice_stop fm;
    fm_full ← for_each (λ fm_full idx,
            j ← py_mod (- idx) nphi;
            v ← getitem fm j;
            setitem fm_full (slice_start - idx) v)
          (seqZ 1 slice_start) fm_full;
    for_each (λ fm_full idx,
            j ← py_mod idx nphi;
            v ← getitem fm j;
            setitem fm_full (slice_stop + idx) v)
          (seqZ 0 (Z.of_nat (length fm_full) - slice_stop)) fm_full.

(** The array obtained by folding the periodic extension of [fm]. *)
Definition fold_of_extension (fm : list C) (nphi L : Z) : result (list C) :=
    fm_full ← spectral_periodic_extension fm nphi L;
    '(buf, ftm_slice) ← spectral_folding fm_full nphi L;
    Ok (view_contents buf ftm_slice).
(** *** What folding computes

    The positions of a buffer of length [len] that lie outside the window
    [slice_start, slice_stop), in the order in which the two loops of
    [spectral_folding] visit them: downwards from [slice_start - 1], then
    upwards from [slice_stop]. *)
Definition outside_bins (nphi L : Z) (len : nat) : list Z :=
  let slice_start := L - nphi `div` 2 in
  let slice_stop := slice_start + nphi in
  reverse (seqZ 0 slice_start) ++ seqZ slice_stop (Z.of_nat len - slice_stop).

(** The positions outside the window that are congruent, modulo [nphi], to
    the window entry [j]. *)
Definition aliases (nphi L : Z) (len : nat) (j : Z) : list Z :=
  filter (λ k, (k - (L - nphi `div` 2)) `mod` nphi = j) (outside_bins nphi L len).

(** One accumulation [ftm_slice[j] += fm[k]] for the position [k] outside
    the window, as an update of the buffer. *)
Definition fold_step (fm : list C) (nphi L : Z) (buf : list C) (k : Z) : list C :=
  let slice_start := L - nphi `div` 2 in
  alter (λ x, cadd x (fm !!! Z.to_nat k))
        (Z.to_nat (slice_start + (k - slice_start) `mod` nphi)) buf.

(** The periodic continuation of [fm] over a buffer of length [2L]: bin [k]
    holds the entry of [fm] congruent to it modulo [nphi]. *)
Definition periodic_buffer (fm : list C) (nphi L : Z) : list C :=
  let slice_start := L - nphi `div` 2 in
  (λ k, fm !!! Z.to_nat ((k - slice_start) `mod` nphi)) <$> seqZ 0 (2 * L).

(** How many bins of the [2L] buffer outside the window alias onto the
    window entry [j]. *)
Definition alias_count (nphi L : Z) (j : Z) : nat :=
  length (aliases nphi L (Z.to_nat (2 * L)) j).

(** [x + x + ... + x] with [n] additions, associated to the left. *)
Definition add_copies (n : nat) (x : C) : C := foldl cadd x (replicate n x).
End healpix_ffts.


(** *** The per-ring FFT drivers

    [numpy.fft] and the HEALPix geometry of [s2fft.samples] are supplied from
    outside the files modelled here.  The discrete Fourier transforms are
    parameters; the geometry functions are parameters as well. *)

(** [fft.fftshift(x)]: the last [n // 2] entries move to the front. *)
Definition fftshift {A} (x : list A) : list A :=
  let k := (length x - length x `div` 2)%nat in drop k x ++ take k x.

(** [fft.ifftshift(x)]: the first [n // 2] entries move to the back. *)
Definition ifftshift {A} (x : list A) : list A :=
  let k := (length x `div` 2)%nat in drop k x ++ take k x.

(** [a[t] = row] for a two-dimensional array [a]: [row] must have the
    length of the rows of [a], or length one (broadcast). *)
Definition row_assign {A} (a : list (list A)) (t : Z) (row : list A)
  : result (list (list A)) :=
  i ← norm_index (length a) t;
  match a !! i with
  | None => Raise IndexError
  | Some old =>
      if decide (length row = length old) then Ok (<[i := row]> a)
      else match row with
           | [x] => Ok (<[i := replicate (length old) x]> a)
           | _ => Raise (ValueError "could not broadcast input array")
           end
  end.

(** [x[a:b]] as a value. *)
Definition py_slice {A} (x : list A) (a b : Z) : list A :=
  view_contents x (mk_view (length x) a b).

(** NumPy refuses to transform an empty array. *)
Definition np_fft {A} (prim : list A → list A) (x : list A) : result (list A) :=
  match x with
  | [] => Raise (ValueError "Invalid number of FFT data points (0) specified.")
  | _ => Ok (prim x)
  end.

Section healpix_drivers.
Context {C : Type} {SC : Scalar C}.

(** [samples.nphi_ring(t, nside)] *)
Variable nphi_ring : Z → Z → Z.
(** [samples.ftm_shape(L, "healpix", nside)] *)
Variable ftm_shape : Z → Z → Z * Z.
(** [samples.f_shape(sampling="healpix", nside=nside)]: the pixel count. *)
Variable f_shape_healpix : Z → Z.
(** [fft.fft(x, norm="backward")]: the unscaled forward transform. *)
Variable fft : list C → list C.
(** [fft.rfft(x, norm="backward")] on real input. *)
Variable rfft : list C → list C.
(** [fft.ifft(x, norm="forward")]: the unscaled inverse transform. *)
Variable ifft : list C → list C.

(** The spectrum that [irfft(x, n)] inverts: the first [n // 2 + 1] entries
    of [x] (padded with zeros), taken as the non-negative frequencies of a
    Hermitian spectrum of length [n].  The imaginary parts of the
    zero-frequency term and, for even [n], of the Nyquist term are
    dropped. *)
Definition hermitian_extension (x : list C) (n : nat) : list C :=
  let m := (n `div` 2 + 1)%nat in
  let xp := take m (x ++ replicate m czero) in
  let pos := drop 1 (take ((n + 1) `div` 2) xp) in
  let nyq := if Nat.even n then cre <$> drop (n `div` 2) xp else [] in
  take n ((cre <$> take 1 xp) ++ pos ++ nyq ++ (cconj <$> reverse pos)).

(** [fft.irfft(x, n, norm="forward")], after NumPy's contract: the
    unscaled inverse transform of the Hermitian spectrum described by [x]. *)
Definition np_irfft (x : list C) (n : Z) : result (list C) :=
  if n <? 1 then
    Raise (ValueError "Invalid number of FFT data points specified.")
  else Ok (ifft (hermitian_extension x (Z.to_nat n))).

(** [np.zeros((rows, cols))] *)
Definition np_zeros2 (shape : Z * Z) : result (list (list C)) :=
  if (shape.1 <? 0) || (shape.2 <? 0) then
    Raise (ValueError "negative dimensions are not allowed")
  else Ok (replicate (Z.to_nat shape.1) (replicate (Z.to_nat shape.2) czero)).

(** [healpix_fft(f, L, nside, reality)].  The loop state is [(ftm, index)]. *)
Definition healpix_fft (f : list C) (L nside : Z) (reality : bool)
  : result (list (list C)) :=
  _ ← py_assert (2 * nside <=? L);
  ftm ← np_zeros2 (ftm_shape L nside);
  let ntheta := Z.of_nat (length ftm) in
  st ← for_each (λ '(ftm, index) t,
          let nphi := nphi_ring t nside in
          _ ← (if reality && (nphi =? 2 * L) then
                 fm_chunk ← np_full nphi czero;
                 r ← np_fft rfft (cre <$> py_slice f index (index + nphi));
                 _ ← slice_assign fm_chunk (nphi `div` 2) (Z.of_nat (length fm_chunk))
                       (py_slice r 0 (-1));
                 Ok ()
               else Ok ());
          spec ← np_fft fft (py_slice f index (index + nphi));
          let fm_chunk := fftshift spec in
          row ← (if nphi =? 2 * L then Ok fm_chunk
                 else spectral_periodic_extension fm_chunk nphi L);
          ftm ← row_assign ftm t row;
          Ok (ftm, index + nphi))
        (py_range 0 ntheta) (ftm, 0);
  Ok st.1.

(** [healpix_ifft(ftm, L, nside, reality)].  The rows [ftm[t]] are views on
    [ftm], so the in-place accumulation of [spectral_folding] lands in the
    caller's array: the row is read, folded, and stored back at [t], and the
    result pairs the final contents of [ftm] with the returned pixel array.
    The loop state is [(ftm, f, index)]. *)
Definition healpix_ifft (ftm : list (list C)) (L nside : Z) (reality : bool)
  : result (list (list C) * list C) :=
  _ ← py_assert (2 * nside <=? L);
  f ← np_full (f_shape_healpix nside) czero;
  let ntheta := Z.of_nat (length ftm) in
  st ← for_each (λ '(ftm, f, index) t,
          let nphi := nphi_ring t nside in
          row ← getitem ftm t;
          '(row, fm_chunk) ←
             (if nphi =? 2 * L then Ok (row, View 0 (length row))
              else spectral_folding row nphi L);
          ftm ← setitem ftm t row;
          let chunk := view_contents row fm_chunk in
          pix ← (if reality && (nphi =? 2 * L) then
                   np_irfft (py_slice chunk (nphi `div` 2) (Z.of_nat (length chunk)))
                            nphi
                 else np_fft ifft (ifftshift chunk));
          f ← slice_assign f index (index + nphi) pix;
          Ok (ftm, f, index + nphi))
        (py_range 0 ntheta) (ftm, f, 0);
  Ok (st.1.1, st.1.2).

(** The position in the pixel array of the first pixel of ring [t]. *)
Definition ring_offset (nside t : Z) : Z :=
  foldr Z.add 0 ((λ t', nphi_ring t' nside) <$> seqZ 0 t).

(** A row of [2L] Fourier coefficients, for the orders [m = -L, ..., L-1],
    that is conjugate symmetric, [row[L+m] = conj(row[L-m])] for
    [|m| <= L-1], and has no component at the unpaired order [-L]. *)
Definition hermitian_row (L : Z) (row : list C) : Prop :=
  length row = Z.to_nat (2 * L) ∧
  row !! 0%nat = Some czero ∧
  ∀ m, 0 ≤ m < L →
    row !! Z.to_nat (L - m) = cconj <$> row !! Z.to_nat (L + m).
End healpix_drivers.

(** ** s2fft/wigner/samples.py *)

(** [str.lower()] on the ASCII letters.  Strings are byte strings here; the
    comparisons below are against the ASCII words "mw", "mwss" and "dh", and
    no non-ASCII letter lowers to one of their letters. *)
Definition ascii_lower (c : ascii) : ascii :=
  let n := N_of_ascii c in
  if (65 <=? n)%N && (n <=? 90)%N then ascii_of_N (n + 32) else c.

Fixpoint py_lower (s : string) : string :=
  match s with
  | EmptyString => EmptyString
  | String c s' => String (ascii_lower c) (py_lower s')
  end.

Definition unsupported_sampling (sampling : string) : exn :=
  ValueError ("Sampling scheme sampling=" +:+ sampling +:+ " not supported").

(** [_nalpha(L, sampling)] *)
Definition _nalpha (L : Z) (sampling : string) : result Z :=
  if bool_decide (py_lower sampling ∈ ["mw"; "dh"]) then Ok (2 * L - 1)
  else if bool_decide (py_lower sampling = "mwss") then Ok (2 * L)
  else Raise (unsupported_sampling sampling).

(** [_nbeta(L, sampling)] *)
Definition _nbeta (L : Z) (sampling : string) : result Z :=
  if bool_decide (py_lower sampling = "mw") then Ok L
  else if bool_decide (py_lower sampling = "mwss") then Ok (L + 1)
  else if bool_decide (py_lower sampling = "dh") then Ok (2 * L)
  else Raise (unsupported_sampling sampling).

(** [_ngamma(N)] *)
Definition _ngamma (N : Z) : Z := 2 * N - 1.

(** [f_shape(L, N, sampling)] *)
Definition f_shape (L N : Z) (sampling : string) : result (Z * Z * Z) :=
  if bool_decide (sampling ∈ ["mw"; "mwss"; "dh"]) then
    nb ← _nbeta L sampling;
    na ← _nalpha L sampling;
    Ok (nb, na, _ngamma N)
  else Raise (unsupported_sampling sampling).

(** [flmn_shape(L, N)] *)
Definition flmn_shape (L N : Z) : Z * Z * Z := (L, 2 * L - 1, 2 * N - 1).

(** [flmn_shape_1d(L, N)] *)
Definition flmn_shape_1d (L N : Z) : Z := (2 * N - 1) * L * L.

(** [elmn2ind(el, m, n, L, N)] *)
Definition elmn2ind (el m n L N : Z) : Z :=
  let n_offset := (N - 1 + n) * L * L in
  let el_offset := el * el in
  n_offset + el_offset + el + m.

(** An [ndarray] argument whose number of dimensions the code inspects. *)
Inductive ndarray (A : Type) : Type :=
  | Arr1 (a : list A)
  | Arr2 (a : list (list A))
  | Arr3 (a : list (list (list A))).
Arguments Arr1 {A} a.
Arguments Arr2 {A} a.
Arguments Arr3 {A} a.

(** [a.shape], printed as Python prints a tuple. *)
Definition shape_repr {A} (a : ndarray A) : string :=
  match a with
  | Arr1 a => "(" +:+ pretty (length a) +:+ ",)"
  | Arr2 a => "(" +:+ pretty (length a) +:+ ", "
                 +:+ pretty (length (default [] (head a))) +:+ ")"
  | Arr3 a => "(" +:+ pretty (length a) +:+ ", "
                 +:+ pretty (length (default [] (head a))) +:+ ", "
                 +:+ pretty (length (default [] (head (default [] (head a)))))
                 +:+ ")"
  end.

(** [a[i, j, k]] *)
Definition getitem3 {A} (a : list (list (list A))) (i j k : Z) : result A :=
  x ← getitem a i; y ← getitem x j; getitem y k.

(** [a[i, j, k] = v] *)
Definition setitem3 {A} (a : list (list (list A))) (i j k : Z) (v : A)
  : result (list (list (list A))) :=
  x ← getitem a i;
  y ← getitem x j;
  y ← setitem y k v;
  x ← setitem x j y;
  setitem a i x.

(** [np.zeros((d0, d1, d2))] and friends. *)
Definition np_full3 {A} (shape : Z * Z * Z) (x : A)
  : result (list (list (list A))) :=
  let '(d0, d1, d2) := shape in
  if (d0 <? 0) || (d1 <? 0) || (d2 <? 0) then
    Raise (ValueError "negative dimensions are not allowed")
  else Ok (replicate (Z.to_nat d0) (replicate (Z.to_nat d1) (replicate (Z.to_nat d2) x))).

Section wigner_samples.
Context {C : Type} {SC : Scalar C}.

(** [flmn_3d_to_1d(flmn_3d, L, N)] *)
Definition flmn_3d_to_1d (flmn_3d : ndarray C) (L N : Z) : result (list C) :=
  flmn_1d ← np_full (flmn_shape_1d L N) czero;
  match flmn_3d with
  | Arr1 _ => Raise (ValueError "flmn is already 1D indexed")
  | Arr2 _ =>
      Raise (ValueError ("Cannot convert flmn of dimension "
                         +:+ shape_repr flmn_3d +:+ " to 1D indexing"))
  | Arr3 a =>
      for_each (λ flmn_1d n,
        for_each (λ flmn_1d el,
          for_each (λ flmn_1d m,
            v ← getitem3 a el (L - 1 + m) (N - 1 + n);
            setitem flmn_1d (elmn2ind el m n L N) v)
          (py_range (- el) (el + 1)) flmn_1d)
        (py_range 0 L) flmn_1d)
      (py_range (- N + 1) N) flmn_1d
  end.

(** [flmn_1d_to_3d(flmn_1d, L, N)] *)
Definition flmn_1d_to_3d (flmn_1d : ndarray C) (L N : Z)
  : result (list (list (list C))) :=
  flmn_3d ← np_full3 (flmn_shape L N) czero;
  match flmn_1d with
  | Arr3 _ => Raise (ValueError "Flmn is already 3D indexed")
  | Arr2 _ =>
      Raise (ValueError ("Cannot convert flmn of dimension "
                         +:+ shape_repr flmn_1d +:+ " to 3D indexing"))
  | Arr1 a =>
      for_each (λ flmn_3d n,
        for_each (λ flmn_3d el,
          for_each (λ flmn_3d m,
            v ← getitem a (elmn2ind el m n L N);
            setitem3 flmn_3d el (L - 1 + m) (N - 1 + n) v)
          (py_range (- el) (el + 1)) flmn_3d)
        (py_range 0 L) flmn_3d)
      (py_range (- N + 1) N) flmn_3d
  end.

(** The two round trips. *)
Definition roundtrip_3d (x : list (list (list C))) (L N : Z)
  : result (list (list (list C))) :=
  y ← flmn_3d_to_1d (Arr3 x) L N; flmn_1d_to_3d (Arr1 y) L N.

Definition roundtrip_1d (y : list C) (L N : Z) : result (list C) :=
  x ← flmn_1d_to_3d (Arr1 y) L N; flmn_3d_to_1d (Arr3 x) L N.

(** [x] has shape [(d0, d1, d2)]. *)
Definition has_shape3 {A} (x : list (list (list A))) (d0 d1 d2 : nat) : Prop :=
  length x = d0 ∧
  Forall (λ row, length row = d1 ∧ Forall (λ col, length col = d2) row) x.
End wigner_samples.

(** *** Entry-wise reading of three-dimensional arrays *)

(** [M[i][j]] for positions in range. *)
Definition lookup2 {A} (M : list (list A)) (i j : nat) : option A :=
  x ← M !! i; x !! j.

(** [a[i][j][k]] for positions in range. *)
Definition lookup3 {A} (a : list (list (list A))) (i j k : nat) : option A :=
  x ← a !! i; y ← x !! j; y !! k.

(** The array [a] with the entry at [(i, j, k)] replaced. *)
Definition insert3 {A} (i j k : nat) (v : A) (a : list (list (list A)))
  : list (list (list A)) :=
  alter (alter (<[k := v]>) j) i a.

(** The entries of [x] at positions [(el, L-1+m, _)] with [|m| > el] are
    zero. *)
Definition zero_off_support {C} {SC : Scalar C} (x : list (list (list C)))
    (L : Z) : Prop :=
  ∀ (i j k : nat) (v : C),
    lookup3 x i j k = Some v →
    ¬ (- Z.of_nat i ≤ Z.of_nat j - (L - 1) ≤ Z.of_nat i) → v = czero.

(** The loop nest [for n in range(-N+1, N): for el in range(L):
    for m in range(-el, el+1)], as the list of its iterations. *)
Definition flmn_iter (L N : Z) : list (Z * (Z * Z)) :=
  n ← py_range (- N + 1) N;
  pair n <$> (el ← py_range 0 L; pair el <$> py_range (- el) (el + 1)).

(** ** s2fft/wigner/transform.py *)

(** [a.shape] for a three-dimensional array held as nested lists (read off
    the first row and column: arrays are rectangular). *)
Definition shape3 {A} (a : list (list (list A))) : Z * Z * Z :=
  let row := default [] (head a) in
  (Z.of_nat (length a), Z.of_nat (length row),
   Z.of_nat (length (default [] (head row)))).

(** An operation applied to every entry of a two-dimensional array. *)
Definition map2d {A B} (f : A → B) (a : list (list A)) : list (list B) :=
  (λ row : list A, f <$> row) <$> a.

(** [a[..., k]] *)
Definition get_last {A} (a : list (list (list A))) (k : Z)
  : result (list (list A)) :=
  mapM (mapM (λ col, getitem col k)) a.

(** [a[..., k] = M] for [M] of the shape of the two leading axes of [a]. *)
Definition set_last {A} (a : list (list (list A))) (k : Z) (M : list (list A))
  : result (list (list (list A))) :=
  if bool_decide (Forall2 (λ arow mrow, length arow = length mrow) a M) then
    mapM (λ rows, mapM (λ cv, setitem cv.1 k cv.2) (zip rows.1 rows.2)) (zip a M)
  else Raise (ValueError "could not broadcast input array").

Section wigner_transform.
Context {C : Type} {SC : Scalar C}.

(** [(-1) ** n] *)
Definition csign (n : Z) : C := if Z.even n then cone else copp cone.

(** [s2fft.transform.inverse(flm, L, spin, sampling, reality, L_lower, nside)]
    and [s2fft.transform.forward(f, L, spin, sampling, reality, L_lower, nside)]:
    the spin spherical harmonic transforms. *)
Variable sph_inverse :
  list (list C) → Z → Z → string → bool → Z → option Z → result (list (list C)).
Variable sph_forward :
  list (list C) → Z → Z → string → bool → Z → option Z → result (list (list C)).
(** [fft.fft(x, norm="backward")], [fft.rfft(x, norm="backward")] and
    [fft.ifft(x, norm="forward")] on one-dimensional arrays. *)
Variable fft : list C → list C.
Variable rfft : list C → list C.
Variable ifft : list C → list C.
(** [np.sqrt((2 * el + 1) / (16 * np.pi**3))], [np.sqrt(4 * np.pi / (2 * el + 1))]
    and [2 * np.pi / (2 * N - 1)]. *)
Variable inverse_scale : Z → C.
Variable forward_scale : Z → C.
Variable gamma_weight : Z → C.

(** [np.einsum("ijk,i->ijk", a, [scale(0), ..., scale(L-1)])] *)
Definition scale_degrees (scale : Z → C) (a : list (list (list C)))
  : list (list (list C)) :=
  imap (λ i plane, map2d (λ v, cmul v (scale (Z.of_nat i))) plane) a.

(** [TypeError: f_shape() takes from 2 to 3 positional arguments but 4 were
    given] *)
Definition f_shape_arity_error : exn :=
  TypeError
    "f_shape() takes from 2 to 3 positional arguments but 4 were given".

(** [s2fft.wigner.samples.f_shape(L, N, sampling, nside)], as [inverse] and
    [forward] call it: four positional arguments for the three parameters
    [(L, N, sampling="mw")] of [f_shape].  The binding of the arguments
    fails, so the body of [f_shape] does not run. *)
Definition f_shape_nside (L N : Z) (sampling : string) (nside : option Z)
  : result (Z * Z * Z) :=
  _ ← bind_positional "f_shape" 2 3 4;
  f_shape L N sampling.

(** [inverse(flmn, L, N, L_lower, sampling, reality, nside)] *)
Definition inverse (flmn : list (list (list C))) (L N L_lower : Z)
    (sampling : string) (reality : bool) (nside : option Z)
  : result (list (list (list C))) :=
  _ ← py_assert (bool_decide (shape3 flmn = flmn_shape L N));
  shp ← f_shape_nside L N sampling nside;
  fban ← np_full3 shp czero;
  let flmn_scaled := scale_degrees inverse_scale flmn in
  let n_start_ind := if reality then 0 else - N + 1 in
  fban ← for_each (λ fban n,
            flm ← get_last flmn_scaled (N - 1 + n);
            fn ← sph_inverse flm L (- n) sampling reality L_lower nside;
            set_last fban (N - 1 + n) (map2d (cmul (csign n)) fn))
          (py_range n_start_ind N) fban;
  if reality then
    mapM (mapM (λ col,
      np_irfft ifft (py_slice col (N - 1) (Z.of_nat (length col))) (2 * N - 1)))
      fban
  else
    mapM (mapM (λ col, np_fft ifft (ifftshift col))) fban.

(** [forward(f, L, N, L_lower, sampling, reality, nside)] *)
Definition forward (f : list (list (list C))) (L N L_lower : Z)
    (sampling : string) (reality : bool) (nside : option Z)
  : result (list (list (list C))) :=
  shp ← f_shape_nside L N sampling nside;
  _ ← py_assert (bool_decide (shape3 f = shp));
  flmn ← np_full3 (flmn_shape L N) czero;
  fban ← (if reality then mapM (mapM (λ col, np_fft rfft (cre <$> col))) f
          else mapM (mapM (λ col, fftshift <$> np_fft fft col)) f);
  let fban := map2d (λ v, cmul v (gamma_weight N)) <$> fban in
  let sgn := (λ m, csign (Z.abs m)) <$> py_range (- L + 1) L in
  let n_start_ind := if reality then 0 else - N + 1 in
  flmn ← for_each (λ flmn n,
            fn ← get_last fban (n - n_start_ind);
            flm ← sph_forward fn L (- n) sampling reality L_lower nside;
            flmn ← set_last flmn (N - 1 + n) (map2d (cmul (csign n)) flm);
            if reality && negb (n =? 0) then
              pos ← get_last flmn (N - 1 + n);
              set_last flmn (N - 1 - n)
                (map2d cconj
                   (reverse <$>
                      map2d (λ v, cmul v (csign n))
                        ((λ row, zip_with cmul row sgn) <$> pos)))
            else Ok flmn)
          (py_range n_start_ind N) flmn;
  Ok (scale_degrees forward_scale flmn).
(** The relation between the columns [N-1+n] and [N-1-n] of the
    coefficient cube that the reality branch of [forward] establishes. *)
Definition mirrored (L N : Z) (a : list (list (list C))) (n : Z) : Prop :=
  ∀ l j j' : nat, (j + j' + 1 = Z.to_nat (2 * L - 1))%nat →
    lookup3 a l j' (Z.to_nat (N - 1 - n)) =
    (λ v, cconj (cmul (cmul v (csign (Z.of_nat j - (L - 1)))) (csign n)))
      <$> lookup3 a l j (Z.to_nat (N - 1 + n)).

End wigner_transform.

(** ** s2fft/general_precompute/resampling_jax.py *)

(** [a[r0:r1, c0:c1]] *)
Definition slice2d {A} (a : list (list A)) (r0 r1 c0 c1 : Z) : list (list A) :=
  (λ row : list A, py_slice row c0 c1) <$> py_slice a r0 r1.

(** [a.at[r0:r1, c0:c1].set(v)] for [v] of the shape of the slice: the
    array with the slice replaced. *)
Definition at_set2d {A} (a : list (list A)) (r0 r1 c0 c1 : Z)
    (v : list (list A)) : result (list (list A)) :=
  let rw := mk_view (length a) r0 r1 in
  let target := view_contents a rw in
  if bool_decide (Forall2 (λ arow vrow : list A,
                     length vrow = v_len (mk_view (length arow) c0 c1)) target v)
  then
    Ok (take (v_off rw) a
        ++ zip_with (λ arow vrow : list A,
             let cw := mk_view (length arow) c0 c1 in
             take (v_off cw) arow ++ vrow ++ drop (v_off cw + v_len cw) arow)
             target v
        ++ drop (v_off rw + v_len rw) a)
  else Raise (ValueError "Incompatible shapes for broadcasting").

Section resampling.
Context {C : Type} {SC : Scalar C}.

(** [samples.ntheta(L, sampling)], [samples.nphi_equiang(L, sampling)] and
    [samples.ntheta_extension(L, sampling)] of [s2fft.samples]. *)
Variables ntheta nphi_equiang ntheta_extension : Z → string → Z.
(** [jnp.fft.fft(x, norm="backward")] and [jnp.fft.ifft(x, norm="backward")]
    on one-dimensional arrays. *)
Variables fft ifft : list C → list C.

(** [periodic_extension(f, L, spin, sampling)] *)
Definition periodic_extension (f : list (list C)) (L spin : Z)
    (sampling : string) : result (list (list C)) :=
  let ntheta := ntheta L sampling in
  let nphi := nphi_equiang L sampling in
  let ntheta_ext := ntheta_extension L sampling in
  let m_offset := if bool_decide (sampling = "mwss") then 1 else 0 in
  f_ext ← np_zeros2 (ntheta_ext, nphi);
  f_ext ← at_set2d f_ext 0 ntheta 0 nphi (slice2d f 0 ntheta 0 nphi);
  let f_ext : list (list C) :=
    (λ row : list C, fftshift (fft row)) <$> (f_ext : list (list C)) in
  f_ext ← at_set2d f_ext (L + m_offset) (2 * L - 1 + m_offset)
             m_offset (2 * L - 1 + m_offset)
             ((λ row : list C,
                 zip_with cmul row
                   ((λ m, csign (m + spin)) <$> py_range (- (L - 1)) L))
                <$> reverse (slice2d f_ext m_offset (L - 1 + m_offset)
                               m_offset (2 * L - 1 + m_offset)));
  Ok ((λ row : list C, ifft (ifftshift row)) <$> (f_ext : list (list C))).

(** [unextend(f_ext, L, sampling)] *)
Definition unextend (f_ext : list (list C)) (L : Z) (sampling : string)
  : result (list (list C)) :=
  if bool_decide (py_lower sampling = "mw") then Ok (py_slice f_ext 0 L)
  else if bool_decide (py_lower sampling = "mwss") then
    Ok (py_slice f_ext 0 (L + 1))
  else Raise (ValueError
                ("Only mw and mwss supported for periodic extension "
                 +:+ "(not sampling=" +:+ sampling +:+ ")")).
End resampling.

(** The equiangular geometry: [L] rings of [2L-1] samples for MW, [L+1]
    rings of [2L] samples for MWSS, extended to [2L-1] and [2L] rings. *)
Definition equiang_ntheta (L : Z) (sampling : string) : Z :=
  if bool_decide (sampling = "mwss") then L + 1 else L.
Definition equiang_nphi (L : Z) (sampling : string) : Z :=
  if bool_decide (sampling = "mwss") then 2 * L else 2 * L - 1.
Definition equiang_ntheta_extension (L : Z) (sampling : string) : Z :=
  if bool_decide (sampling = "mwss") then 2 * L else 2 * L - 1.

Section resampling_spatial.
Context {C : Type} {SC : Scalar C}.

(** [jnp.fft.fft(x, norm="forward")] and [jnp.fft.ifft(x, norm="forward")]
    on one-dimensional arrays. *)
Variables fft_forward ifft_forward : list C → list C.

(** [periodic_extension_spatial_mwss(f, L, spin)] *)
Definition periodic_extension_spatial_mwss (f : list (list C)) (L spin : Z)
  : result (list (list C)) :=
  let ntheta := L + 1 in
  let nphi := 2 * L in
  let ntheta_ext := 2 * L in
  f_ext ← np_zeros2 (ntheta_ext, nphi);
  f_ext ← at_set2d f_ext 0 ntheta 0 nphi (slice2d f 0 ntheta 0 nphi);
  at_set2d f_ext ntheta (Z.of_nat (length (f_ext : list (list C)))) 0 (2 * L)
    (map2d (cmul (csign spin))
       (fftshift <$> reverse (slice2d f 1 (ntheta - 1) 0 (2 * L)))).

(** [mw_to_mwss_phi(f_mw, L)].  The slice [[:, 1:]] runs to the end of both
    axes. *)
Definition mw_to_mwss_phi (f_mw : list (list C)) (L : Z)
  : result (list (list C)) :=
  f_mwss ← np_zeros2 (L + 1, 2 * L);
  f_mwss ← at_set2d f_mwss 0 (Z.of_nat (length (f_mwss : list (list C))))
              1 (Z.of_nat (length (default [] (head f_mwss))))
              ((λ row : list C, fftshift (fft_forward row)) <$> f_mw);
  Ok ((λ row : list C, ifft_forward (ifftshift row))
        <$> (f_mwss : list (list C))).
End resampling_spatial.

(** *** Resampling along theta *)

Section resampling_theta.
Context {C : Type} {SC : Scalar C}.

(** [samples.ntheta], [samples.nphi_equiang], [samples.ntheta_extension] *)
Variables ntheta nphi_equiang ntheta_extension : Z → string → Z.
(** The transforms along [phi] of [periodic_extension] and of
    [mw_to_mwss_phi]. *)
Variables fft ifft fft_forward ifft_forward : list C → list C.
(** [jnp.fft.fft(x, axis=0, norm="forward")] and
    [jnp.fft.ifft(x, axis=0, norm="forward")] on two-dimensional arrays. *)
Variables fft_theta ifft_theta : list (list C) → list (list C).
(** [jnp.exp(-1j * k * jnp.pi / (2 * L - 1))] *)
Variable theta_phase : Z → Z → C.

(** [jnp.einsum("lp,l->lp", a, w)] *)
Definition einsum_lp_l (a : list (list C)) (w : list C)
  : result (list (list C)) :=
  if decide (length w = length a) then
    Ok (zip_with (λ (row : list C) (x : C), (λ y, cmul y x) <$> row) a w)
  else Raise (ValueError "operands could not be broadcast together").

(** [mw_to_mwss_theta(f_mw, L, spin)].  The slice [[1:]] runs to the end of
    both axes. *)
Definition mw_to_mwss_theta (f_mw : list (list C)) (L spin : Z)
  : result (list (list C)) :=
  f_mw_ext ← periodic_extension ntheta nphi_equiang ntheta_extension fft ifft
               f_mw L spin "mw";
  fmp_mwss_ext ← np_zeros2 (2 * L, 2 * L - 1);
  fmp_mwss_ext ←
    at_set2d fmp_mwss_ext 1 (Z.of_nat (length (fmp_mwss_ext : list (list C))))
      0 (Z.of_nat (length (default [] (head fmp_mwss_ext))))
      (fftshift (fft_theta f_mw_ext));
  scaled ←
    einsum_lp_l
      (py_slice fmp_mwss_ext 1 (Z.of_nat (length (fmp_mwss_ext : list (list C)))))
      ((λ k, theta_phase L k) <$> py_range (- (L - 1)) L);
  fmp_mwss_ext ←
    at_set2d fmp_mwss_ext 1 (Z.of_nat (length (fmp_mwss_ext : list (list C))))
      0 (Z.of_nat (length (default [] (head fmp_mwss_ext))))
      scaled;
  let f_mwss_ext := ifft_theta (ifftshift fmp_mwss_ext) in
  unextend f_mwss_ext L "mwss".

(** [mw_to_mwss(f_mw, L, spin)] *)
Definition mw_to_mwss (f_mw : list (list C)) (L spin : Z)
  : result (list (list C)) :=
  f ← mw_to_mwss_theta f_mw L spin;
  mw_to_mwss_phi fft_forward ifft_forward f L.

(** [upsample_by_two_mwss_ext(f_ext, L)] *)
Definition upsample_by_two_mwss_ext (f_ext : list (list C)) (L : Z)
  : result (list (list C)) :=
  let nphi := 2 * L in
  let ntheta_ext := 2 * L in
  let f_ext := fftshift (fft_theta f_ext) in
  let ntheta_ext_up := 2 * ntheta_ext in
  f_ext_up ← np_zeros2 (ntheta_ext_up, nphi);
  f_ext_up ← at_set2d f_ext_up L (ntheta_ext + L) 0 nphi
                (slice2d f_ext 0 ntheta_ext 0 nphi);
  Ok (ifft_theta (ifftshift f_ext_up)).

(** [upsample_by_two_mwss(f, L, spin)] *)
Definition upsample_by_two_mwss (f : list (list C)) (L spin : Z)
  : result (list (list C)) :=
  f_ext ← periodic_extension_spatial_mwss f L spin;
  f_ext_up ← upsample_by_two_mwss_ext f_ext L;
  unextend f_ext_up (2 * L) "mwss".
End resampling_theta.

(** ** s2fft/precompute_transforms/construct.py *)

(** [enumerate(l)] *)
Definition py_enumerate {A} (l : list A) : list (Z * A) :=
  imap (λ (i : nat) (x : A), (Z.of_nat i, x)) l.

(** [x[start:]] as a value. *)
Definition py_slice_from {A} (x : list A) (start : Z) : list A :=
  py_slice x start (Z.of_nat (length x)).

(** [dl[t, el] = row] *)
Definition assign_row3 {A} (dl : list (list (list A))) (t el : Z)
    (row : list A) : result (list (list (list A))) :=
  plane ← getitem dl t;
  plane ← row_assign plane el row;
  setitem dl t plane.

Section construct.
Context {C : Type} {SC : Scalar C}.

(** [dl[t, el] *= c] *)
Definition scale_row3 (dl : list (list (list C))) (t el : Z) (c : C)
  : result (list (list (list C))) :=
  plane ← getitem dl t;
  row ← getitem (plane : list (list C)) el;
  plane ← setitem plane el ((λ x, cmul x c) <$> (row : list C));
  setitem dl t plane.

(** [np.einsum("...tlm, ...t->...tlm", dl, weights)] for [weights] with one
    entry for each [t]. *)
Definition einsum_tlm_t (dl : list (list (list C))) (weights : list C)
  : result (list (list (list C))) :=
  if decide (length weights = length dl) then
    Ok (zip_with (λ plane w, map2d (λ x, cmul x w) plane) dl weights)
  else Raise (ValueError "operands could not be broadcast together").

(** [np.einsum("...tlm,...tm->...tlm", dl, phase)] for [phase] with one row
    for each [t], of the length of the rows of [dl]. *)
Definition einsum_tlm_tm (dl : list (list (list C))) (phase : list (list C))
  : result (list (list (list C))) :=
  if bool_decide (Forall2 (λ plane ph,
                     Forall (λ row : list C, length row = length ph) plane)
                    dl phase)
  then Ok (zip_with (λ plane ph,
                       (λ row : list C, zip_with cmul row ph) <$> plane)
             dl phase)
  else Raise (ValueError "operands could not be broadcast together").

(** The colatitudes [samples.thetas(L, sampling, nside)], whose values are
    of a type [angle] of their own. *)
Variable angle : Type.
Variable thetas : Z → string → option Z → result (list angle).
(** [recursions.turok.compute_slice(theta, el, L, mm, reality)] *)
Variable compute_slice : angle → Z → Z → Z → bool → result (list C).
(** [np.sqrt((2 * el + 1) / (4 * np.pi))] *)
Variable kernel_norm : Z → C.
(** [quadrature.quad_weights_transform(L, sampling, spin, nside)] *)
Variable quad_weights_transform : Z → string → Z → option Z → result (list C).
(** [samples.ring_phase_shift_hp(L, t, nside, forward)] *)
Variable ring_phase_shift_hp : Z → Z → option Z → bool → result (list C).

(** [healpix_phase_shifts(L, nside, forward)] *)
Definition healpix_phase_shifts (L : Z) (nside : option Z) (forward : bool)
  : result (list (list C)) :=
  thetas_ ← thetas L "healpix" nside;
  phase_array ← np_zeros2 (Z.of_nat (length thetas_), 2 * L - 1);
  for_each (λ (phase_array : list (list C)) '(t, theta),
              row ← ring_phase_shift_hp L t nside forward;
              row_assign phase_array t row)
           (py_enumerate thetas_) phase_array.

(** The text of the warning of [spin_spherical_kernel]. *)
Definition reality_warning : string :=
  "Reality acceleration only supports spin 0 fields. "
  +:+ "Defering to complex transform.".

(** [spin_spherical_kernel(L, spin, reality, sampling, nside, forward)].
    The first component is the list of the warnings issued through
    [warnings.warn] (which returns, under the default warning filter), the
    second the outcome of the call. *)
Definition spin_spherical_kernel (L spin : Z) (reality : bool)
    (sampling : string) (nside : option Z) (forward : bool)
  : list string * result (list (list (list C))) :=
  let '(reality, warnings) :=
    if reality && negb (spin =? 0) then (false, [reality_warning])
    else (reality, []) in
  let m_start_ind := if reality then L - 1 else 0 in
  let m_dim := if reality then L else 2 * L - 1 in
  (warnings,
   '(sampling, thetas_) ←
     (if forward && bool_decide (py_lower sampling ∈ ["mw"; "mwss"]) then
        thetas_ ← thetas (2 * L) "mwss" None; Ok ("mwss", thetas_)
      else
        thetas_ ← thetas L sampling nside; Ok (sampling, thetas_));
   dl ← np_full3 (Z.of_nat (length thetas_), L, m_dim) czero;
   dl ← for_each (λ (dl : list (list (list C))) '(t, theta),
          for_each (λ (dl : list (list (list C))) el,
              slice ← compute_slice theta el L (- spin) reality;
              dl ← assign_row3 dl t el (py_slice_from slice m_start_ind);
              scale_row3 dl t el (kernel_norm el))
            (py_range (Z.abs spin) L) dl)
          (py_enumerate thetas_) dl;
   dl ← (if forward then
            weights ← quad_weights_transform L sampling 0 nside;
            einsum_tlm_t dl weights
          else Ok dl);
   if bool_decide (py_lower sampling = "healpix") then
     phase ← healpix_phase_shifts L nside forward;
     einsum_tlm_tm dl ((λ row : list C, py_slice_from row m_start_ind)
                         <$> (phase : list (list C)))
   else Ok dl).
End construct.

(** *** The Wigner kernel

    A four-dimensional array [dl[n, t, el, m]] is held as the list of its
    three-dimensional planes [dl[n]]; the kernels have at least one such
    plane ([N >= 1]). *)

(** [np.zeros((d0, d1, d2, d3))] *)
Definition np_full4 {A} (shape : Z * Z * Z * Z) (x : A)
  : result (list (list (list (list A)))) :=
  let '(d0, d1, d2, d3) := shape in
  if (d0 <? 0) || (d1 <? 0) || (d2 <? 0) || (d3 <? 0) then
    Raise (ValueError "negative dimensions are not allowed")
  else Ok (replicate (Z.to_nat d0)
             (replicate (Z.to_nat d1)
                (replicate (Z.to_nat d2) (replicate (Z.to_nat d3) x)))).

(** [dl[ind, t, el] = row] *)
Definition assign_row4 {A} (dl : list (list (list (list A)))) (ind t el : Z)
    (row : list A) : result (list (list (list (list A)))) :=
  cube ← getitem dl ind;
  cube ← assign_row3 cube t el row;
  setitem dl ind cube.

Section wigner_kernel.
Context {C : Type} {SC : Scalar C}.

Variable angle : Type.
Variable thetas : Z → string → option Z → result (list angle).
Variable compute_slice : angle → Z → Z → Z → bool → result (list C).
Variable quad_weights_transform : Z → string → Z → option Z → result (list C).
Variable ring_phase_shift_hp : Z → Z → option Z → bool → result (list C).
(** [(2 * el + 1) / (8 * np.pi**2)] and [2 * np.pi / (2 * N - 1)] *)
Variable wigner_scale : Z → C.
Variable wigner_weight : Z → C.

(** [np.einsum("...ntlm,...l->...ntlm", dl, [scale(0), ..., scale(L-1)])] *)
Definition einsum_ntlm_l (dl : list (list (list (list C))))
  : list (list (list (list C))) :=
  (λ cube : list (list (list C)),
     (λ plane : list (list C),
        imap (λ (l : nat) (row : list C),
                (λ x, cmul x (wigner_scale (Z.of_nat l))) <$> row) plane)
       <$> cube) <$> dl.

(** [wigner_kernel(L, N, reality, sampling, nside, forward)] *)
Definition wigner_kernel (L N : Z) (reality : bool) (sampling : string)
    (nside : option Z) (forward : bool)
  : result (list (list (list (list C)))) :=
  let n_start_ind := if reality then N - 1 else 0 in
  let n_dim := if reality then N else 2 * N - 1 in
  '(sampling, thetas_) ←
    (if forward && bool_decide (py_lower sampling ∈ ["mw"; "mwss"]) then
       thetas_ ← thetas (2 * L) "mwss" None; Ok ("mwss", thetas_)
     else
       thetas_ ← thetas L sampling nside; Ok (sampling, thetas_));
  dl ← np_full4 (n_dim, Z.of_nat (length thetas_), L, 2 * L - 1) czero;
  dl ← for_each (λ (dl : list (list (list (list C)))) n,
         for_each (λ (dl : list (list (list (list C)))) '(t, theta),
           for_each (λ (dl : list (list (list (list C)))) el,
               let ind := if reality then n else N - 1 + n in
               slice ← compute_slice theta el L n false;
               assign_row4 dl ind t el slice)
             (py_range (Z.abs n) L) dl)
           (py_enumerate thetas_) dl)
         (py_range (n_start_ind - N + 1) N) dl;
  dl ← (if forward then
           weights ← quad_weights_transform L sampling 0 nside;
           dl ← mapM (λ cube, einsum_tlm_t cube weights) dl;
           Ok ((λ cube : list (list (list C)),
                  (λ plane : list (list C),
                     map2d (λ x, cmul x (wigner_weight N)) plane) <$> cube)
                 <$> (dl : list (list (list (list C)))))
         else Ok (einsum_ntlm_l dl));
  if bool_decide (py_lower sampling = "healpix") then
    phase ← healpix_phase_shifts angle thetas ring_phase_shift_hp L nside forward;
    mapM (λ cube, einsum_tlm_tm cube phase) dl
  else Ok dl.
End wigner_kernel.

(** *** Stand-ins for the external transforms

    The wrappers take the spherical transforms and the FFT primitives as
    parameters.  To run them on concrete arrays these are instantiated by
    the simplest functions of the right type: a spherical transform that
    returns a fixed array, and an FFT that leaves its input as it is (which
    is the discrete Fourier transform on arrays of length one). *)
Definition sample_flm : list (list GaussZ.t) :=
  [[GaussZ.re 1; GaussZ.im 2; GaussZ.re 3]; [(4, 1); (5, 2); (6, 3)]].

Definition sample_sph (out : list (list GaussZ.t))
  : list (list GaussZ.t) → Z → Z → string → bool → Z → option Z
    → result (list (list GaussZ.t)) :=
  λ _ _ _ _ _ _ _, Ok out.

Definition sample_fft (x : list GaussZ.t) : list GaussZ.t := x.

Definition sample_rfft (x : list GaussZ.t) : list GaussZ.t :=
  take (length x `div` 2 + 1)%nat x.

(** The powers of the imaginary unit. *)
Definition gauss_ipow (k : Z) : GaussZ.t :=
  match k `mod` 4 with
  | 0 => (1, 0)
  | 1 => (0, 1)
  | 2 => (-1, 0)
  | _ => (0, -1)
  end.

(** The unscaled discrete Fourier transform of an array whose length [n]
    divides four, where the [n]-th roots of unity are powers of [i]:
    [out[j] = sum_k x[k] * exp(sign * 2 pi i * j * k / n)].  With
    [sign = -1] this is [fft(x, norm="backward")], with [sign = 1] it is
    [ifft(x, norm="forward")]. *)
Definition gauss_dft (sign : Z) (x : list GaussZ.t) : list GaussZ.t :=
  let n := Z.of_nat (length x) in
  (λ j, foldl cadd czero
          (imap (λ k v, cmul v (gauss_ipow (sign * (4 `div` n) * j * Z.of_nat k))) x))
    <$> seqZ 0 n.

(** [rfft(x, norm="backward")]: the non-negative frequencies. *)
Definition gauss_rfft (x : list GaussZ.t) : list GaussZ.t :=
  take (length x `div` 2 + 1)%nat (gauss_dft (-1) x).

(** The HEALPix geometry for [nside = 1]: three rings of four pixels, and
    one row of [2L] coefficients for each ring. *)
Definition nside1_nphi_ring (t nside : Z) : Z := 4.
Definition nside1_ftm_shape (L nside : Z) : Z * Z := (3, 2 * L).
Definition nside1_f_shape (nside : Z) : Z := 12.

(** [ifft(x, norm="backward")] for the same lengths: the conjugate
    transform divided by [n].  The division is exact on the transforms of
    Gaussian integer arrays. *)
Definition gauss_ifft (x : list GaussZ.t) : list GaussZ.t :=
  let n := Z.of_nat (length x) in
  (λ z : GaussZ.t, (z.1 `div` n, z.2 `div` n)) <$> gauss_dft 1 x.

(** A field of shape [(3, 4)]: the MWSS grid for [L = 2]. *)
Definition sample_field : list (list GaussZ.t) :=
  [[GaussZ.re 1; (2, 1); GaussZ.re 3; GaussZ.re 4];
   [GaussZ.re 5; GaussZ.re 6; (7, 2); GaussZ.re 8];
   [GaussZ.re 9; GaussZ.re 10; GaussZ.re 11; GaussZ.re 12]].

(** Every row along the last axis of a three-dimensional array has
    length [m]. *)
Definition last_axis_is {A} (m : nat) (dl : list (list (list A))) : Prop :=
  Forall (Forall (λ row : list A, length row = m)) dl.

(** Stand-ins for the collaborators of [spin_spherical_kernel]: [L] rings,
    slices of [2L-1] entries, integer scale factors. *)
Definition sample_thetas (L : Z) (sampling : string) (nside : option Z)
  : result (list Z) := Ok (seqZ 0 L).
Definition sample_compute_slice (theta el L mm : Z) (reality : bool)
  : result (list GaussZ.t) :=
  Ok ((λ m, GaussZ.re (theta + el * m + mm)) <$> py_range (- (L - 1)) L).
Definition sample_kernel_norm (el : Z) : GaussZ.t := GaussZ.re (2 * el + 1).
Definition sample_quad_weights (L : Z) (sampling : string) (spin : Z)
    (nside : option Z) : result (list GaussZ.t) :=
  Ok (replicate (Z.to_nat L) (GaussZ.re 2)).
Definition sample_ring_phase_shift (L t : Z) (nside : option Z)
    (forward : bool) : result (list GaussZ.t) :=
  Ok (replicate (Z.to_nat (2 * L - 1)) (GaussZ.re 1)).

(** The transform of [gauss_dft] along the first axis of a two-dimensional
    array: column [j] of the result is the transform of column [j]. *)
Definition gauss_dft_theta (sign : Z) (x : list (list GaussZ.t))
  : list (list GaussZ.t) :=
  let ncols := length (default [] (head x)) in
  let cols :=
    (λ j : nat, gauss_dft sign ((λ row, default czero (row !! j)) <$> x))
      <$> seq 0 ncols in
  (λ i : nat, (λ col : list GaussZ.t, default czero (col !! i)) <$> cols)
    <$> seq 0 (length x).

(** [np.sum(l)] *)
Definition csum {C} {SC : Scalar C} (l : list C) : C := foldr cadd czero l.

(** * Properties *)

(** ** The Python layer *)

Section py_facts.
Context {A : Type}.
Implicit Types (l : list A) (k : Z).

Lemma norm_index_nonneg (len : nat) k :
  0 ≤ k < Z.of_nat len → norm_index len k = Ok (Z.to_nat k).
Proof.
  intros Hk. unfold norm_index.
  destruct (Z.leb_spec 0 k); [|lia].
  destruct (Z.ltb_spec k (Z.of_nat len)); [done|lia].
Qed.

Lemma getitem_nonneg l k x :
  0 ≤ k → l !! Z.to_nat k = Some x → getitem l k = Ok x.
Proof.
  intros Hk Hx. unfold getitem.
  pose proof (lookup_lt_Some _ _ _ Hx).
  rewrite norm_index_nonneg by lia. simpl. by rewrite Hx.
Qed.

Lemma setitem_nonneg l k v :
  0 ≤ k < Z.of_nat (length l) → setitem l k v = Ok (<[Z.to_nat k := v]> l).
Proof. intros Hk. unfold setitem. by rewrite norm_index_nonneg. Qed.

Lemma py_mod_nonzero a b : b ≠ 0 → py_mod a b = Ok (a `mod` b).
Proof. intros Hb. unfold py_mod. by destruct (Z.eqb_spec b 0). Qed.

Lemma slice_bound_in (len : nat) k :
  0 ≤ k ≤ Z.of_nat len → slice_bound len k = Z.to_nat k.
Proof.
  intros Hk. unfold slice_bound. destruct (Z.ltb_spec k 0); [lia|].
  f_equal. lia.
Qed.

Lemma mk_view_in (len : nat) (a b : Z) :
  0 ≤ a → a ≤ b → b ≤ Z.of_nat len →
  mk_view len a b = View (Z.to_nat a) (Z.to_nat (b - a)).
Proof.
  intros. unfold mk_view. rewrite !slice_bound_in by lia. f_equal. lia.
Qed.

Lemma for_each_app {S I} (body : S → I → result S) (l1 l2 : list I) (s : S) :
  for_each body (l1 ++ l2) s = s1 ← for_each body l1 s; for_each body l2 s1.
Proof.
  revert s. induction l1 as [|i l1 IH]; intros s; simpl; [done|].
  destruct (body s i); simpl; [apply IH|done].
Qed.

(** A loop whose body never raises while an invariant holds is a left fold
    of its body's effect. *)
Lemma for_each_foldl {S I} (body : S → I → result S) (step : S → I → S)
    (Inv : S → Prop) (idxs : list I) (s : S) :
  Inv s →
  (∀ s i, i ∈ idxs → Inv s → body s i = Ok (step s i) ∧ Inv (step s i)) →
  for_each body idxs s = Ok (foldl step s idxs) ∧ Inv (foldl step s idxs).
Proof.
  revert s. induction idxs as [|i idxs IH]; intros s Hs Hbody; simpl; [done|].
  destruct (Hbody s i) as [-> Hs']; [by left|done|]. simpl.
  apply IH; [done|]. intros s' i' Hi'. apply Hbody. by right.
Qed.

(** A run of assignments [buf[pos i] = val i]: an entry no assignment
    targets keeps its value. *)
Lemma lookup_foldl_insert_ne {I} (pos : I → nat) (val : I → A) idxs l (k : nat) :
  (∀ i, i ∈ idxs → pos i ≠ k) →
  foldl (λ l i, <[pos i := val i]> l) l idxs !! k = l !! k.
Proof.
  revert l. induction idxs as [|i idxs IH]; intros l Hne; simpl; [done|].
  rewrite IH by (intros i' Hi'; apply Hne; by right).
  apply list_lookup_insert_ne, Hne. by left.
Qed.

Lemma length_foldl_insert {I} (pos : I → nat) (val : I → A) idxs l :
  length (foldl (λ l i, <[pos i := val i]> l) l idxs) = length l.
Proof.
  revert l. induction idxs as [|i idxs IH]; intros l; simpl; [done|].
  by rewrite IH, length_insert.
Qed.

(** An entry targeted by an assignment holds the assigned value, as long as
    all assignments to it agree. *)
Lemma lookup_foldl_insert_eq {I} (pos : I → nat) (val : I → A) idxs l (k : nat) i :
  i ∈ idxs → pos i = k → (k < length l)%nat →
  (∀ i', i' ∈ idxs → pos i' = k → val i' = val i) →
  foldl (λ l i, <[pos i := val i]> l) l idxs !! k = Some (val i).
Proof.
  revert l i. induction idxs as [|i0 idxs IH]; intros l i Hin Hpos Hk Hagree; simpl.
  - by apply elem_of_nil in Hin.
  - destruct (decide (Exists (λ i', pos i' = k) idxs)) as [Hex|Hnex].
    + apply Exists_exists in Hex as (i1 & Hi1 & Hpos1).
      rewrite <- (Hagree i1) by (done || by right).
      apply IH; [done|done|by rewrite length_insert|].
      intros i' Hi' Hp'. rewrite (Hagree i1) by (done || by right).
      apply Hagree; [by right|done].
    + rewrite lookup_foldl_insert_ne.
      2:{ intros i' Hi' Hp'. apply Hnex, Exists_exists. eauto. }
      apply elem_of_cons in Hin as [->|Hin].
      * rewrite Hpos. by apply list_lookup_insert_eq.
      * exfalso. apply Hnex, Exists_exists. eauto.
Qed.

Lemma for_each_fmap {S I J} (body : S → J → result S) (f : I → J) (l : list I) (s : S) :
  for_each body (f <$> l) s = for_each (λ s i, body s (f i)) l s.
Proof.
  revert s. induction l as [|i l IH]; intros s; simpl; [done|].
  destruct (body s (f i)); simpl; [apply IH|done].
Qed.

Lemma for_each_ext {S I} (body body' : S → I → result S) (l : list I) (s : S) :
  (∀ s i, i ∈ l → body s i = body' s i) →
  for_each body l s = for_each body' l s.
Proof.
  revert s. induction l as [|i l IH]; intros s Hb; simpl; [done|].
  rewrite Hb by by left. destruct (body' s i); simpl; [|done].
  apply IH. intros s' i' ?. apply Hb. by right.
Qed.

(** A loop nest is one loop over the list of its iterations. *)
Lemma for_each_nested {S I J} (g : I → S → J → result S) (h : I → list J)
    (l : list I) (s : S) :
  for_each (λ s i, for_each (g i) (h i) s) l s =
  for_each (λ s p, g p.1 s p.2) (i ← l; pair i <$> h i) s.
Proof.
  revert s. induction l as [|i l IH]; intros s; simpl; [done|].
  rewrite for_each_app, for_each_fmap. simpl.
  destruct (for_each (g i) (h i) s); simpl; [apply IH|done].
Qed.

Lemma fmap_sub_seqZ_reverse (n : Z) :
  (λ idx, n - idx) <$> seqZ 1 n = reverse (seqZ 0 n).
Proof.
  apply list_eq. intros i.
  rewrite list_lookup_fmap.
  destruct (decide (Z.of_nat i < n)) as [Hi|Hi].
  - rewrite lookup_seqZ_lt by done. simpl.
    rewrite reverse_lookup by (rewrite length_seqZ; lia).
    rewrite length_seqZ, lookup_seqZ_lt by lia. f_equal. lia.
  - rewrite lookup_seqZ_ge by lia. simpl. symmetry.
    apply lookup_ge_None. rewrite length_reverse, length_seqZ. lia.
Qed.
End py_facts.

(** ** s2fft/healpix_ffts.py: spectral folding *)

Section folding_facts.
Context {C : Type} {SC : Scalar C}.
Implicit Types (fm buf : list C) (nphi L : Z).

Lemma length_fold_step fm nphi L buf k :
  length (fold_step fm nphi L buf k) = length buf.
Proof. unfold fold_step. by rewrite length_alter. Qed.

Lemma length_foldl_fold_step fm nphi L ks buf :
  length (foldl (fold_step fm nphi L) buf ks) = length buf.
Proof.
  revert buf. induction ks as [|k ks IH]; intros buf; simpl; [done|].
  by rewrite IH, length_fold_step.
Qed.

(** A run of accumulations, read entry by entry: entry [i] receives, in
    order, the values of the positions that fold onto it. *)
Lemma lookup_foldl_fold_step fm nphi L ks buf (i : nat) :
  foldl (fold_step fm nphi L) buf ks !! i =
  (λ x, foldl cadd x
     ((λ k, fm !!! Z.to_nat k) <$>
        filter (λ k, Z.to_nat (L - nphi `div` 2 + (k - (L - nphi `div` 2)) `mod` nphi) = i) ks))
  <$> buf !! i.
Proof.
  revert buf. induction ks as [|k ks IH]; intros buf; simpl.
  - by destruct (buf !! i).
  - rewrite IH. unfold fold_step.
    rewrite filter_cons. case_decide as Hk.
    + rewrite Hk, list_lookup_alter_eq. by destruct (buf !! i).
    + by rewrite list_lookup_alter_ne.
Qed.

(** The loops of [spectral_folding] read outside the window and write
    inside it, so each one is a run of [fold_step]s.  [jf idx] is the index
    expression reduced modulo [nphi], [sf idx] the position read. *)
Lemma folding_loop fm nphi L (jf sf : Z → Z) (idxs : list Z) buf :
  let slice_start := L - nphi `div` 2 in
  1 ≤ nphi → 0 ≤ slice_start →
  slice_start + nphi ≤ Z.of_nat (length fm) →
  length buf = length fm →
  (∀ k : Z, 0 ≤ k → ¬ (slice_start ≤ k < slice_start + nphi) →
     buf !! Z.to_nat k = fm !! Z.to_nat k) →
  (∀ idx, idx ∈ idxs →
     0 ≤ sf idx < Z.of_nat (length fm) ∧
     ¬ (slice_start ≤ sf idx < slice_start + nphi) ∧
     jf idx `mod` nphi = (sf idx - slice_start) `mod` nphi) →
  for_each (λ buf idx,
      j ← py_mod (jf idx) nphi;
      v ← getitem buf (sf idx);
      view_iadd (View (Z.to_nat slice_start) (Z.to_nat nphi)) j v buf)
    idxs buf
  = Ok (foldl (fold_step fm nphi L) buf (sf <$> idxs)).
Proof.
  intros slice_start Hnphi Hstart Hstop.
  revert buf. induction idxs as [|idx idxs IH]; intros buf Hlen Hout Hidx; simpl.
  - done.
  - destruct (Hidx idx) as (Hsf & Hnotin & Hj); [by left|].
    rewrite py_mod_nonzero by lia. simpl.
    pose proof (Z.mod_pos_bound (jf idx) nphi ltac:(lia)) as Hjb.
    destruct (lookup_lt_is_Some_2 fm (Z.to_nat (sf idx)) ltac:(lia)) as [v Hv].
    assert (buf !! Z.to_nat (sf idx) = Some v) as Hbv by (by rewrite Hout by lia).
    rewrite (getitem_nonneg buf (sf idx) v) by (done || lia).
    simpl. unfold view_iadd. simpl.
    rewrite norm_index_nonneg by lia. simpl.
    replace (alter _ _ buf) with (fold_step fm nphi L buf (sf idx)).
    2:{ unfold fold_step. fold slice_start.
        rewrite (list_lookup_total_correct _ _ _ Hv), <- Hj. f_equal. lia. }
    apply IH.
    + by rewrite length_fold_step.
    + intros k Hk Hkout. unfold fold_step. fold slice_start.
      rewrite list_lookup_alter_ne; [by apply Hout|].
      pose proof (Z.mod_pos_bound (sf idx - slice_start) nphi ltac:(lia)). lia.
    + intros idx' Hin. apply Hidx. by right.
Qed.

Lemma lookup_foldl_fold_step_outside fm nphi L ks buf (k : Z) :
  let slice_start := L - nphi `div` 2 in
  1 ≤ nphi → 0 ≤ slice_start → 0 ≤ k →
  ¬ (slice_start ≤ k < slice_start + nphi) →
  foldl (fold_step fm nphi L) buf ks !! Z.to_nat k = buf !! Z.to_nat k.
Proof.
  intros slice_start Hnphi Hstart Hk Hout.
  revert buf. induction ks as [|k' ks IH]; intros buf; simpl; [done|].
  rewrite IH. unfold fold_step. fold slice_start.
  apply list_lookup_alter_ne.
  pose proof (Z.mod_pos_bound (k' - slice_start) nphi ltac:(lia)). lia.
Qed.

Lemma slice_start_nonneg nphi L : nphi ≤ 2 * L → 0 ≤ L - nphi `div` 2.
Proof. intros. pose proof (Z.div_le_upper_bound nphi 2 L). lia. Qed.

(** [spectral_folding] on a buffer that contains the whole window: it
    returns, and the final buffer is the initial one after one
    accumulation per position outside the window. *)
Lemma spectral_folding_spec fm nphi L :
  let slice_start := L - nphi `div` 2 in
  1 ≤ nphi ≤ 2 * L →
  slice_start + nphi ≤ Z.of_nat (length fm) →
  spectral_folding fm nphi L =
    Ok (foldl (fold_step fm nphi L) fm (outside_bins nphi L (length fm)),
        View (Z.to_nat slice_start) (Z.to_nat nphi)).
Proof.
  intros slice_start Hnphi Hstop.
  pose proof (slice_start_nonneg nphi L ltac:(lia)) as Hstart.
  fold slice_start in Hstart.
  unfold spectral_folding. fold slice_start.
  destruct (Z.leb_spec nphi (2 * L)); [|lia]. simpl.
  rewrite mk_view_in by lia.
  replace (slice_start + nphi - slice_start) with nphi by lia.
  rewrite (folding_loop fm nphi L Z.opp (λ idx, slice_start - idx));
    try (done || lia).
  2:{ intros idx [? ?]%elem_of_seqZ. fold slice_start.
      split; [lia|split; [lia|]]. f_equal. lia. }
  simpl. rewrite length_foldl_fold_step.
  rewrite (folding_loop fm nphi L id (λ idx, slice_start + nphi + idx));
    try (done || lia).
  - simpl. rewrite <- foldl_app. unfold outside_bins. fold slice_start.
    rewrite fmap_sub_seqZ_reverse, fmap_add_seqZ.
    by replace (slice_start + nphi + 0) with (slice_start + nphi) by lia.
  - by rewrite length_foldl_fold_step.
  - intros k Hk Hout. apply lookup_foldl_fold_step_outside; fold slice_start; lia.
  - intros idx [? ?]%elem_of_seqZ. fold slice_start.
    split; [lia|split; [lia|]].
    unfold id. replace (slice_start + nphi + idx - slice_start) with (idx + 1 * nphi) by lia.
    by rewrite Z.mod_add by lia.
Qed.

(** [spectral_periodic_extension] returns the periodic continuation. *)
Lemma spectral_periodic_extension_spec fm nphi L :
  1 ≤ nphi ≤ 2 * L → length fm = Z.to_nat nphi →
  spectral_periodic_extension fm nphi L = Ok (periodic_buffer fm nphi L).
Proof.
  intros Hnphi Hlen.
  pose proof (slice_start_nonneg nphi L ltac:(lia)) as Hstart.
  assert (L - nphi `div` 2 + nphi ≤ 2 * L) as Hstop.
  { pose proof (Z.div_mod nphi 2 ltac:(lia)).
    pose proof (Z.mod_pos_bound nphi 2 ltac:(lia)). lia. }
  unfold spectral_periodic_extension, periodic_buffer.
  set (slice_start := L - nphi `div` 2) in *.
  destruct (Z.leb_spec nphi (2 * L)); [|lia]. simpl.
  unfold np_full. destruct (Z.ltb_spec (2 * L) 0); [lia|]. simpl.
  unfold slice_assign. rewrite length_replicate, mk_view_in by lia. simpl.
  rewrite decide_True by lia. simpl.
  set (E1 := take _ _ ++ fm ++ drop _ _).
  assert (length E1 = Z.to_nat (2 * L)) as HlenE1.
  { unfold E1. rewrite !length_app, length_take, length_drop, length_replicate. lia. }
  set (low := λ (buf : list C) (idx : Z),
         <[Z.to_nat (slice_start - idx) := fm !!! Z.to_nat ((- idx) `mod` nphi)]> buf).
  set (high := λ (buf : list C) (idx : Z),
         <[Z.to_nat (slice_start + nphi + idx) := fm !!! Z.to_nat (idx `mod` nphi)]> buf).
  assert (∀ j, fm !! Z.to_nat (j `mod` nphi) = Some (fm !!! Z.to_nat (j `mod` nphi)))
    as Hfm.
  { intros j. apply list_lookup_lookup_total_lt.
    pose proof (Z.mod_pos_bound j nphi ltac:(lia)). lia. }
  edestruct (for_each_foldl
    (λ fm_full idx, j ← py_mod (- idx) nphi; v ← getitem fm j;
                    setitem fm_full (slice_start - idx) v)
    low (λ buf, length buf = Z.to_nat (2 * L)) (seqZ 1 slice_start) E1)
    as [-> Hlen1]; [done| |].
  { intros buf idx [? ?]%elem_of_seqZ Hb. split; [|unfold low; by rewrite length_insert].
    rewrite py_mod_nonzero by lia. simpl.
    pose proof (Z.mod_pos_bound (- idx) nphi ltac:(lia)).
    rewrite (getitem_nonneg fm ((- idx) `mod` nphi) _ ltac:(lia) (Hfm (- idx))). simpl.
    by rewrite setitem_nonneg by lia. }
  simpl. rewrite Hlen1.
  edestruct (for_each_foldl
    (λ fm_full idx, j ← py_mod idx nphi; v ← getitem fm j;
                    setitem fm_full (slice_start + nphi + idx) v)
    high (λ buf, length buf = Z.to_nat (2 * L))
    (seqZ 0 (Z.of_nat (Z.to_nat (2 * L)) - (slice_start + nphi)))
    (foldl low E1 (seqZ 1 slice_start)))
    as [-> Hlen2]; [done| |].
  { intros buf idx [? ?]%elem_of_seqZ Hb. split; [|unfold high; by rewrite length_insert].
    rewrite py_mod_nonzero by lia. simpl.
    pose proof (Z.mod_pos_bound idx nphi ltac:(lia)).
    rewrite (getitem_nonneg fm (idx `mod` nphi) _ ltac:(lia) (Hfm idx)). simpl.
    by rewrite setitem_nonneg by lia. }
  f_equal. apply list_eq. intros i.
  rewrite list_lookup_fmap.
  destruct (decide (Z.of_nat i < 2 * L)) as [Hi|Hi].
  2:{ rewrite lookup_seqZ_ge by lia. simpl.
      apply lookup_ge_None. rewrite Hlen2. lia. }
  rewrite lookup_seqZ_lt by lia. simpl.
  destruct (decide (Z.of_nat i < slice_start)) as [Hlo|Hlo];
    [|destruct (decide (Z.of_nat i < slice_start + nphi)) as [Hmid|Hhi]].
  - (* below the window: written by the first loop *)
    unfold high. rewrite lookup_foldl_insert_ne.
    2:{ intros idx [? ?]%elem_of_seqZ. lia. }
    unfold low.
    rewrite (lookup_foldl_insert_eq _ _ _ _ i (slice_start - Z.of_nat i)).
    + by replace (- (slice_start - Z.of_nat i)) with (0 + Z.of_nat i - slice_start) by lia.
    + apply elem_of_seqZ. lia.
    + lia.
    + lia.
    + intros idx [? ?]%elem_of_seqZ Hpos.
      by replace idx with (slice_start - Z.of_nat i) by lia.
  - (* inside the window: the copy of fm *)
    unfold high. rewrite lookup_foldl_insert_ne.
    2:{ intros idx [? ?]%elem_of_seqZ. lia. }
    unfold low. rewrite lookup_foldl_insert_ne.
    2:{ intros idx [? ?]%elem_of_seqZ. lia. }
    unfold E1. rewrite lookup_app_r by (rewrite length_take, length_replicate; lia).
    rewrite length_take, length_replicate.
    rewrite lookup_app_l by lia.
    rewrite Z.mod_small by lia.
    replace (i - Z.to_nat slice_start `min` Z.to_nat (2 * L))%nat
      with (Z.to_nat (0 + Z.of_nat i - slice_start)) by lia.
    apply list_lookup_lookup_total_lt. lia.
  - (* above the window: written by the second loop *)
    unfold high.
    rewrite (lookup_foldl_insert_eq _ _ _ _ i (Z.of_nat i - (slice_start + nphi))).
    + do 2 f_equal.
      replace (0 + Z.of_nat i - slice_start)
        with (Z.of_nat i - (slice_start + nphi) + 1 * nphi) by lia.
      by rewrite Z.mod_add by lia.
    + apply elem_of_seqZ. lia.
    + lia.
    + rewrite Hlen1. lia.
    + intros idx [? ?]%elem_of_seqZ Hpos.
      by replace idx with (Z.of_nat i - (slice_start + nphi)) by lia.
Qed.

Lemma elem_of_outside_bins nphi L (len : nat) k :
  let slice_start := L - nphi `div` 2 in
  k ∈ outside_bins nphi L len ↔
  0 ≤ k < slice_start ∨ slice_start + nphi ≤ k < Z.of_nat len.
Proof.
  intros slice_start. unfold outside_bins. fold slice_start.
  rewrite elem_of_app, elem_of_reverse, !elem_of_seqZ. lia.
Qed.

Lemma length_outside_bins nphi L (len : nat) :
  let slice_start := L - nphi `div` 2 in
  0 ≤ slice_start → slice_start + nphi ≤ Z.of_nat len →
  Z.of_nat (length (outside_bins nphi L len)) = Z.of_nat len - nphi.
Proof.
  intros slice_start ??. unfold outside_bins. fold slice_start.
  rewrite length_app, length_reverse, !length_seqZ. lia.
Qed.

Lemma lookup_periodic_buffer fm nphi L k :
  0 ≤ k < 2 * L →
  periodic_buffer fm nphi L !! Z.to_nat k =
    Some (fm !!! Z.to_nat ((k - (L - nphi `div` 2)) `mod` nphi)).
Proof.
  intros Hk. unfold periodic_buffer.
  rewrite list_lookup_fmap, lookup_seqZ_lt by lia. simpl.
  by replace (0 + Z.of_nat (Z.to_nat k)) with k by lia.
Qed.

Lemma length_periodic_buffer fm nphi L :
  length (periodic_buffer fm nphi L) = Z.to_nat (2 * L).
Proof. unfold periodic_buffer. by rewrite length_fmap, length_seqZ. Qed.

Lemma fmap_const_replicate {A B} (f : A → B) (y : B) (l : list A) :
  (∀ x, x ∈ l → f x = y) → f <$> l = replicate (length l) y.
Proof.
  induction l as [|x l IH]; intros Hf; simpl; [done|].
  rewrite (Hf x) by by left. f_equal. apply IH. intros x' ?. apply Hf. by right.
Qed.

(** The buffer after folding, read inside the window. *)
Lemma lookup_folded_window fm nphi L (j : Z) :
  let slice_start := L - nphi `div` 2 in
  1 ≤ nphi → 0 ≤ slice_start → 0 ≤ j < nphi →
  foldl (fold_step fm nphi L) fm (outside_bins nphi L (length fm))
    !! Z.to_nat (slice_start + j) =
  (λ x, foldl cadd x ((λ k, fm !!! Z.to_nat k) <$> aliases nphi L (length fm) j))
    <$> fm !! Z.to_nat (slice_start + j).
Proof.
  intros slice_start Hnphi Hstart Hj.
  rewrite lookup_foldl_fold_step. fold slice_start.
  unfold aliases. fold slice_start.
  erewrite list_filter_iff; [done|].
  intros k. simpl.
  pose proof (Z.mod_pos_bound (k - slice_start) nphi ltac:(lia)). lia.
Qed.
End folding_facts.

(** ** Folding after periodic extension *)

Section fold_extension.
Context {C : Type} {SC : Scalar C}.
Implicit Types (fm : list C) (nphi L : Z).

(** C2 (amended): for [1 <= nphi <= 2L] and [fm] of length [nphi], folding
    the periodic extension of [fm] returns, at every index [j], the entry
    [fm[j]] added to itself once for each bin of the [2L] buffer outside the
    window that is congruent to [j] modulo [nphi]. *)
Theorem fold_of_extension_multiplicity fm nphi L :
  1 ≤ nphi ≤ 2 * L → length fm = Z.to_nat nphi →
  fold_of_extension fm nphi L =
    Ok (imap (λ j x, add_copies (alias_count nphi L (Z.of_nat j)) x) fm).
Proof.
  intros Hnphi Hlen.
  pose proof (slice_start_nonneg nphi L ltac:(lia)) as Hstart.
  assert (L - nphi `div` 2 + nphi ≤ 2 * L) as Hstop.
  { pose proof (Z.div_mod nphi 2 ltac:(lia)).
    pose proof (Z.mod_pos_bound nphi 2 ltac:(lia)). lia. }
  unfold fold_of_extension.
  rewrite spectral_periodic_extension_spec by done. simpl.
  rewrite spectral_folding_spec by (rewrite ?length_periodic_buffer; lia). simpl.
  f_equal. unfold view_contents. simpl.
  set (slice_start := L - nphi `div` 2) in *.
  apply list_eq. intros i. rewrite list_lookup_imap.
  destruct (decide (i < Z.to_nat nphi)%nat) as [Hi|Hi].
  - rewrite lookup_take_lt, lookup_drop by done.
    replace (Z.to_nat slice_start + i)%nat
      with (Z.to_nat (slice_start + Z.of_nat i)) by lia.
    unfold slice_start at 1.
    rewrite lookup_folded_window by (fold slice_start; lia).
    rewrite lookup_periodic_buffer by (fold slice_start; lia). fold slice_start.
    replace (slice_start + Z.of_nat i - slice_start) with (Z.of_nat i) by lia.
    rewrite Z.mod_small, Nat2Z.id by lia.
    rewrite (list_lookup_lookup_total_lt fm i) by lia. simpl.
    f_equal. unfold add_copies, alias_count.
    rewrite length_periodic_buffer. f_equal.
    apply fmap_const_replicate. intros k Hk.
    apply list_elem_of_filter in Hk as [Hmod Hk].
    apply elem_of_outside_bins in Hk. fold slice_start in Hk, Hmod.
    rewrite (list_lookup_total_correct _ _ _
               (lookup_periodic_buffer fm nphi L k ltac:(lia))).
    fold slice_start. by rewrite Hmod, Nat2Z.id.
  - rewrite lookup_take_ge by lia.
    by rewrite (lookup_ge_None_2 fm i) by lia.
Qed.

(** When the ring has the full length [2L] nothing lies outside the window
    and folding undoes the extension. *)
Lemma fold_of_extension_full fm L :
  1 ≤ L → length fm = Z.to_nat (2 * L) →
  fold_of_extension fm (2 * L) L = Ok fm.
Proof.
  intros HL Hlen. rewrite fold_of_extension_multiplicity by lia.
  f_equal. apply list_eq. intros i. rewrite list_lookup_imap.
  destruct (fm !! i) as [x|]; simpl; [|done].
  unfold alias_count, aliases, outside_bins.
  replace (2 * L) with (L * 2) by lia. rewrite Z.div_mul by lia.
  replace (L - L) with 0 by lia.
  rewrite seqZ_nil by lia. rewrite seqZ_nil by lia. done.
Qed.
End fold_extension.

(** C2 (as stated) fails: with [L = 2], [nphi = 3] the last entry is
    doubled. *)
Lemma fold_of_extension_not_identity :
  fold_of_extension [GaussZ.re 1; GaussZ.re 2; GaussZ.re 3] 3 2
    = Ok [GaussZ.re 1; GaussZ.re 2; GaussZ.re 6] ∧
  fold_of_extension [GaussZ.re 1; GaussZ.re 2; GaussZ.re 3] 3 2
    ≠ Ok [GaussZ.re 1; GaussZ.re 2; GaussZ.re 3].
Proof. split; [by vm_compute|]. by vm_compute. Qed.

Lemma fold_of_extension_multiplicity_witness :
  fold_of_extension [GaussZ.re 1; GaussZ.im 2; GaussZ.re 3] 3 2 =
    Ok (imap (λ j x, add_copies (alias_count 3 2 (Z.of_nat j)) x)
          [GaussZ.re 1; GaussZ.im 2; GaussZ.re 3]).
Proof. apply fold_of_extension_multiplicity; [lia|reflexivity]. Defined.

(** ** Arrays as stores *)

Section store_fold.
Context {S K V I : Type} `{EqDecision K}.
Context (get : S → K → option V) (set : K → V → S → S).
Hypothesis get_set_ne : ∀ s k k' v, k ≠ k' → get (set k v s) k' = get s k'.
Hypothesis get_set_eq : ∀ s k v, is_Some (get s k) → get (set k v s) k = Some v.

Lemma get_foldl_set_ne (pos : I → K) (val : I → V) idxs s k :
  (∀ i, i ∈ idxs → pos i ≠ k) →
  get (foldl (λ s i, set (pos i) (val i) s) s idxs) k = get s k.
Proof.
  revert s. induction idxs as [|i idxs IH]; intros s Hne; simpl; [done|].
  rewrite IH by (intros i' Hi'; apply Hne; by right).
  apply get_set_ne, Hne. by left.
Qed.

Lemma get_foldl_set_eq (pos : I → K) (val : I → V) idxs s k i :
  i ∈ idxs → pos i = k → is_Some (get s k) →
  (∀ i', i' ∈ idxs → pos i' = k → val i' = val i) →
  get (foldl (λ s i, set (pos i) (val i) s) s idxs) k = Some (val i).
Proof.
  revert s i. induction idxs as [|i0 idxs IH]; intros s i Hin Hpos Hk Hagree; simpl.
  - by apply elem_of_nil in Hin.
  - destruct (decide (Exists (λ i', pos i' = k) idxs)) as [Hex|Hnex].
    + apply Exists_exists in Hex as (i1 & Hi1 & Hpos1).
      rewrite <- (Hagree i1) by (done || by right).
      apply IH; [done|done| |].
      * destruct (decide (pos i0 = k)) as [<-|Hne].
        -- by rewrite get_set_eq.
        -- by rewrite get_set_ne.
      * intros i' Hi' Hp'. rewrite (Hagree i1) by (done || by right).
        apply Hagree; [by right|done].
    + rewrite get_foldl_set_ne.
      2:{ intros i' Hi' Hp'. apply Hnex, Exists_exists. eauto. }
      apply elem_of_cons in Hin as [->|Hin].
      * rewrite Hpos. by apply get_set_eq.
      * exfalso. apply Hnex, Exists_exists. eauto.
Qed.
End store_fold.

Section array3_facts.
Context {A : Type}.
Implicit Types (a : list (list (list A))).

Lemma lookup3_insert3_ne a i j k i' j' k' v :
  (i, j, k) ≠ (i', j', k') →
  lookup3 (insert3 i j k v a) i' j' k' = lookup3 a i' j' k'.
Proof.
  intros Hne. unfold lookup3, insert3.
  destruct (decide (i = i')) as [<-|Hi]; [|by rewrite list_lookup_alter_ne].
  rewrite list_lookup_alter_eq. destruct (a !! i) as [x|]; simpl; [|done].
  destruct (decide (j = j')) as [<-|Hj]; [|by rewrite list_lookup_alter_ne].
  rewrite list_lookup_alter_eq. destruct (x !! j) as [y|]; simpl; [|done].
  apply list_lookup_insert_ne. congruence.
Qed.

Lemma lookup3_insert3_eq a i j k v :
  is_Some (lookup3 a i j k) → lookup3 (insert3 i j k v a) i j k = Some v.
Proof.
  unfold lookup3, insert3. intros [w Hw].
  rewrite list_lookup_alter_eq. destruct (a !! i) as [x|]; simpl in *; [|done].
  rewrite list_lookup_alter_eq. destruct (x !! j) as [y|]; simpl in *; [|done].
  apply list_lookup_insert_eq. by eapply lookup_lt_Some.
Qed.

Lemma has_shape3_lookup3 a d0 d1 d2 i j k :
  has_shape3 a d0 d1 d2 →
  (i < d0)%nat → (j < d1)%nat → (k < d2)%nat → is_Some (lookup3 a i j k).
Proof.
  intros [Hlen Hrows] Hi Hj Hk. unfold lookup3.
  destruct (lookup_lt_is_Some_2 a i ltac:(lia)) as [x Hx]. rewrite Hx. simpl.
  destruct (proj1 (Forall_lookup _ _) Hrows i x Hx) as [Hlx Hcols].
  destruct (lookup_lt_is_Some_2 x j ltac:(lia)) as [y Hy]. rewrite Hy. simpl.
  pose proof (proj1 (Forall_lookup _ _) Hcols j y Hy) as Hly. simpl in Hly.
  apply lookup_lt_is_Some_2. lia.
Qed.

Lemma lookup3_Some_shape a d0 d1 d2 i j k v :
  has_shape3 a d0 d1 d2 → lookup3 a i j k = Some v →
  (i < d0)%nat ∧ (j < d1)%nat ∧ (k < d2)%nat.
Proof.
  intros [Hlen Hrows]. unfold lookup3. intros Hv.
  destruct (a !! i) as [x|] eqn:Hx; simpl in Hv; [|done].
  destruct (x !! j) as [y|] eqn:Hy; simpl in Hv; [|done].
  destruct (proj1 (Forall_lookup _ _) Hrows i x Hx) as [Hlx Hcols].
  pose proof (proj1 (Forall_lookup _ _) Hcols j y Hy) as Hly. simpl in Hly.
  apply lookup_lt_Some in Hx, Hy, Hv. lia.
Qed.

Lemma has_shape3_insert3 a d0 d1 d2 i j k v :
  has_shape3 a d0 d1 d2 → has_shape3 (insert3 i j k v a) d0 d1 d2.
Proof.
  intros [Hlen Hrows]. unfold insert3. split; [by rewrite length_alter|].
  apply Forall_alter; [done|]. intros x Hx [Hlx Hcols].
  split; [by rewrite length_alter|].
  apply Forall_alter; [done|]. intros y Hy Hly.
  by rewrite length_insert.
Qed.

Lemma has_shape3_replicate d0 d1 d2 (x : A) :
  has_shape3 (replicate d0 (replicate d1 (replicate d2 x))) d0 d1 d2.
Proof.
  split; [by rewrite length_replicate|].
  apply Forall_replicate. split; [by rewrite length_replicate|].
  apply Forall_replicate. by rewrite length_replicate.
Qed.

Lemma lookup3_replicate d0 d1 d2 (x : A) i j k :
  (i < d0)%nat → (j < d1)%nat → (k < d2)%nat →
  lookup3 (replicate d0 (replicate d1 (replicate d2 x))) i j k = Some x.
Proof.
  intros. unfold lookup3.
  rewrite lookup_replicate_2 by done. simpl.
  rewrite lookup_replicate_2 by done. simpl.
  by rewrite lookup_replicate_2.
Qed.

(** Two arrays of one shape with the same entries are equal. *)
Lemma array3_eq a b d0 d1 d2 :
  has_shape3 a d0 d1 d2 → has_shape3 b d0 d1 d2 →
  (∀ i j k, (i < d0)%nat → (j < d1)%nat → (k < d2)%nat →
     lookup3 a i j k = lookup3 b i j k) →
  a = b.
Proof.
  intros [Hla Hra] [Hlb Hrb] Heq.
  apply list_eq_same_length with d0; [done|done|].
  intros i x x' Hi Hx Hx'.
  destruct (proj1 (Forall_lookup _ _) Hra i x Hx) as [Hlx Hcx].
  destruct (proj1 (Forall_lookup _ _) Hrb i x' Hx') as [Hlx' Hcx'].
  apply list_eq_same_length with d1; [done|done|].
  intros j y y' Hj Hy Hy'.
  pose proof (proj1 (Forall_lookup _ _) Hcx j y Hy) as Hly.
  pose proof (proj1 (Forall_lookup _ _) Hcx' j y' Hy') as Hly'.
  apply list_eq_same_length with d2; [done|done|].
  intros k v v' Hk Hv Hv'.
  specialize (Heq i j k Hi Hj Hk). unfold lookup3 in Heq.
  rewrite Hx, Hx' in Heq. simpl in Heq. rewrite Hy, Hy' in Heq. simpl in Heq.
  congruence.
Qed.

Lemma getitem3_nonneg a (i j k : Z) v :
  0 ≤ i → 0 ≤ j → 0 ≤ k →
  lookup3 a (Z.to_nat i) (Z.to_nat j) (Z.to_nat k) = Some v →
  getitem3 a i j k = Ok v.
Proof.
  intros Hi Hj Hk. unfold lookup3, getitem3. intros Hv.
  destruct (a !! Z.to_nat i) as [x|] eqn:Hx; simpl in Hv; [|done].
  destruct (x !! Z.to_nat j) as [y|] eqn:Hy; simpl in Hv; [|done].
  rewrite (getitem_nonneg a i x) by done. simpl.
  rewrite (getitem_nonneg x j y) by done. simpl.
  by apply getitem_nonneg.
Qed.

Lemma setitem3_nonneg a (i j k : Z) v :
  0 ≤ i → 0 ≤ j → 0 ≤ k →
  is_Some (lookup3 a (Z.to_nat i) (Z.to_nat j) (Z.to_nat k)) →
  setitem3 a i j k v = Ok (insert3 (Z.to_nat i) (Z.to_nat j) (Z.to_nat k) v a).
Proof.
  intros Hi Hj Hk. unfold lookup3, setitem3, insert3. intros [w Hw].
  destruct (a !! Z.to_nat i) as [x|] eqn:Hx; simpl in Hw; [|done].
  destruct (x !! Z.to_nat j) as [y|] eqn:Hy; simpl in Hw; [|done].
  rewrite (getitem_nonneg a i x) by done. simpl.
  rewrite (getitem_nonneg x j y) by done. simpl.
  apply lookup_lt_Some in Hw. pose proof (lookup_lt_Some _ _ _ Hx).
  pose proof (lookup_lt_Some _ _ _ Hy).
  rewrite setitem_nonneg by lia. simpl.
  rewrite setitem_nonneg by lia. simpl.
  rewrite setitem_nonneg by lia. f_equal.
  apply list_eq. intros i'.
  destruct (decide (Z.to_nat i = i')) as [<-|Hne].
  - rewrite list_lookup_insert_eq, list_lookup_alter_eq, Hx by lia. simpl.
    f_equal. apply list_eq. intros j'.
    destruct (decide (Z.to_nat j = j')) as [<-|Hne].
    + by rewrite list_lookup_insert_eq, list_lookup_alter_eq, Hy by lia.
    + by rewrite list_lookup_insert_ne, list_lookup_alter_ne.
  - by rewrite list_lookup_insert_ne, list_lookup_alter_ne.
Qed.
End array3_facts.

(** ** s2fft/wigner/samples.py: coefficient packing *)

Lemma elem_of_flmn_iter L N n el m :
  (n, (el, m)) ∈ flmn_iter L N ↔
  - N + 1 ≤ n < N ∧ 0 ≤ el < L ∧ - el ≤ m ≤ el.
Proof.
  unfold flmn_iter, py_range. rewrite list_elem_of_bind. split.
  - intros (n' & Hin & Hn'). apply elem_of_seqZ in Hn'.
    apply list_elem_of_fmap in Hin as (p & [= <- <-] & Hp).
    apply list_elem_of_bind in Hp as (el' & Hin & Hel').
    apply elem_of_seqZ in Hel'.
    apply list_elem_of_fmap in Hin as (m' & [= <- <-] & Hm').
    apply elem_of_seqZ in Hm'. lia.
  - intros (Hn & Hel & Hm). exists n. split; [|apply elem_of_seqZ; lia].
    apply list_elem_of_fmap. exists (el, m). split; [done|].
    apply list_elem_of_bind. exists el. split; [|apply elem_of_seqZ; lia].
    apply list_elem_of_fmap. exists m. split; [done|]. apply elem_of_seqZ. lia.
Qed.

Lemma elmn2ind_bounds el m n L N :
  - N + 1 ≤ n < N → 0 ≤ el < L → - el ≤ m ≤ el →
  0 ≤ elmn2ind el m n L N < flmn_shape_1d L N.
Proof.
  intros Hn Hel Hm. unfold elmn2ind, flmn_shape_1d.
  assert (0 ≤ el * el + el + m < L * L) by nia.
  assert (0 ≤ (N - 1 + n) * L * L) by nia.
  assert ((N - 1 + n) * L * L ≤ (2 * N - 2) * L * L) by nia.
  nia.
Qed.

Lemma offset_inj el m el' m' :
  0 ≤ el → - el ≤ m ≤ el → 0 ≤ el' → - el' ≤ m' ≤ el' →
  el * el + el + m = el' * el' + el' + m' → el = el' ∧ m = m'.
Proof.
  intros. assert (el = el') by nia. subst. lia.
Qed.

Lemma elmn2ind_inj el m n el' m' n' L N :
  0 ≤ el < L → - el ≤ m ≤ el → 0 ≤ el' < L → - el' ≤ m' ≤ el' →
  elmn2ind el m n L N = elmn2ind el' m' n' L N →
  n = n' ∧ el = el' ∧ m = m'.
Proof.
  unfold elmn2ind. intros Hel Hm Hel' Hm' Heq.
  assert (0 ≤ el * el + el + m < L * L) by nia.
  assert (0 ≤ el' * el' + el' + m' < L * L) by nia.
  assert (n = n') by nia. subst n'.
  destruct (offset_inj el m el' m') as [-> ->]; [lia..|done].
Qed.

Lemma elmn2ind_decode L N idx :
  0 ≤ idx < flmn_shape_1d L N → 0 < L →
  let n := idx `div` (L * L) - (N - 1) in
  let a := idx `mod` (L * L) in
  let el := Z.sqrt a in
  let m := a - el * el - el in
  (- N + 1 ≤ n < N ∧ 0 ≤ el < L ∧ - el ≤ m ≤ el) ∧ elmn2ind el m n L N = idx.
Proof.
  intros Hidx HL n a el m. unfold flmn_shape_1d in Hidx.
  assert (0 < L * L) by nia.
  pose proof (Z.div_mod idx (L * L) ltac:(lia)) as Hdm.
  pose proof (Z.mod_pos_bound idx (L * L) ltac:(lia)) as Hmb.
  fold a in Hmb, Hdm.
  pose proof (Z.sqrt_spec a ltac:(lia)) as Hs. fold el in Hs.
  pose proof (Z.sqrt_nonneg a). fold el in H0.
  assert (0 ≤ idx `div` (L * L) < 2 * N - 1).
  { split; [apply Z.div_pos; lia|]. apply Z.div_lt_upper_bound; lia. }
  unfold Z.succ in Hs.
  split; [split_and!; try lia; nia|].
  unfold elmn2ind, n, m. nia.
Qed.

Section packing_facts.
Context {C : Type} {SC : Scalar C}.
Implicit Types (a x : list (list (list C))) (y : list C) (L N : Z).

Lemma flmn_3d_to_1d_loop a L N :
  flmn_3d_to_1d (Arr3 a) L N =
  (flmn_1d ← np_full (flmn_shape_1d L N) czero;
   for_each (λ flmn_1d p,
       v ← getitem3 a p.2.1 (L - 1 + p.2.2) (N - 1 + p.1);
       setitem flmn_1d (elmn2ind p.2.1 p.2.2 p.1 L N) v)
     (flmn_iter L N) flmn_1d).
Proof.
  unfold flmn_3d_to_1d, flmn_iter.
  destruct (np_full _ _) as [z|]; simpl; [|done].
  rewrite <- (for_each_nested
    (λ n flmn_1d p, v ← getitem3 a p.1 (L - 1 + p.2) (N - 1 + n);
                    setitem flmn_1d (elmn2ind p.1 p.2 n L N) v)
    (λ n, el ← py_range 0 L; pair el <$> py_range (- el) (el + 1))).
  apply for_each_ext. intros s n _.
  by rewrite <- (for_each_nested
    (λ el flmn_1d m, v ← getitem3 a el (L - 1 + m) (N - 1 + n);
                    setitem flmn_1d (elmn2ind el m n L N) v)
    (λ el, py_range (- el) (el + 1))).
Qed.

Lemma flmn_1d_to_3d_loop y L N :
  flmn_1d_to_3d (Arr1 y) L N =
  (flmn_3d ← np_full3 (flmn_shape L N) czero;
   for_each (λ flmn_3d p,
       v ← getitem y (elmn2ind p.2.1 p.2.2 p.1 L N);
       setitem3 flmn_3d p.2.1 (L - 1 + p.2.2) (N - 1 + p.1) v)
     (flmn_iter L N) flmn_3d).
Proof.
  unfold flmn_1d_to_3d, flmn_iter.
  destruct (np_full3 _ _) as [z|]; simpl; [|done].
  rewrite <- (for_each_nested
    (λ n flmn_3d p, v ← getitem y (elmn2ind p.1 p.2 n L N);
                    setitem3 flmn_3d p.1 (L - 1 + p.2) (N - 1 + n) v)
    (λ n, el ← py_range 0 L; pair el <$> py_range (- el) (el + 1))).
  apply for_each_ext. intros s n _.
  by rewrite <- (for_each_nested
    (λ el flmn_3d m, v ← getitem y (elmn2ind el m n L N);
                    setitem3 flmn_3d el (L - 1 + m) (N - 1 + n) v)
    (λ el, py_range (- el) (el + 1))).
Qed.

(** Packing: the flat array holds, at [elmn2ind(el, m, n)], the entry
    [(el, L-1+m, N-1+n)] of the cube. *)
Lemma flmn_3d_to_1d_spec a L N :
  1 ≤ L → 1 ≤ N →
  has_shape3 a (Z.to_nat L) (Z.to_nat (2 * L - 1)) (Z.to_nat (2 * N - 1)) →
  ∃ r, flmn_3d_to_1d (Arr3 a) L N = Ok r ∧
       length r = Z.to_nat (flmn_shape_1d L N) ∧
       ∀ n el m, - N + 1 ≤ n < N → 0 ≤ el < L → - el ≤ m ≤ el →
         r !! Z.to_nat (elmn2ind el m n L N) =
         lookup3 a (Z.to_nat el) (Z.to_nat (L - 1 + m)) (Z.to_nat (N - 1 + n)).
Proof.
  intros HL HN Hshape. rewrite flmn_3d_to_1d_loop.
  unfold np_full. assert (0 ≤ flmn_shape_1d L N) by (unfold flmn_shape_1d; nia).
  destruct (Z.ltb_spec (flmn_shape_1d L N) 0); [lia|]. simpl.
  set (val := λ p : Z * (Z * Z),
         default czero (lookup3 a (Z.to_nat p.2.1) (Z.to_nat (L - 1 + p.2.2))
                          (Z.to_nat (N - 1 + p.1)))).
  set (pos := λ p : Z * (Z * Z), Z.to_nat (elmn2ind p.2.1 p.2.2 p.1 L N)).
  assert (∀ n el m, - N + 1 ≤ n < N → 0 ≤ el < L → - el ≤ m ≤ el →
            lookup3 a (Z.to_nat el) (Z.to_nat (L - 1 + m)) (Z.to_nat (N - 1 + n))
            = Some (val (n, (el, m)))) as Hval.
  { intros n el m Hn Hel Hm. unfold val. simpl.
    destruct (has_shape3_lookup3 a _ _ _ (Z.to_nat el) (Z.to_nat (L - 1 + m))
                (Z.to_nat (N - 1 + n)) Hshape) as [v ->]; [lia..|done]. }
  edestruct (for_each_foldl
    (λ flmn_1d (p : Z * (Z * Z)),
       v ← getitem3 a p.2.1 (L - 1 + p.2.2) (N - 1 + p.1);
       setitem flmn_1d (elmn2ind p.2.1 p.2.2 p.1 L N) v)
    (λ s p, <[pos p := val p]> s)
    (λ s, length s = Z.to_nat (flmn_shape_1d L N))
    (flmn_iter L N) (replicate (Z.to_nat (flmn_shape_1d L N)) czero))
    as [Hrun Hlen]; [by rewrite length_replicate| |].
  { intros s [n [el m]] (Hn & Hel & Hm)%elem_of_flmn_iter Hs. simpl.
    split; [|by rewrite length_insert].
    rewrite (getitem3_nonneg a el (L - 1 + m) (N - 1 + n) _ ltac:(lia) ltac:(lia) ltac:(lia)
               (Hval n el m Hn Hel Hm)). simpl.
    pose proof (elmn2ind_bounds el m n L N Hn Hel Hm).
    by rewrite setitem_nonneg by lia. }
  eexists. split; [exact Hrun|]. split; [exact Hlen|].
  intros n el m Hn Hel Hm. rewrite Hval by done.
  pose proof (elmn2ind_bounds el m n L N Hn Hel Hm).
  apply (lookup_foldl_insert_eq pos val _ _ _ (n, (el, m))).
  - by apply elem_of_flmn_iter.
  - done.
  - rewrite length_replicate. lia.
  - intros [n' [el' m']] (Hn' & Hel' & Hm')%elem_of_flmn_iter Hpos.
    unfold pos in Hpos. simpl in Hpos.
    pose proof (elmn2ind_bounds el' m' n' L N Hn' Hel' Hm').
    destruct (elmn2ind_inj el' m' n' el m n L N) as (-> & -> & ->);
      [lia..|done].
Qed.

(** Unpacking: the cube holds the flat entries on the support [|m| <= el]
    and zeros elsewhere. *)
Lemma flmn_1d_to_3d_spec y L N :
  1 ≤ L → 1 ≤ N → length y = Z.to_nat (flmn_shape_1d L N) →
  ∃ x, flmn_1d_to_3d (Arr1 y) L N = Ok x ∧
       has_shape3 x (Z.to_nat L) (Z.to_nat (2 * L - 1)) (Z.to_nat (2 * N - 1)) ∧
       (∀ n el m, - N + 1 ≤ n < N → 0 ≤ el < L → - el ≤ m ≤ el →
         lookup3 x (Z.to_nat el) (Z.to_nat (L - 1 + m)) (Z.to_nat (N - 1 + n)) =
         y !! Z.to_nat (elmn2ind el m n L N)) ∧
       (∀ i j k : nat, Z.of_nat i < L → Z.of_nat j < 2 * L - 1 →
         Z.of_nat k < 2 * N - 1 →
         ¬ (- Z.of_nat i ≤ Z.of_nat j - (L - 1) ≤ Z.of_nat i) →
         lookup3 x i j k = Some czero).
Proof.
  intros HL HN Hy. rewrite flmn_1d_to_3d_loop.
  unfold np_full3, flmn_shape.
  destruct (Z.ltb_spec L 0); [lia|].
  destruct (Z.ltb_spec (2 * L - 1) 0); [lia|].
  destruct (Z.ltb_spec (2 * N - 1) 0); [lia|]. simpl.
  set (zeros := replicate _ _).
  set (val := λ p : Z * (Z * Z), y !!! Z.to_nat (elmn2ind p.2.1 p.2.2 p.1 L N)).
  set (pos := λ p : Z * (Z * Z),
         (Z.to_nat p.2.1, Z.to_nat (L - 1 + p.2.2), Z.to_nat (N - 1 + p.1))).
  set (get := λ (s : list (list (list C))) (k : nat * nat * nat),
         lookup3 s k.1.1 k.1.2 k.2).
  set (set_ := λ (k : nat * nat * nat) (v : C) (s : list (list (list C))),
         insert3 k.1.1 k.1.2 k.2 v s).
  assert (∀ n el m, - N + 1 ≤ n < N → 0 ≤ el < L → - el ≤ m ≤ el →
            y !! Z.to_nat (elmn2ind el m n L N) = Some (val (n, (el, m)))) as Hval.
  { intros n el m Hn Hel Hm. unfold val. simpl.
    pose proof (elmn2ind_bounds el m n L N Hn Hel Hm).
    apply list_lookup_lookup_total_lt. lia. }
  edestruct (for_each_foldl
    (λ flmn_3d (p : Z * (Z * Z)),
       v ← getitem y (elmn2ind p.2.1 p.2.2 p.1 L N);
       setitem3 flmn_3d p.2.1 (L - 1 + p.2.2) (N - 1 + p.1) v)
    (λ s p, set_ (pos p) (val p) s)
    (λ s, has_shape3 s (Z.to_nat L) (Z.to_nat (2 * L - 1)) (Z.to_nat (2 * N - 1)))
    (flmn_iter L N) zeros)
    as [Hrun Hshape]; [apply has_shape3_replicate| |].
  { intros s [n [el m]] (Hn & Hel & Hm)%elem_of_flmn_iter Hs. simpl.
    split; [|by apply has_shape3_insert3].
    pose proof (elmn2ind_bounds el m n L N Hn Hel Hm).
    rewrite (getitem_nonneg y (elmn2ind el m n L N) _ ltac:(lia) (Hval n el m Hn Hel Hm)). simpl.
    rewrite setitem3_nonneg; [done|lia..|].
    eapply has_shape3_lookup3; [done|lia..]. }
  assert (∀ s k k' v, k ≠ k' → get (set_ k v s) k' = get s k') as Hne.
  { intros s [[i j] k] [[i' j'] k'] v Hkk. unfold get, set_. simpl.
    apply lookup3_insert3_ne. congruence. }
  assert (∀ s k v, is_Some (get s k) → get (set_ k v s) k = Some v) as Heq.
  { intros s [[i j] k] v. unfold get, set_. simpl. apply lookup3_insert3_eq. }
  eexists. split; [exact Hrun|]. split; [exact Hshape|]. split.
  - intros n el m Hn Hel Hm. rewrite Hval by done.
    apply (get_foldl_set_eq get set_ Hne Heq pos val _ _
             (Z.to_nat el, Z.to_nat (L - 1 + m), Z.to_nat (N - 1 + n))
             (n, (el, m))).
    + by apply elem_of_flmn_iter.
    + done.
    + unfold get. simpl. eapply has_shape3_lookup3;
        [apply has_shape3_replicate|lia..].
    + intros [n' [el' m']] (Hn' & Hel' & Hm')%elem_of_flmn_iter Hpos.
      unfold pos in Hpos. simpl in Hpos.
      assert (n' = n ∧ el' = el ∧ m' = m) as (-> & -> & ->); [|done].
      injection Hpos as ???. lia.
  - intros i j k Hi Hj Hk Hoff.
    change (get (foldl (λ s p, set_ (pos p) (val p) s) zeros (flmn_iter L N))
              (i, j, k) = Some czero).
    rewrite (get_foldl_set_ne get set_ Hne).
    + unfold get. simpl. unfold zeros. apply lookup3_replicate; lia.
    + intros [n' [el' m']] (Hn' & Hel' & Hm')%elem_of_flmn_iter Hpos.
      unfold pos in Hpos. simpl in Hpos. injection Hpos as ???. lia.
Qed.
End packing_facts.

Section packing_roundtrip.
Context {C : Type} {SC : Scalar C}.

(** C4: for [L >= 1] and [N >= 1] both round trips are exact:
    unpacking the packed form of a cube of shape [(L, 2L-1, 2N-1)] that is
    zero where [|m| > el] gives the cube back, and packing the unpacked
    form of a flat array of length [(2N-1) L^2] gives the flat array back. *)
Theorem flmn_roundtrips (L N : Z) :
  1 ≤ L → 1 ≤ N →
  (∀ x : list (list (list C)),
     has_shape3 x (Z.to_nat L) (Z.to_nat (2 * L - 1)) (Z.to_nat (2 * N - 1)) →
     zero_off_support x L →
     roundtrip_3d x L N = Ok x) ∧
  (∀ y : list C,
     length y = Z.to_nat ((2 * N - 1) * L * L) →
     roundtrip_1d y L N = Ok y).
Proof.
  intros HL HN. split.
  - intros x Hshape Hzero. unfold roundtrip_3d.
    destruct (flmn_3d_to_1d_spec x L N HL HN Hshape) as (r & -> & Hlen & Hr).
    simpl.
    destruct (flmn_1d_to_3d_spec r L N HL HN Hlen) as (x' & -> & Hshape' & Hx' & Hoff).
    f_equal. eapply array3_eq; [done|done|].
    intros i j k Hi Hj Hk.
    destruct (decide (- Z.of_nat i ≤ Z.of_nat j - (L - 1) ≤ Z.of_nat i)) as [Hin|Hout].
    + specialize (Hx' (Z.of_nat k - (N - 1)) (Z.of_nat i) (Z.of_nat j - (L - 1))
                    ltac:(lia) ltac:(lia) ltac:(lia)).
      specialize (Hr (Z.of_nat k - (N - 1)) (Z.of_nat i) (Z.of_nat j - (L - 1))
                    ltac:(lia) ltac:(lia) ltac:(lia)).
      replace (Z.to_nat (Z.of_nat i)) with i in * by lia.
      replace (Z.to_nat (L - 1 + (Z.of_nat j - (L - 1)))) with j in * by lia.
      replace (Z.to_nat (N - 1 + (Z.of_nat k - (N - 1)))) with k in * by lia.
      congruence.
    + rewrite Hoff by (done || lia).
      destruct (has_shape3_lookup3 x _ _ _ i j k Hshape) as [v Hv]; [lia..|].
      rewrite Hv. f_equal. symmetry. by eapply Hzero.
  - intros y Hlen. unfold roundtrip_1d.
    destruct (flmn_1d_to_3d_spec y L N HL HN Hlen) as (x & -> & Hshape & Hx & _).
    simpl.
    destruct (flmn_3d_to_1d_spec x L N HL HN Hshape) as (r & -> & Hlenr & Hr).
    f_equal. apply list_eq_same_length with (Z.to_nat (flmn_shape_1d L N));
      [done|done|].
    intros idx v v' Hidx Hv Hv'.
    destruct (elmn2ind_decode L N (Z.of_nat idx) ltac:(lia) ltac:(lia))
      as ((Hn & Hel & Hm) & Hind).
    specialize (Hr _ _ _ Hn Hel Hm). specialize (Hx _ _ _ Hn Hel Hm).
    rewrite Hind, Nat2Z.id in Hr, Hx. congruence.
Qed.
End packing_roundtrip.

Lemma flmn_roundtrips_witness :
  roundtrip_3d
    [[[GaussZ.re 0]; [GaussZ.re 1]; [GaussZ.re 0]];
     [[GaussZ.re 2]; [GaussZ.im 3]; [GaussZ.re 4]]] 2 1
  = Ok [[[GaussZ.re 0]; [GaussZ.re 1]; [GaussZ.re 0]];
        [[GaussZ.re 2]; [GaussZ.im 3]; [GaussZ.re 4]]] ∧
  roundtrip_1d (GaussZ.re <$> seqZ 1 12) 2 2 = Ok (GaussZ.re <$> seqZ 1 12).
Proof.
  pose proof (flmn_roundtrips (C := GaussZ.t) 2 1 ltac:(lia) ltac:(lia)) as [H3 _].
  pose proof (flmn_roundtrips (C := GaussZ.t) 2 2 ltac:(lia) ltac:(lia)) as [_ H1].
  split.
  - apply H3.
    + split; [reflexivity|]. repeat constructor.
    + intros i j k v Hv Hout.
      destruct i as [|[|i]]; [| |done];
        (destruct j as [|[|[|j]]]; [| | |done]);
        (destruct k as [|k]; [|done]);
        simpl in Hout; try lia; by injection Hv as <-.
  - apply H1. reflexivity.
Defined.

(** ** s2fft/wigner/transform.py *)

Section array_ops_facts.
Context {A : Type}.
Implicit Types (a : list (list (list A))) (M : list (list A)).

Lemma mapM_Ok {B D} (f : B → result D) (l : list B) (k : list D) :
  mapM f l = Ok k ↔ Forall2 (λ x y, f x = Ok y) l k.
Proof.
  revert k. induction l as [|x l IH]; intros k; simpl.
  - split; [intros [= <-]; constructor|by inversion 1].
  - destruct (f x) as [y|e] eqn:Hfx; simpl.
    + destruct (mapM f l) as [k'|e] eqn:Hl; simpl.
      * split.
        -- unfold mret, result_ret. intros [= <-]. constructor; [done|by apply IH].
        -- inversion 1 as [|???? Hy Hk]; subst. apply IH in Hk.
           rewrite Hfx in Hy. unfold mret, result_ret. congruence.
      * split; [done|]. inversion 1 as [|???? Hy Hk]; subst.
        by apply IH in Hk.
    + split; [done|]. inversion 1 as [|???? Hy Hk]; subst. congruence.
Qed.

Lemma getitem_nonneg_inv (l : list A) (k : Z) (x : A) :
  0 ≤ k → getitem l k = Ok x → l !! Z.to_nat k = Some x.
Proof.
  intros Hk. unfold getitem, norm_index.
  destruct (Z.leb_spec 0 k); [|lia].
  destruct (Z.ltb_spec k (Z.of_nat (length l))); simpl.
  - destruct (l !! Z.to_nat k); [congruence|done].
  - destruct (Z.leb_spec (- Z.of_nat (length l)) k), (Z.ltb_spec k 0);
      simpl; try done; lia.
Qed.

Lemma setitem_nonneg_inv (l l' : list A) (k : Z) (v : A) :
  0 ≤ k → setitem l k v = Ok l' →
  l' = <[Z.to_nat k := v]> l ∧ (Z.to_nat k < length l)%nat.
Proof.
  intros Hk. unfold setitem, norm_index.
  destruct (Z.leb_spec 0 k); [|lia].
  destruct (Z.ltb_spec k (Z.of_nat (length l))); simpl.
  - intros [= <-]. split; [done|lia].
  - destruct (Z.leb_spec (- Z.of_nat (length l)) k), (Z.ltb_spec k 0);
      simpl; try done; lia.
Qed.

(** Reading the last axis at [k]. *)
Lemma lookup2_get_last a (k : Z) M (i j : nat) :
  0 ≤ k → get_last a k = Ok M →
  lookup2 M i j = lookup3 a i j (Z.to_nat k).
Proof.
  intros Hk HM. apply mapM_Ok in HM. unfold lookup2, lookup3.
  destruct (a !! i) as [arow|] eqn:Ha, (M !! i) as [mrow|] eqn:Hm; simpl.
  - pose proof (Forall2_lookup_lr _ _ _ _ _ _ HM Ha Hm) as Hlr.
    apply mapM_Ok in Hlr.
    destruct (arow !! j) as [col|] eqn:Hc, (mrow !! j) as [v|] eqn:Hv; simpl.
    + pose proof (Forall2_lookup_lr _ _ _ _ _ _ Hlr Hc Hv) as Hlr2.
      symmetry. by apply getitem_nonneg_inv.
    + apply Forall2_length in Hlr. apply lookup_lt_Some in Hc.
      apply lookup_ge_None in Hv. lia.
    + apply Forall2_length in Hlr. apply lookup_lt_Some in Hv.
      apply lookup_ge_None in Hc. lia.
    + done.
  - apply Forall2_length in HM. apply lookup_lt_Some in Ha.
    apply lookup_ge_None in Hm. lia.
  - apply Forall2_length in HM. apply lookup_lt_Some in Hm.
    apply lookup_ge_None in Ha. lia.
  - done.
Qed.

(** Writing the last axis at [k], when it succeeds. *)
Lemma set_last_Ok a (k : Z) M a' :
  0 ≤ k → set_last a k M = Ok a' →
  Forall2 (λ arow mrow, length arow = length mrow) a M ∧
  a' = zip_with (zip_with (λ col v, <[Z.to_nat k := v]> col)) a M ∧
  Forall (Forall (λ col, (Z.to_nat k < length col)%nat)) a.
Proof.
  intros Hk. unfold set_last. case_bool_decide as Hshape; [|done].
  intros Hrun. split; [done|].
  apply mapM_Ok in Hrun. revert a' Hrun.
  induction Hshape as [|arow mrow a M Hlen Hshape IH]; intros a' Hrun.
  - inversion Hrun. by split.
  - simpl in Hrun. inversion Hrun as [|? row' ? a'' Hrow Hrest]; subst.
    destruct (IH _ Hrest) as [-> Hcols]. simpl in Hrow.
    apply mapM_Ok in Hrow.
    assert (row' = zip_with (λ col v, <[Z.to_nat k := v]> col) arow mrow ∧
            Forall (λ col, (Z.to_nat k < length col)%nat) arow) as [-> Hrowk].
    { clear -Hrow Hlen Hk. revert mrow row' Hlen Hrow.
      induction arow as [|col arow IHr]; intros [|v mrow] row' Hlen Hrow;
        simpl in *; try done.
      - inversion Hrow. by split.
      - inversion Hrow as [|? col' ? row'' Hcol Hr]; subst. simpl in Hcol.
        apply setitem_nonneg_inv in Hcol as [-> ?]; [|done].
        destruct (IHr mrow row'') as [-> ?]; [lia|done|].
        split; [done|by constructor]. }
    split; [done|by constructor].
Qed.

Lemma lookup3_set_last_ne a (k : Z) M a' (i j k' : nat) :
  0 ≤ k → set_last a k M = Ok a' → k' ≠ Z.to_nat k →
  lookup3 a' i j k' = lookup3 a i j k'.
Proof.
  intros Hk Hrun Hne. destruct (set_last_Ok a k M a' Hk Hrun) as (Hshape & -> & _).
  unfold lookup3. rewrite lookup_zip_with.
  destruct (a !! i) as [arow|] eqn:Ha; simpl; [|done].
  destruct (M !! i) as [mrow|] eqn:Hm; simpl.
  2:{ apply Forall2_length in Hshape. apply lookup_lt_Some in Ha.
      apply lookup_ge_None in Hm. lia. }
  pose proof (Forall2_lookup_lr _ _ _ _ _ _ Hshape Ha Hm) as Hlr. simpl in Hlr.
  rewrite lookup_zip_with.
  destruct (arow !! j) as [col|] eqn:Hc; simpl; [|done].
  destruct (mrow !! j) as [v|] eqn:Hv; simpl.
  2:{ apply lookup_lt_Some in Hc. apply lookup_ge_None in Hv. lia. }
  by apply list_lookup_insert_ne.
Qed.

Lemma lookup3_set_last_eq a (k : Z) M a' (i j : nat) :
  0 ≤ k → set_last a k M = Ok a' →
  lookup3 a' i j (Z.to_nat k) = lookup2 M i j.
Proof.
  intros Hk Hrun. destruct (set_last_Ok a k M a' Hk Hrun) as (Hshape & -> & Hcols).
  unfold lookup3, lookup2. rewrite lookup_zip_with.
  destruct (a !! i) as [arow|] eqn:Ha, (M !! i) as [mrow|] eqn:Hm; simpl; try done.
  2:{ apply Forall2_length in Hshape. apply lookup_lt_Some in Hm.
      apply lookup_ge_None in Ha. lia. }
  pose proof (Forall2_lookup_lr _ _ _ _ _ _ Hshape Ha Hm) as Hlr. simpl in Hlr.
  rewrite lookup_zip_with.
  destruct (arow !! j) as [col|] eqn:Hc, (mrow !! j) as [v|] eqn:Hv; simpl; try done.
  2:{ apply lookup_lt_Some in Hv. apply lookup_ge_None in Hc. lia. }
  apply list_lookup_insert_eq.
  pose proof (proj1 (Forall_lookup _ _) Hcols i arow Ha) as Hrowk.
  apply (proj1 (Forall_lookup _ _) Hrowk j col Hc).
Qed.

Lemma has_shape3_set_last a (k : Z) M a' d0 d1 d2 :
  0 ≤ k → set_last a k M = Ok a' →
  has_shape3 a d0 d1 d2 → has_shape3 a' d0 d1 d2.
Proof.
  intros Hk Hrun [Hlen Hrows].
  destruct (set_last_Ok a k M a' Hk Hrun) as (Hshape & -> & _).
  split.
  - rewrite length_zip_with. apply Forall2_length in Hshape. lia.
  - apply Forall_lookup. intros i row' Hrow'.
    apply lookup_zip_with_Some in Hrow' as (arow & mrow & -> & Ha & Hm).
    destruct (proj1 (Forall_lookup _ _) Hrows i arow Ha) as [Hla Hcols].
    pose proof (Forall2_lookup_lr _ _ _ _ _ _ Hshape Ha Hm) as Hlm. simpl in Hlm.
    split; [rewrite length_zip_with; lia|].
    apply Forall_lookup. intros j col' Hcol'.
    apply lookup_zip_with_Some in Hcol' as (col & v & -> & Hc & Hv).
    rewrite length_insert.
    apply (proj1 (Forall_lookup _ _) Hcols j col Hc).
Qed.
End array_ops_facts.
Lemma for_each_inv {S I} (body : S → I → result S) (P : S → Prop)
    (idxs : list I) (s s' : S) :
  P s →
  (∀ s i s1, i ∈ idxs → P s → body s i = Ok s1 → P s1) →
  for_each body idxs s = Ok s' → P s'.
Proof.
  revert s. induction idxs as [|i idxs IH]; intros s Hs Hbody; simpl.
  - by intros [= <-].
  - destruct (body s i) as [s1|e] eqn:Hb; simpl; [|done].
    apply IH.
    + eapply Hbody; [by left|done|done].
    + intros s2 i' s3 ?. apply Hbody. by right.
Qed.

Lemma bind_Ok {A B} (m : result A) (k : A → result B) (y : B) :
  m ≫= k = Ok y → ∃ x, m = Ok x ∧ k x = Ok y.
Proof. destruct m as [x|e]; simpl; [eauto|done]. Qed.

Section lookup2_facts.
Context {A : Type}.
Implicit Types (M : list (list A)).

Lemma lookup2_map2d {B} (f : A → B) M i j :
  lookup2 (map2d f M) i j = f <$> lookup2 M i j.
Proof.
  unfold lookup2, map2d. rewrite list_lookup_fmap.
  destruct (M !! i) as [row|]; simpl; [|done]. by rewrite list_lookup_fmap.
Qed.

Lemma lookup2_fmap_reverse M (d i j j' : nat) :
  Forall (λ row, length row = d) M → (j + j' + 1 = d)%nat →
  lookup2 (reverse <$> M) i j' = lookup2 M i j.
Proof.
  intros Hrows Hj. unfold lookup2. rewrite list_lookup_fmap.
  destruct (M !! i) as [row|] eqn:Hrow; simpl; [|done].
  pose proof (proj1 (Forall_lookup _ _) Hrows i row Hrow) as Hlen. simpl in Hlen.
  rewrite reverse_lookup by lia. f_equal. lia.
Qed.

Lemma lookup2_fmap_zip_with {B D} (f : A → B → D) (w : list B) (x : B) M i j :
  w !! j = Some x →
  lookup2 ((λ row, zip_with f row w) <$> M) i j = (λ v, f v x) <$> lookup2 M i j.
Proof.
  intros Hw. unfold lookup2. rewrite list_lookup_fmap.
  destruct (M !! i) as [row|]; simpl; [|done].
  rewrite lookup_zip_with, Hw. by destruct (row !! j).
Qed.

Lemma get_last_row_lengths (a : list (list (list A))) (k : Z) M d0 d1 d2 :
  get_last a k = Ok M → has_shape3 a d0 d1 d2 →
  Forall (λ row, length row = d1) M.
Proof.
  intros HM [Hlen Hrows]. apply mapM_Ok in HM.
  apply Forall_lookup. intros i mrow Hm.
  destruct (Forall2_lookup_r _ _ _ _ _ HM Hm) as (arow & Ha & Hrow).
  apply mapM_Ok, Forall2_length in Hrow.
  destruct (proj1 (Forall_lookup _ _) Hrows i arow Ha) as [Hla _]. lia.
Qed.
End lookup2_facts.

Section transform_facts.
Context {C : Type} {SC : Scalar C}.

Lemma cmul_one_l (a : C) : cmul cone a = a.
Proof. by rewrite cmul_comm, cmul_one_r. Qed.

Lemma csign_abs (a : Z) : csign (Z.abs a) = csign a :> C.
Proof.
  unfold csign. destruct (Z.abs_spec a) as [[_ ->]|[_ ->]]; [done|].
  by rewrite Z.even_opp.
Qed.

(** The loop of [forward] under [reality=True] (transform.py, lines
    143-156) taken on its own: started on the zero array, it ends only in
    arrays of the shape [flmn_shape(L, N)] whose columns [N-1-n] mirror the
    columns [N-1+n].  [forward] itself stops before this loop
    ([forward_raises] below). *)
Lemma forward_loop_mirrored
    (sph_forward : list (list C) → Z → Z → string → bool → Z → option Z
                   → result (list (list C)))
    (fban : list (list (list C))) (L N L_lower : Z) (sampling : string)
    (nside : option Z) (zeros flmn : list (list (list C))) :
  1 ≤ L → 1 ≤ N →
  np_full3 (flmn_shape L N) czero = Ok zeros →
  for_each (λ flmn n,
      fn ← get_last fban (n - 0);
      flm ← sph_forward fn L (- n) sampling true L_lower nside;
      flmn ← set_last flmn (N - 1 + n) (map2d (cmul (csign n)) flm);
      if true && negb (n =? 0) then
        pos ← get_last flmn (N - 1 + n);
        set_last flmn (N - 1 - n)
          (map2d cconj
             (reverse <$>
                map2d (λ v, cmul v (csign n))
                  ((λ row, zip_with cmul row
                             ((λ m, csign (Z.abs m)) <$> py_range (- L + 1) L))
                     <$> pos)))
      else Ok flmn)
    (py_range 0 N) zeros = Ok flmn →
  has_shape3 flmn (Z.to_nat L) (Z.to_nat (2 * L - 1)) (Z.to_nat (2 * N - 1)) ∧
  ∀ n, 1 ≤ n ≤ N - 1 → mirrored L N flmn n.
Proof.
  intros HL HN Hzeros Hloop.
  unfold np_full3, flmn_shape in Hzeros.
  destruct (Z.ltb_spec L 0); [lia|].
  destruct (Z.ltb_spec (2 * L - 1) 0); [lia|].
  destruct (Z.ltb_spec (2 * N - 1) 0); [lia|]. simpl in Hzeros.
  injection Hzeros as <-.
  eapply (for_each_inv _
    (λ a, has_shape3 a (Z.to_nat L) (Z.to_nat (2 * L - 1)) (Z.to_nat (2 * N - 1)) ∧
          ∀ n, 1 ≤ n ≤ N - 1 → mirrored L N a n)); [| |exact Hloop].
  - split; [apply has_shape3_replicate|].
    intros n Hn l j j' Hj.
    destruct (decide (l < Z.to_nat L)%nat) as [Hl|Hl].
    + rewrite !lookup3_replicate by lia. simpl.
      by rewrite !cmul_zero_l, cconj_zero.
    + unfold lookup3.
      by rewrite !(proj1 (lookup_replicate_None _ _ l)) by lia.
  - intros a n a2 Hn%elem_of_seqZ [Hshape Hmir] Hbody.
    apply bind_Ok in Hbody as (fn & _ & Hbody).
    apply bind_Ok in Hbody as (flm & _ & Hbody).
    apply bind_Ok in Hbody as (a1 & Hset1 & Hbody).
    pose proof (has_shape3_set_last a (N - 1 + n) _ a1 _ _ _ ltac:(lia) Hset1 Hshape) as Hshape1.
    pose proof (λ i j k', lookup3_set_last_ne a (N - 1 + n) _ a1 i j k'
                            ltac:(lia) Hset1) as Hne1.
    destruct (Z.eqb_spec n 0) as [->|Hn0]; simpl in Hbody.
    + injection Hbody as <-. split; [done|].
      intros n' Hn' l j j' Hj.
      rewrite !Hne1 by lia. by apply Hmir.
    + apply bind_Ok in Hbody as (pos & Hpos & Hset2).
      pose proof (has_shape3_set_last a1 (N - 1 - n) _ a2 _ _ _ ltac:(lia) Hset2 Hshape1) as Hshape2.
      pose proof (λ i j k', lookup3_set_last_ne a1 (N - 1 - n) _ a2 i j k'
                              ltac:(lia) Hset2) as Hne2.
      split; [done|].
      intros n' Hn' l j j' Hj.
      destruct (decide (n' = n)) as [->|Hne].
      * rewrite (lookup3_set_last_eq a1 (N - 1 - n) _ a2) by (done || lia).
        rewrite Hne2 by lia.
        rewrite <- (lookup2_get_last a1 (N - 1 + n) pos) by (done || lia).
        rewrite lookup2_map2d.
        rewrite (lookup2_fmap_reverse _ (Z.to_nat (2 * L - 1)) l j j'); [| |done].
        2:{ apply Forall_lookup. intros i row Hrow. unfold map2d in Hrow.
            rewrite !list_lookup_fmap in Hrow.
            destruct (pos !! i) as [prow|] eqn:Hp; simpl in Hrow; [|done].
            injection Hrow as <-.
            pose proof (get_last_row_lengths _ _ _ _ _ _ Hpos Hshape1) as Hlens.
            pose proof (proj1 (Forall_lookup _ _) Hlens i prow Hp) as Hlp.
            simpl in Hlp.
            rewrite length_fmap, length_zip_with, length_fmap.
            unfold py_range. rewrite length_seqZ. lia. }
        rewrite lookup2_map2d.
        rewrite (lookup2_fmap_zip_with cmul _ (csign (Z.of_nat j - (L - 1)))).
        2:{ rewrite list_lookup_fmap. unfold py_range.
            rewrite lookup_seqZ_lt by lia. simpl. f_equal.
            rewrite csign_abs. f_equal. lia. }
        by destruct (lookup2 pos l j).
      * rewrite !Hne2 by lia. rewrite !Hne1 by lia. by apply Hmir.
Qed.
End transform_facts.

(** ** Sampling names and array shapes *)

Section sampling_facts.
Context {C : Type} {SC : Scalar C}.

Lemma f_shape_unsupported L N sampling :
  sampling ∉ ["mw"; "mwss"; "dh"] →
  f_shape L N sampling = Raise (unsupported_sampling sampling).
Proof. intros Hs. unfold f_shape. by rewrite bool_decide_eq_false_2. Qed.

Lemma py_lower_supported sampling :
  sampling ∈ ["mw"; "mwss"; "dh"] → py_lower sampling = sampling.
Proof.
  rewrite !elem_of_cons, elem_of_nil. intros [->|[->|[->|[]]]]; reflexivity.
Qed.

Lemma _nalpha_unsupported L sampling :
  py_lower sampling ∉ ["mw"; "mwss"; "dh"] →
  _nalpha L sampling = Raise (unsupported_sampling sampling).
Proof.
  rewrite !not_elem_of_cons. intros (? & ? & ? & _). unfold _nalpha.
  rewrite bool_decide_eq_false_2.
  2:{ rewrite !not_elem_of_cons. split_and!; [done|done|apply not_elem_of_nil]. }
  by rewrite bool_decide_eq_false_2.
Qed.

Lemma _nbeta_unsupported L sampling :
  py_lower sampling ∉ ["mw"; "mwss"; "dh"] →
  _nbeta L sampling = Raise (unsupported_sampling sampling).
Proof.
  rewrite !not_elem_of_cons. intros (? & ? & ? & _). unfold _nbeta.
  by rewrite !bool_decide_eq_false_2.
Qed.
End sampling_facts.

(** ** s2fft/wigner/transform.py: the call of [f_shape] *)

Section wrappers_facts.
Context {C : Type} {SC : Scalar C}.
Variables sph_inverse sph_forward :
  list (list C) → Z → Z → string → bool → Z → option Z → result (list (list C)).
Variables fft rfft ifft : list C → list C.
Variables inverse_scale forward_scale gamma_weight : Z → C.

(** The call [f_shape(L, N, sampling, nside)] raises whatever its arguments
    are. *)
Lemma f_shape_nside_raises L N sampling nside :
  f_shape_nside L N sampling nside = Raise f_shape_arity_error.
Proof. reflexivity. Qed.

(** [forward] evaluates that call in its first statement. *)
Lemma forward_raises f L N L_lower sampling reality nside :
  forward sph_forward fft rfft forward_scale gamma_weight
    f L N L_lower sampling reality nside = Raise f_shape_arity_error.
Proof. unfold forward. by rewrite f_shape_nside_raises. Qed.

(** [inverse] evaluates it right after the assertion on the shape of
    [flmn]. *)
Lemma inverse_raises flmn L N L_lower sampling reality nside :
  inverse sph_inverse ifft inverse_scale
    flmn L N L_lower sampling reality nside
  = if bool_decide (shape3 flmn = flmn_shape L N)
    then Raise f_shape_arity_error else Raise AssertionError.
Proof.
  unfold inverse. case_bool_decide; cbn [py_assert mbind result_bind]; [|done].
  by rewrite f_shape_nside_raises.
Qed.

(** C1: the round trip [forward(inverse(flmn))] cannot be taken on the
    code.  On every coefficient array of the shape [flmn_shape(L, N)],
    [inverse] raises [TypeError] at its call of [f_shape] with four
    arguments, so the composition raises it instead of returning [flmn];
    [forward] raises it on every signal as well. *)
Theorem wigner_round_trip_raises (flmn : list (list (list C)))
    (L N L_lower : Z) (sampling : string) (reality : bool) (nside : option Z) :
  shape3 flmn = flmn_shape L N →
  inverse sph_inverse ifft inverse_scale
    flmn L N L_lower sampling reality nside = Raise f_shape_arity_error ∧
  (f ← inverse sph_inverse ifft inverse_scale
         flmn L N L_lower sampling reality nside;
   forward sph_forward fft rfft forward_scale gamma_weight
     f L N L_lower sampling reality nside) = Raise f_shape_arity_error ∧
  ∀ f, forward sph_forward fft rfft forward_scale gamma_weight
         f L N L_lower sampling reality nside ≠ Ok flmn.
Proof.
  intros Hshape.
  assert (inverse sph_inverse ifft inverse_scale
            flmn L N L_lower sampling reality nside = Raise f_shape_arity_error)
    as Hinv.
  { rewrite inverse_raises. by rewrite bool_decide_eq_true_2. }
  split; [exact Hinv|]. split.
  - by rewrite Hinv.
  - intros f. by rewrite forward_raises.
Qed.

(** C6: with [reality=True] (as with [reality=False]) [forward] returns
    no array: on every signal, band-limits and sampling it raises
    [TypeError] at the call of [f_shape] in its first statement, before the
    loop that derives the coefficients of negative order. *)
Theorem forward_reality_raises (f : list (list (list C))) (L N L_lower : Z)
    (sampling : string) (nside : option Z) :
  forward sph_forward fft rfft forward_scale gamma_weight
    f L N L_lower sampling true nside = Raise f_shape_arity_error ∧
  ∀ flmn, forward sph_forward fft rfft forward_scale gamma_weight
            f L N L_lower sampling true nside ≠ Ok flmn.
Proof.
  pose proof (forward_raises f L N L_lower sampling true nside) as Hf.
  split; [exact Hf|]. intros flmn. by rewrite Hf.
Qed.

(** C8: on a sampling string outside the supported set (its lower-case
    form is none of the three names) the shape functions [f_shape],
    [_nalpha] and [_nbeta] raise the [ValueError] that names the scheme, but
    [forward] and [inverse] do not: they raise [TypeError] at their call of
    [f_shape], before [f_shape] sees the string. *)
Theorem unsupported_sampling_outcomes (L N L_lower : Z) (sampling : string)
    (reality : bool) (nside : option Z) :
  py_lower sampling ∉ ["mw"; "mwss"; "dh"] →
  f_shape L N sampling = Raise (unsupported_sampling sampling) ∧
  _nalpha L sampling = Raise (unsupported_sampling sampling) ∧
  _nbeta L sampling = Raise (unsupported_sampling sampling) ∧
  (∀ f, forward sph_forward fft rfft forward_scale gamma_weight
          f L N L_lower sampling reality nside
        = Raise f_shape_arity_error) ∧
  (∀ flmn, shape3 flmn = flmn_shape L N →
        inverse sph_inverse ifft inverse_scale
          flmn L N L_lower sampling reality nside
        = Raise f_shape_arity_error) ∧
  f_shape_arity_error ≠ unsupported_sampling sampling.
Proof.
  intros Hlower.
  assert (sampling ∉ ["mw"; "mwss"; "dh"]) as Hexact.
  { intros Hs. apply Hlower. by rewrite py_lower_supported. }
  split; [by apply f_shape_unsupported|].
  split; [by apply _nalpha_unsupported|].
  split; [by apply _nbeta_unsupported|].
  split; [intros f; apply forward_raises|].
  split; [|done].
  intros flmn Hshape. rewrite inverse_raises. by rewrite bool_decide_eq_true_2.
Qed.
End wrappers_facts.


Lemma wigner_round_trip_raises_witness :
  inverse (sample_sph sample_flm) sample_fft GaussZ.re
    (insert3 0 3 1 (GaussZ.re 1)
       (replicate 4 (replicate 7 (replicate 3 (GaussZ.re 0)))))
    4 2 0 "mw" false None = Raise f_shape_arity_error ∧
  (f ← inverse (sample_sph sample_flm) sample_fft GaussZ.re
         (insert3 0 3 1 (GaussZ.re 1)
            (replicate 4 (replicate 7 (replicate 3 (GaussZ.re 0)))))
         4 2 0 "mw" false None;
   forward (sample_sph sample_flm) sample_fft sample_rfft GaussZ.re GaussZ.re
     f 4 2 0 "mw" false None) = Raise f_shape_arity_error ∧
  ∀ f, forward (sample_sph sample_flm) sample_fft sample_rfft
         GaussZ.re GaussZ.re f 4 2 0 "mw" false None
       ≠ Ok (insert3 0 3 1 (GaussZ.re 1)
               (replicate 4 (replicate 7 (replicate 3 (GaussZ.re 0))))).
Proof.
  apply (wigner_round_trip_raises
           (sample_sph sample_flm) (sample_sph sample_flm)
           sample_fft sample_rfft sample_fft GaussZ.re GaussZ.re GaussZ.re
           (insert3 0 3 1 (GaussZ.re 1)
              (replicate 4 (replicate 7 (replicate 3 (GaussZ.re 0)))))
           4 2 0 "mw" false None).
  reflexivity.
Defined.

Lemma unsupported_sampling_outcomes_witness :
  f_shape 4 2 "foo" = Raise (unsupported_sampling "foo") ∧
  _nalpha 4 "foo" = Raise (unsupported_sampling "foo") ∧
  _nbeta 4 "foo" = Raise (unsupported_sampling "foo") ∧
  (∀ f, forward (sample_sph sample_flm) sample_fft sample_rfft
          GaussZ.re GaussZ.re f 4 2 0 "foo" false None
        = Raise f_shape_arity_error) ∧
  (∀ flmn, shape3 flmn = flmn_shape 4 2 →
        inverse (sample_sph sample_flm) sample_fft GaussZ.re
          flmn 4 2 0 "foo" false None
        = Raise f_shape_arity_error) ∧
  f_shape_arity_error ≠ unsupported_sampling "foo".
Proof.
  apply (unsupported_sampling_outcomes
           (sample_sph sample_flm) (sample_sph sample_flm)
           sample_fft sample_rfft sample_fft GaussZ.re GaussZ.re GaussZ.re
           4 2 0 "foo" false None).
  assert (py_lower "foo" = "foo") as -> by reflexivity.
  rewrite !not_elem_of_cons. split_and!; try done. apply not_elem_of_nil.
Defined.



(** ** s2fft/healpix_ffts.py: in-place folding and the FFT drivers *)

Lemma for_each_inv_prefix {S I} (body : S → I → result S)
    (P : list I → S → Prop) (idxs : list I) (s s' : S) :
  P [] s →
  (∀ pre i post s s1, idxs = pre ++ i :: post →
     P pre s → body s i = Ok s1 → P (pre ++ [i]) s1) →
  for_each body idxs s = Ok s' → P idxs s'.
Proof.
  intros Hs Hbody.
  assert (∀ rest pre s, idxs = pre ++ rest → P pre s →
            for_each body rest s = Ok s' → P idxs s') as Hgen.
  { induction rest as [|i rest IH]; intros pre s0 Heq Hpre; simpl.
    - intros [= <-]. by rewrite Heq, app_nil_r.
    - destruct (body s0 i) as [s1|e] eqn:Hb; simpl; [|done].
      apply (IH (pre ++ [i])).
      + by rewrite <- app_assoc.
      + by eapply Hbody. }
  by apply (Hgen idxs []).
Qed.

Section in_place.
Context {C : Type} {SC : Scalar C}.
Implicit Types (fm buf : list C) (nphi L : Z).

Lemma cadd_zero_l (a : C) : cadd czero a = a.
Proof. by rewrite cadd_comm, cadd_zero_r. Qed.

Lemma cadd_cancel_l (x s : C) : cadd x s = x → s = czero.
Proof.
  intros Hs.
  assert (cadd (copp x) (cadd x s) = cadd (copp x) x) as Heq by by rewrite Hs.
  rewrite cadd_assoc, (cadd_comm (copp x) x), cadd_opp_r, cadd_zero_l in Heq.
  done.
Qed.

Lemma foldl_cadd_sum (x : C) (vs : list C) :
  foldl cadd x vs = cadd x (foldl cadd czero vs).
Proof.
  revert x. induction vs as [|v vs IH]; intros x; simpl.
  - by rewrite cadd_zero_r.
  - rewrite IH, (IH (cadd czero v)), cadd_zero_l. by rewrite cadd_assoc.
Qed.

(** What [spectral_folding] leaves in the caller's array. *)
Lemma spectral_folding_in_place fm nphi L :
  let slice_start := L - nphi `div` 2 in
  1 ≤ nphi ≤ 2 * L →
  slice_start + nphi ≤ Z.of_nat (length fm) →
  nphi < Z.of_nat (length fm) →
  ∃ buf,
    spectral_folding fm nphi L
      = Ok (buf, View (Z.to_nat slice_start) (Z.to_nat nphi)) ∧
    length buf = length fm ∧
    (∀ k, 0 ≤ k → ¬ (slice_start ≤ k < slice_start + nphi) →
       buf !! Z.to_nat k = fm !! Z.to_nat k) ∧
    (∀ j, 0 ≤ j < nphi →
       buf !! Z.to_nat (slice_start + j) =
       Some (foldl cadd (fm !!! Z.to_nat (slice_start + j))
               ((λ k, fm !!! Z.to_nat k) <$> aliases nphi L (length fm) j))) ∧
    (∃ j, 0 ≤ j < nphi ∧ aliases nphi L (length fm) j ≠ []) ∧
    (∀ j, 0 ≤ j < nphi →
       foldl cadd czero ((λ k, fm !!! Z.to_nat k) <$> aliases nphi L (length fm) j)
         ≠ czero →
       buf ≠ fm).
Proof.
  intros slice_start Hnphi Hstop Hlen.
  pose proof (slice_start_nonneg nphi L ltac:(lia)) as Hstart.
  fold slice_start in Hstart.
  eexists. split; [by apply spectral_folding_spec|].
  assert (∀ j, 0 ≤ j < nphi →
    foldl (fold_step fm nphi L) fm (outside_bins nphi L (length fm))
      !! Z.to_nat (slice_start + j) =
    Some (foldl cadd (fm !!! Z.to_nat (slice_start + j))
            ((λ k, fm !!! Z.to_nat k) <$> aliases nphi L (length fm) j)))
    as Hwin.
  { intros j Hj. unfold slice_start.
    rewrite lookup_folded_window by (fold slice_start; lia).
    fold slice_start.
    by rewrite (list_lookup_lookup_total_lt fm) by lia. }
  split; [by rewrite length_foldl_fold_step|].
  split; [|split; [done|split]].
  - intros k Hk Hout. apply lookup_foldl_fold_step_outside; fold slice_start; lia.
  - (* a position outside the window exists, and aliases onto some entry *)
    assert (∃ k, k ∈ outside_bins nphi L (length fm)) as [k Hk].
    { destruct (outside_bins nphi L (length fm)) as [|k ks] eqn:Hbins.
      - pose proof (length_outside_bins nphi L (length fm)) as Hl.
        simpl in Hl. fold slice_start in Hl. rewrite Hbins in Hl.
        simpl in Hl. lia.
      - exists k. by left. }
    exists ((k - slice_start) `mod` nphi). split.
    + apply Z.mod_pos_bound. lia.
    + intros Hnil. apply (filter_nil_not_elem_of _ _ k) in Hnil; done.
  - intros j Hj Hsum Heq.
    specialize (Hwin j Hj). rewrite Heq in Hwin.
    rewrite (list_lookup_lookup_total_lt fm) in Hwin by lia.
    injection Hwin as Hwin. rewrite foldl_cadd_sum in Hwin.
    symmetry in Hwin. by apply cadd_cancel_l in Hwin.
Qed.
End in_place.

Section ifft_rows.
Context {C : Type} {SC : Scalar C}.
Variable nphi_ring : Z → Z → Z.
Variable f_shape_healpix : Z → Z.
Variable ifft : list C → list C.

(** The row that [healpix_ifft] leaves at ring [t] of the caller's [ftm]. *)
Lemma healpix_ifft_rows (ftm : list (list C)) (L nside : Z) (reality : bool)
    (ftm' : list (list C)) (f : list C) :
  (∀ row, row ∈ ftm → length row = Z.to_nat (2 * L)) →
  (∀ t, 0 ≤ t < Z.of_nat (length ftm) → 1 ≤ nphi_ring t nside ≤ 2 * L) →
  healpix_ifft nphi_ring f_shape_healpix ifft ftm L nside reality = Ok (ftm', f) →
  ∀ (t : nat) (row : list C), ftm !! t = Some row →
    ftm' !! t =
    Some (if nphi_ring (Z.of_nat t) nside =? 2 * L then row
          else foldl (fold_step row (nphi_ring (Z.of_nat t) nside) L) row
                 (outside_bins (nphi_ring (Z.of_nat t) nside) L (length row))).
Proof.
  intros Hrows Hring Hrun. unfold healpix_ifft in Hrun.
  apply bind_Ok in Hrun as (? & _ & Hrun).
  apply bind_Ok in Hrun as (f0 & _ & Hrun).
  apply bind_Ok in Hrun as ([[ftm1 f1] index] & Hloop & Hrun).
  injection Hrun as <- <-.
  set (target := λ (t : nat) (row : list C),
         if nphi_ring (Z.of_nat t) nside =? 2 * L then row
         else foldl (fold_step row (nphi_ring (Z.of_nat t) nside) L) row
                (outside_bins (nphi_ring (Z.of_nat t) nside) L (length row))).
  set (P := λ (pre : list Z) (st : list (list C) * list C * Z),
         length st.1.1 = length ftm ∧
         ∀ (t : nat) row, ftm !! t = Some row →
           st.1.1 !! t =
           Some (if decide (Z.of_nat t ∈ pre) then target t row else row)).
  assert (P (py_range 0 (Z.of_nat (length ftm))) (ftm1, f1, index)) as [_ Hfin].
  2:{ intros t row Hrow. simpl in Hfin. rewrite (Hfin t row Hrow).
      rewrite decide_True; [done|].
      apply elem_of_seqZ. apply lookup_lt_Some in Hrow. lia. }
  eapply (for_each_inv_prefix _ P); [| |exact Hloop].
  { split; [done|]. intros t row Hrow. simpl. rewrite Hrow.
    by destruct (decide (Z.of_nat t ∈ [])) as [?%not_elem_of_nil|]. }
  clear Hloop. unfold P.
  intros pre t post [[a g] idx] st1 Hsplit [Hlen Hpre] Hbody. simpl in *.
  assert (0 ≤ t < Z.of_nat (length ftm) ∧ t ∉ pre) as [Ht Hfresh].
  { pose proof (NoDup_seqZ 0 (Z.of_nat (length ftm) - 0)) as Hnd.
    unfold py_range in Hsplit. rewrite Hsplit in Hnd.
    apply NoDup_app in Hnd as (_ & Hdis & _).
    assert (t ∈ seqZ 0 (Z.of_nat (length ftm) - 0)) as Hin.
    { rewrite Hsplit. apply elem_of_app. right. by left. }
    apply elem_of_seqZ in Hin. split; [lia|].
    intros Hin'. apply (Hdis t Hin'). by left. }
  apply bind_Ok in Hbody as (row & Hget & Hbody).
  apply getitem_nonneg_inv in Hget; [|lia].
  apply bind_Ok in Hbody as ([row' w] & Hfold & Hbody).
  apply bind_Ok in Hbody as (a' & Hset & Hbody).
  apply setitem_nonneg_inv in Hset as [-> _]; [|lia].
  apply bind_Ok in Hbody as (pix & _ & Hbody).
  apply bind_Ok in Hbody as (g' & _ & Hbody).
  injection Hbody as <-. simpl.
  split; [by rewrite length_insert|].
  intros t' row0 Hrow0.
  destruct (decide (Z.to_nat t = t')) as [<-|Hne].
  - rewrite list_lookup_insert_eq by lia. f_equal.
    specialize (Hpre _ _ Hrow0).
    rewrite Z2Nat.id in * by lia.
    rewrite decide_True by (apply elem_of_app; right; by left).
    rewrite decide_False in Hpre by done.
    assert (row0 = row) as -> by congruence.
    unfold target. rewrite Z2Nat.id by lia.
    destruct (Z.eqb_spec (nphi_ring t nside) (2 * L)) as [Heq|Hneq].
    + by injection Hfold as <- _.
    + pose proof (Hring t Ht) as Hnphi.
      pose proof (Hrows row (list_elem_of_lookup_2 _ _ _ Hrow0)) as Hlrow.
      rewrite spectral_folding_spec in Hfold.
      * by injection Hfold as <- _.
      * lia.
      * pose proof (Z.div_mod (nphi_ring t nside) 2 ltac:(lia)).
        pose proof (Z.mod_pos_bound (nphi_ring t nside) 2 ltac:(lia)). lia.
  - rewrite list_lookup_insert_ne by done.
    rewrite (Hpre _ _ Hrow0).
    f_equal. destruct (decide (Z.of_nat t' ∈ pre)) as [Hin|Hnin].
    + rewrite decide_True; [done|]. apply elem_of_app. by left.
    + rewrite decide_False; [done|].
      rewrite elem_of_app, list_elem_of_singleton. intros [?|?]; [done|lia].
Qed.
End ifft_rows.

Section folding_effect.
Context {C : Type} {SC : Scalar C}.
Variable nphi_ring : Z → Z → Z.
Variable f_shape_healpix : Z → Z.
Variable ifft : list C → list C.

(** C10: [spectral_folding] works in place.  For [fm] longer than [nphi]
    (and containing the window) it returns a view on [fm]; the entries
    outside the window keep their values, every window entry has received
    the entries outside the window that alias onto it, at least one such
    addition has taken place, and the contents of [fm] have changed as soon
    as one of the added sums is not zero.  In [healpix_ifft] the row of
    [ftm] of every ring with [nphi < 2L] is left in that state. *)
Theorem spectral_folding_mutates_caller :
  (∀ (fm : list C) (nphi L : Z),
     let slice_start := L - nphi `div` 2 in
     1 ≤ nphi ≤ 2 * L →
     slice_start + nphi ≤ Z.of_nat (length fm) →
     nphi < Z.of_nat (length fm) →
     ∃ buf,
       spectral_folding fm nphi L
         = Ok (buf, View (Z.to_nat slice_start) (Z.to_nat nphi)) ∧
       length buf = length fm ∧
       (∀ k, 0 ≤ k → ¬ (slice_start ≤ k < slice_start + nphi) →
          buf !! Z.to_nat k = fm !! Z.to_nat k) ∧
       (∀ j, 0 ≤ j < nphi →
          buf !! Z.to_nat (slice_start + j) =
          Some (foldl cadd (fm !!! Z.to_nat (slice_start + j))
                  ((λ k, fm !!! Z.to_nat k) <$> aliases nphi L (length fm) j))) ∧
       (∃ j, 0 ≤ j < nphi ∧ aliases nphi L (length fm) j ≠ []) ∧
       (∀ j, 0 ≤ j < nphi →
          foldl cadd czero
            ((λ k, fm !!! Z.to_nat k) <$> aliases nphi L (length fm) j) ≠ czero →
          buf ≠ fm)) ∧
  (∀ (ftm : list (list C)) (L nside : Z) (reality : bool)
     (ftm' : list (list C)) (f : list C),
     Forall (λ row, length row = Z.to_nat (2 * L)) ftm →
     (∀ t, 0 ≤ t < Z.of_nat (length ftm) → 1 ≤ nphi_ring t nside ≤ 2 * L) →
     healpix_ifft nphi_ring f_shape_healpix ifft ftm L nside reality
       = Ok (ftm', f) →
     ∀ (t : nat) (row : list C),
       ftm !! t = Some row → nphi_ring (Z.of_nat t) nside < 2 * L →
       ∃ buf w,
         spectral_folding row (nphi_ring (Z.of_nat t) nside) L = Ok (buf, w) ∧
         ftm' !! t = Some buf).
Proof.
  split.
  - intros fm nphi L. apply spectral_folding_in_place.
  - intros ftm L nside reality ftm' f Hrows Hring Hrun t row Hrow Hlt.
    pose proof (healpix_ifft_rows nphi_ring f_shape_healpix ifft ftm L nside
                  reality ftm' f) as Hfin.
    rewrite (Hfin (proj1 (Forall_forall _ _) Hrows) Hring Hrun t row Hrow).
    destruct (Z.eqb_spec (nphi_ring (Z.of_nat t) nside) (2 * L)); [lia|].
    pose proof (Hring (Z.of_nat t)
                  ltac:(apply lookup_lt_Some in Hrow; lia)) as Hn.
    pose proof (proj1 (Forall_lookup _ _) Hrows t row Hrow) as Hlen.
    simpl in Hlen.
    do 2 eexists. split; [|done].
    apply spectral_folding_spec; [lia|].
    pose proof (Z.div_mod (nphi_ring (Z.of_nat t) nside) 2 ltac:(lia)).
    pose proof (Z.mod_pos_bound (nphi_ring (Z.of_nat t) nside) 2 ltac:(lia)).
    lia.
Qed.
End folding_effect.

Lemma spectral_folding_mutates_caller_witness :
  (∃ buf,
     spectral_folding (GaussZ.re <$> [1; 2; 3; 4]) 2 2 = Ok (buf, View 1 2) ∧
     buf = GaussZ.re <$> [1; 6; 4; 4]) ∧
  (∃ buf w,
     spectral_folding (GaussZ.re <$> [1; 2; 3; 4; 5; 6; 7; 8]) 4 4 = Ok (buf, w) ∧
     buf = GaussZ.re <$> [1; 2; 10; 12; 6; 8; 7; 8]).
Proof.
  pose proof (spectral_folding_mutates_caller
                nside1_nphi_ring nside1_f_shape (gauss_dft 1)) as [HA HB].
  split.
  - destruct (HA (GaussZ.re <$> [1; 2; 3; 4]) 2 2) as (buf & Hrun & _);
      [lia|vm_compute; discriminate|vm_compute; reflexivity|].
    exists buf. split; [exact Hrun|].
    vm_compute in Hrun. by injection Hrun as <-.
  - destruct (HB (replicate 3 (GaussZ.re <$> [1; 2; 3; 4; 5; 6; 7; 8])) 4 1 false
                _ _ ltac:(repeat constructor)
                ltac:(intros; unfold nside1_nphi_ring; lia)
                eq_refl 0%nat _ eq_refl ltac:(vm_compute; reflexivity))
      as (buf & w & Hrun & Hrow).
    exists buf, w. split; [exact Hrun|].
    vm_compute in Hrow. by injection Hrow as <-.
Defined.

(** ** s2fft/healpix_ffts.py: the reality flag *)

Lemma for_each_ext_prefix {S I} (body body' : S → I → result S)
    (P : list I → S → Prop) (idxs : list I) (s : S) :
  P [] s →
  (∀ pre i post s, idxs = pre ++ i :: post → P pre s →
     body s i = body' s i ∧ ∀ s1, body' s i = Ok s1 → P (pre ++ [i]) s1) →
  for_each body idxs s = for_each body' idxs s.
Proof.
  intros Hs Hbody.
  assert (∀ rest pre s, idxs = pre ++ rest → P pre s →
            for_each body rest s = for_each body' rest s) as Hgen.
  { induction rest as [|i rest IH]; intros pre s0 Heq Hpre; simpl; [done|].
    destruct (Hbody pre i rest s0 Heq Hpre) as [-> Hnext].
    destruct (body' s0 i) as [s1|e] eqn:Hb; simpl; [|done].
    apply (IH (pre ++ [i])); [by rewrite <- app_assoc|by apply Hnext]. }
  by apply (Hgen idxs []).
Qed.

Lemma seqZ_split_prefix (n : Z) (pre post : list Z) (t : Z) :
  seqZ 0 n = pre ++ t :: post →
  pre = seqZ 0 t ∧ 0 ≤ t < n.
Proof.
  intros Hsplit.
  assert (seqZ 0 n !! length pre = Some t) as Ht.
  { rewrite Hsplit. by rewrite list_lookup_middle. }
  apply lookup_seqZ in Ht as [-> Hlt].
  split; [|lia].
  apply list_eq. intros i.
  destruct (decide (i < length pre)%nat) as [Hi|Hi].
  - rewrite <- (lookup_app_l pre (Z.of_nat (length pre) :: post)) by done.
    replace (0 + Z.of_nat (length pre)) with (Z.of_nat (length pre)) in Hsplit by lia.
    rewrite <- Hsplit. by rewrite !lookup_seqZ_lt by lia.
  - rewrite lookup_ge_None_2 by lia. by rewrite lookup_seqZ_ge by lia.
Qed.

Section py_slice_facts.
Context {A : Type}.
Lemma py_slice_in (x : list A) (a b : Z) :
  0 ≤ a → a ≤ b → b ≤ Z.of_nat (length x) →
  py_slice x a b = take (Z.to_nat (b - a)) (drop (Z.to_nat a) x).
Proof. intros. unfold py_slice. by rewrite mk_view_in. Qed.

Lemma length_py_slice_in (x : list A) (a b : Z) :
  0 ≤ a → a ≤ b → b ≤ Z.of_nat (length x) →
  length (py_slice x a b) = Z.to_nat (b - a).
Proof.
  intros. rewrite py_slice_in by done. rewrite length_take, length_drop. lia.
Qed.

Lemma py_slice_drop_last (x : list A) :
  py_slice x 0 (-1) = take (length x - 1) x.
Proof.
  unfold py_slice, mk_view, slice_bound, view_contents. simpl.
  replace (Z.to_nat (0 `min` Z.of_nat (length x))) with 0%nat by lia.
  rewrite drop_0. f_equal. lia.
Qed.
End py_slice_facts.

Section fft_paths.
Context {C : Type} {SC : Scalar C}.
Variable nphi_ring : Z → Z → Z.
Variable ftm_shape : Z → Z → Z * Z.
Variable f_shape_healpix : Z → Z.
Variables fft rfft ifft : list C → list C.

Lemma foldr_add_snoc (l : list Z) (x : Z) :
  foldr Z.add 0 (l ++ [x]) = foldr Z.add 0 l + x.
Proof. induction l as [|y l IH]; simpl; lia. Qed.

Lemma ring_offset_nonneg nside (t : Z) :
  (∀ t', 0 ≤ t' < t → 1 ≤ nphi_ring t' nside) →
  0 ≤ ring_offset nphi_ring nside t.
Proof.
  intros Hpos. unfold ring_offset.
  assert (Forall (λ v, 0 ≤ v) ((λ t', nphi_ring t' nside) <$> seqZ 0 t)) as Hall.
  { apply Forall_fmap, Forall_seqZ. intros t' ?. simpl.
    specialize (Hpos t' ltac:(lia)). lia. }
  induction Hall as [|v l Hv _ IH]; simpl; lia.
Qed.

(** The real-FFT branch of [healpix_fft] computes a chunk that the next
    statement overwrites: on a pixel array that covers the rings it raises
    nothing, so the flag makes no difference. *)
Lemma healpix_fft_reality_irrelevant (f : list C) (L nside : Z) :
  (∀ x, (1 ≤ length x)%nat → length (rfft x) = (length x `div` 2 + 1)%nat) →
  (∀ t, 0 ≤ t < (ftm_shape L nside).1 →
     1 ≤ nphi_ring t nside ∧
     ring_offset nphi_ring nside t + nphi_ring t nside ≤ Z.of_nat (length f)) →
  healpix_fft nphi_ring ftm_shape fft rfft f L nside true =
  healpix_fft nphi_ring ftm_shape fft rfft f L nside false.
Proof.
  intros Hrfft Hcover. unfold healpix_fft.
  destruct (py_assert _); simpl; [|done].
  destruct (np_zeros2 _) as [ftm0|] eqn:Hzeros; simpl; [|done].
  assert (Z.of_nat (length ftm0) = (ftm_shape L nside).1) as Hntheta.
  { unfold np_zeros2 in Hzeros.
    destruct (Z.ltb_spec (ftm_shape L nside).1 0); simpl in Hzeros; [done|].
    destruct ((ftm_shape L nside).2 <? 0); simpl in Hzeros; [done|].
    injection Hzeros as <-. rewrite length_replicate. lia. }
  f_equal.
  apply (for_each_ext_prefix _ _
    (λ pre (st : list (list C) * Z),
       st.2 = foldr Z.add 0 ((λ t', nphi_ring t' nside) <$> pre))); [done|].
  intros pre t post [ftm index] Hsplit Hidx. simpl in Hidx.
  unfold py_range in Hsplit. rewrite Z.sub_0_r in Hsplit.
  apply seqZ_split_prefix in Hsplit as [-> Ht].
  change (index = ring_offset nphi_ring nside t) in Hidx.
  destruct (Hcover t ltac:(lia)) as [Hpos Hfit].
  assert (0 ≤ index) as Hidx0.
  { rewrite Hidx. apply ring_offset_nonneg. intros t' ?.
    apply (Hcover t'). lia. }
  split.
  - (* the extra branch returns normally *)
    simpl. destruct (Z.eqb_spec (nphi_ring t nside) (2 * L)) as [Heq|Hne];
      [|done].
    set (nphi := nphi_ring t nside) in *.
    unfold np_full at 1. destruct (Z.ltb_spec nphi 0); [lia|]. simpl.
    pose proof (length_py_slice_in f index (index + nphi)
                  ltac:(lia) ltac:(lia) ltac:(lia)) as Hslice.
    destruct (cre <$> py_slice f index (index + nphi)) as [|c cs] eqn:Hre.
    { apply (f_equal length) in Hre. rewrite length_fmap in Hre.
      simpl in Hre. lia. }
    rewrite <- Hre. simpl.
    replace (np_fft rfft (cre <$> py_slice f index (index + nphi)))
      with (Ok (rfft (cre <$> py_slice f index (index + nphi)))).
    2:{ by rewrite Hre. }
    simpl. unfold slice_assign.
    rewrite length_replicate, mk_view_in.
    2:{ apply Z.div_pos; lia. }
    2:{ pose proof (Z.div_mod nphi 2 ltac:(lia)).
        pose proof (Z.mod_pos_bound nphi 2 ltac:(lia)). lia. }
    2:{ lia. }
    simpl. rewrite py_slice_drop_last, length_take.
    rewrite Hrfft by (rewrite length_fmap, Hslice; lia).
    rewrite length_fmap, Hslice.
    rewrite decide_True; [done|].
    replace (index + nphi - index) with (L * 2) by lia.
    replace nphi with (L * 2) by lia.
    rewrite Z.div_mul by lia.
    replace (Z.to_nat (L * 2)) with (Z.to_nat L * 2)%nat by lia.
    rewrite Nat.div_mul by lia. lia.
  - intros [ftm1 index1] Hbody. simpl in Hbody.
    apply bind_Ok in Hbody as (spec & _ & Hbody).
    apply bind_Ok in Hbody as (row & _ & Hbody).
    apply bind_Ok in Hbody as (ftm2 & _ & Hbody).
    injection Hbody as <- <-. simpl.
    rewrite fmap_app.
    etrans; [|symmetry; apply foldr_add_snoc]. by rewrite Hidx.
Qed.
End fft_paths.

Section hermitian_facts.
Context {C : Type} {SC : Scalar C}.

Lemma cre_zero : cre czero = czero :> C.
Proof. apply cre_real, cconj_zero. Qed.

(** On a conjugate-symmetric row with no component at the order [-L], the
    spectrum that [irfft] inverts is the shifted row itself. *)
Lemma hermitian_extension_shift (l : nat) (row : list C) :
  (1 ≤ l)%nat → length row = (2 * l)%nat →
  row !! 0%nat = Some czero →
  (∀ m, (m < l)%nat → row !! (l - m)%nat = cconj <$> row !! (l + m)%nat) →
  hermitian_extension (drop l row) (2 * l) = drop l row ++ take l row.
Proof.
  intros Hl Hlen H0 Hsym. unfold hermitian_extension.
  replace ((2 * l) `div` 2)%nat with l
    by (rewrite Nat.mul_comm, Nat.div_mul; lia).
  replace ((2 * l + 1) `div` 2)%nat with l.
  2:{ apply (Nat.div_unique _ _ _ 1); lia. }
  replace (Nat.even (2 * l)) with true.
  2:{ symmetry. apply Nat.even_spec. by exists l. }
  set (x := drop l row).
  assert (length x = l) as Hx by (unfold x; rewrite length_drop; lia).
  assert (take (l + 1) (x ++ replicate (l + 1) czero) = x ++ [czero]) as ->.
  { rewrite take_app_ge by lia. f_equal.
    replace (l + 1 - length x)%nat with 1%nat by lia.
    by replace (l + 1)%nat with (S l) by lia. }
  rewrite (take_app_length' x _ l) by lia.
  rewrite (drop_app_length' x _ l) by lia.
  destruct x as [|x0 x'] eqn:Hxeq; [simpl in Hx; lia|].
  simpl in Hx. cbn [take app fmap list_fmap drop].
  rewrite drop_0.
  assert (row !! l = Some x0) as Hx0.
  { pose proof (lookup_drop row l 0) as Hd. fold x in Hd.
    rewrite Hxeq in Hd. simpl in Hd. by rewrite Nat.add_0_r in Hd. }
  assert (∀ k, x' !! k = row !! (l + S k)%nat) as Hx'.
  { intros k. pose proof (lookup_drop row l (S k)) as Hd. fold x in Hd.
    by rewrite Hxeq in Hd. }
  assert (cre x0 = x0) as ->.
  { apply cre_real. specialize (Hsym 0%nat ltac:(lia)).
    rewrite Nat.sub_0_r, Nat.add_0_r, Hx0 in Hsym. simpl in Hsym. congruence. }
  rewrite cre_zero, take_0. cbn [fmap list_fmap app].
  rewrite take_ge.
  2:{ simpl. rewrite length_app. simpl. rewrite length_fmap, length_reverse. lia. }
  do 2 f_equal.
  symmetry. apply list_eq. intros i.
  destruct (decide (i < l)%nat) as [Hi|Hi].
  2:{ rewrite lookup_take_ge by lia. symmetry. apply lookup_ge_None.
      simpl. rewrite length_fmap, length_reverse. lia. }
  rewrite lookup_take_lt by done.
  destruct i as [|i]; [done|]. simpl.
  rewrite list_lookup_fmap, reverse_lookup by lia.
  rewrite Hx'.
  specialize (Hsym (l - S i)%nat ltac:(lia)).
  replace (l - (l - S i))%nat with (S i) in Hsym by lia.
  rewrite Hsym. do 2 f_equal. lia.
Qed.

Lemma hermitian_row_extension (L : Z) (row : list C) :
  hermitian_row L row →
  hermitian_extension
    (py_slice row ((2 * L) `div` 2) (Z.of_nat (length row))) (Z.to_nat (2 * L))
  = ifftshift row ∧ 1 ≤ L.
Proof.
  intros (Hlen & H0 & Hsym).
  assert (1 ≤ L) as HL by (apply lookup_lt_Some in H0; lia).
  split; [|done].
  replace (2 * L) with (L * 2) at 1 by lia. rewrite Z.div_mul by lia.
  rewrite py_slice_in by lia.
  rewrite take_ge by (rewrite length_drop; lia).
  unfold ifftshift. rewrite Hlen.
  replace (Z.to_nat (2 * L)) with (2 * Z.to_nat L)%nat by lia.
  replace ((2 * Z.to_nat L) `div` 2)%nat with (Z.to_nat L)
    by (rewrite Nat.mul_comm, Nat.div_mul; lia).
  apply hermitian_extension_shift; [lia|lia|done|].
  intros m Hm. specialize (Hsym (Z.of_nat m) ltac:(lia)).
  replace (Z.to_nat (L - Z.of_nat m)) with (Z.to_nat L - m)%nat in Hsym by lia.
  by replace (Z.to_nat (L + Z.of_nat m)) with (Z.to_nat L + m)%nat in Hsym by lia.
Qed.
End hermitian_facts.

Section ifft_paths.
Context {C : Type} {SC : Scalar C}.
Variable nphi_ring : Z → Z → Z.
Variable f_shape_healpix : Z → Z.
Variable ifft : list C → list C.

(** On coefficient rows that are conjugate symmetric with no component at
    the order [-L] (for the rings of full length [2L]), the real inverse
    FFT path of [healpix_ifft] and the complex one return the same. *)
Lemma healpix_ifft_reality_irrelevant (ftm : list (list C)) (L nside : Z) :
  (∀ (t : nat) row, ftm !! t = Some row →
     nphi_ring (Z.of_nat t) nside = 2 * L → hermitian_row L row) →
  healpix_ifft nphi_ring f_shape_healpix ifft ftm L nside true =
  healpix_ifft nphi_ring f_shape_healpix ifft ftm L nside false.
Proof.
  intros Hherm. unfold healpix_ifft.
  destruct (py_assert _); simpl; [|done].
  destruct (np_full _ _) as [f0|]; simpl; [|done].
  f_equal.
  apply (for_each_ext_prefix _ _
    (λ (_ : list Z) (st : list (list C) * list C * Z),
       ∀ (t : nat) row, st.1.1 !! t = Some row →
         nphi_ring (Z.of_nat t) nside = 2 * L → hermitian_row L row));
    [done|].
  intros pre t post [[arr g] idx] Hsplit Hinv. simpl in Hinv.
  unfold py_range in Hsplit. rewrite Z.sub_0_r in Hsplit.
  apply seqZ_split_prefix in Hsplit as [_ Ht].
  destruct (getitem arr t) as [row|e] eqn:Hget; simpl; [|done].
  apply getitem_nonneg_inv in Hget; [|lia].
  destruct (Z.eqb_spec (nphi_ring t nside) (2 * L)) as [Heq|Hne]; simpl.
  - pose proof (Hinv (Z.to_nat t) row Hget
                  ltac:(by rewrite Z2Nat.id by lia)) as Hrow.
    destruct (setitem arr t row) as [arr'|e] eqn:Hset; simpl; [|done].
    apply setitem_nonneg_inv in Hset as [-> _]; [|lia].
    unfold view_contents. simpl. rewrite drop_0, firstn_all.
    destruct (hermitian_row_extension L row Hrow) as [Hext HL].
    unfold np_irfft. rewrite Heq.
    destruct (Z.ltb_spec (2 * L) 1); [lia|].
    rewrite Hext.
    assert (np_fft ifft (ifftshift row) = Ok (ifft (ifftshift row))) as ->.
    { destruct (ifftshift row) eqn:Hs; [|done].
      apply (f_equal length) in Hs. unfold ifftshift in Hs.
      rewrite length_app, length_drop, length_take in Hs.
      destruct Hrow as [Hlen _]. simpl in Hs. lia. }
    split; [done|].
    simpl. intros s1 Hs1.
    apply bind_Ok in Hs1 as (g' & _ & Hs1). injection Hs1 as <-. simpl.
    intros t' row' Hrow' Hfull.
    destruct (decide (Z.to_nat t = t')) as [<-|Hne].
    + rewrite list_lookup_insert_eq in Hrow' by (by eapply lookup_lt_Some).
      by injection Hrow' as <-.
    + rewrite list_lookup_insert_ne in Hrow' by done. by eapply Hinv.
  - split; [done|].
    intros s1 Hs1.
    apply bind_Ok in Hs1 as ([row1 w] & _ & Hs1).
    apply bind_Ok in Hs1 as (arr' & Hset & Hs1).
    apply setitem_nonneg_inv in Hset as [-> _]; [|lia].
    apply bind_Ok in Hs1 as (pix & _ & Hs1).
    apply bind_Ok in Hs1 as (g' & _ & Hs1). injection Hs1 as <-. simpl.
    intros t' row' Hrow' Hfull.
    destruct (decide (Z.to_nat t = t')) as [<-|Hne'].
    + rewrite Z2Nat.id in Hfull by lia. done.
    + rewrite list_lookup_insert_ne in Hrow' by done. by eapply Hinv.
Qed.
End ifft_paths.

Section reality_paths.
Context {C : Type} {SC : Scalar C}.
Variable nphi_ring : Z → Z → Z.
Variable ftm_shape : Z → Z → Z * Z.
Variable f_shape_healpix : Z → Z.
Variables fft rfft ifft : list C → list C.

(** C3 (amended): on a pixel array that covers the rings, [healpix_fft]
    returns the same with [reality=True] and with [reality=False], for every
    [f] (the real-FFT chunk is overwritten); and [healpix_ifft] returns the
    same with both flags when every row of [ftm] that belongs to a ring of
    full length [2L] is conjugate symmetric and zero at the order [-L]. *)
Theorem healpix_reality_paths_agree :
  (∀ (f : list C) (L nside : Z),
     (∀ x, (1 ≤ length x)%nat → length (rfft x) = (length x `div` 2 + 1)%nat) →
     (∀ t, 0 ≤ t < (ftm_shape L nside).1 →
        1 ≤ nphi_ring t nside ∧
        ring_offset nphi_ring nside t + nphi_ring t nside ≤ Z.of_nat (length f)) →
     healpix_fft nphi_ring ftm_shape fft rfft f L nside true =
     healpix_fft nphi_ring ftm_shape fft rfft f L nside false) ∧
  (∀ (ftm : list (list C)) (L nside : Z),
     (∀ (t : nat) row, ftm !! t = Some row →
        nphi_ring (Z.of_nat t) nside = 2 * L → hermitian_row L row) →
     healpix_ifft nphi_ring f_shape_healpix ifft ftm L nside true =
     healpix_ifft nphi_ring f_shape_healpix ifft ftm L nside false).
Proof.
  split.
  - intros f L nside. apply healpix_fft_reality_irrelevant.
  - intros ftm L nside. apply healpix_ifft_reality_irrelevant.
Qed.
End reality_paths.

(** C3 (as stated) fails for [healpix_ifft]: the real pixel ring
    [1, -1, 1, -1] has the conjugate-symmetric spectrum [4, 0, 0, 0] (all of
    it at the order [-L]); the complex path returns the ring (times the
    unscaled transform's factor), the real path returns zeros. *)
Lemma healpix_ifft_reality_drops_nyquist :
  let f := GaussZ.re <$> [1; -1; 1; -1; 0; 0; 0; 0; 0; 0; 0; 0] in
  let ftm := [GaussZ.re <$> [4; 0; 0; 0]; GaussZ.re <$> [0; 0; 0; 0];
              GaussZ.re <$> [0; 0; 0; 0]] in
  healpix_fft nside1_nphi_ring nside1_ftm_shape (gauss_dft (-1)) gauss_rfft
    f 2 1 true = Ok ftm ∧
  Forall (λ row, ∀ m, 0 ≤ m < 2 →
            row !! Z.to_nat (2 - m) = cconj <$> row !! Z.to_nat (2 + m)) ftm ∧
  healpix_ifft nside1_nphi_ring nside1_f_shape (gauss_dft 1) ftm 2 1 false
    = Ok (ftm, GaussZ.re <$> [4; -4; 4; -4; 0; 0; 0; 0; 0; 0; 0; 0]) ∧
  healpix_ifft nside1_nphi_ring nside1_f_shape (gauss_dft 1) ftm 2 1 true
    = Ok (ftm, GaussZ.re <$> [0; 0; 0; 0; 0; 0; 0; 0; 0; 0; 0; 0]) ∧
  healpix_ifft nside1_nphi_ring nside1_f_shape (gauss_dft 1) ftm 2 1 true
    ≠ healpix_ifft nside1_nphi_ring nside1_f_shape (gauss_dft 1) ftm 2 1 false.
Proof.
  split; [by vm_compute|]. split.
  - repeat constructor;
      (intros m Hm; assert (m = 0 ∨ m = 1) as [->| ->] by lia; reflexivity).
  - split; [by vm_compute|]. split; by vm_compute.
Qed.

Lemma length_gauss_rfft (x : list GaussZ.t) :
  (1 ≤ length x)%nat → length (gauss_rfft x) = (length x `div` 2 + 1)%nat.
Proof.
  intros Hx. unfold gauss_rfft, gauss_dft.
  rewrite length_take, length_fmap, length_seqZ, Nat2Z.id.
  pose proof (Nat.div_mod_eq (length x) 2).
  pose proof (Nat.mod_upper_bound (length x) 2 ltac:(lia)). lia.
Qed.

Lemma healpix_reality_paths_agree_witness :
  healpix_fft nside1_nphi_ring nside1_ftm_shape (gauss_dft (-1)) gauss_rfft
    (GaussZ.re <$> [1; -1; 1; -1; 1; 2; 3; 4; 0; 0; 0; 1]) 2 1 true =
  healpix_fft nside1_nphi_ring nside1_ftm_shape (gauss_dft (-1)) gauss_rfft
    (GaussZ.re <$> [1; -1; 1; -1; 1; 2; 3; 4; 0; 0; 0; 1]) 2 1 false ∧
  healpix_ifft nside1_nphi_ring nside1_f_shape (gauss_dft 1)
    (replicate 3 [GaussZ.re 0; (1, 1); GaussZ.re 2; (1, -1)]) 2 1 true =
  healpix_ifft nside1_nphi_ring nside1_f_shape (gauss_dft 1)
    (replicate 3 [GaussZ.re 0; (1, 1); GaussZ.re 2; (1, -1)]) 2 1 false.
Proof.
  pose proof (healpix_reality_paths_agree
                nside1_nphi_ring nside1_ftm_shape nside1_f_shape
                (gauss_dft (-1)) gauss_rfft (gauss_dft 1)) as [Hfft Hifft].
  split.
  - apply Hfft; [apply length_gauss_rfft|].
    intros t Ht. simpl in Ht.
    assert (t = 0 ∨ t = 1 ∨ t = 2) as [->|[->| ->]] by lia;
      (split; [unfold nside1_nphi_ring; lia|by vm_compute]).
  - apply Hifft. intros t row Hrow _.
    assert (row = [GaussZ.re 0; (1, 1); GaussZ.re 2; (1, -1)]) as ->.
    { destruct t as [|[|[|t]]]; simpl in Hrow; by simplify_eq. }
    split; [reflexivity|]. split; [reflexivity|].
    intros m Hm. assert (m = 0 ∨ m = 1) as [->| ->] by lia; reflexivity.
Defined.

(** ** s2fft/general_precompute/resampling_jax.py: the round trip *)

Lemma length_fftshift {A} (x : list A) : length (fftshift x) = length x.
Proof. unfold fftshift. rewrite length_app, length_drop, length_take. lia. Qed.

Lemma length_ifftshift {A} (x : list A) : length (ifftshift x) = length x.
Proof. unfold ifftshift. rewrite length_app, length_drop, length_take. lia. Qed.

Lemma ifftshift_fftshift {A} (x : list A) : ifftshift (fftshift x) = x.
Proof.
  unfold ifftshift. rewrite length_fftshift. unfold fftshift.
  set (n := length x). set (k := (n - n `div` 2)%nat).
  assert (Hh : (n `div` 2 ≤ n)%nat) by (apply Nat.Div0.div_le_upper_bound; lia).
  assert (Hk : length (drop k x) = (n `div` 2)%nat)
    by (rewrite length_drop; unfold k; fold n; lia).
  rewrite <- Hk at 1. rewrite drop_app_length.
  rewrite <- Hk. rewrite take_app_length. apply take_drop.
Qed.

Lemma py_slice_take {A} (x : list A) (n : Z) :
  0 ≤ n ≤ Z.of_nat (length x) → py_slice x 0 n = take (Z.to_nat n) x.
Proof.
  intros Hn. unfold py_slice, view_contents, mk_view, slice_bound. simpl.
  destruct (n <? 0) eqn:E; [lia|].
  replace (Z.to_nat (0 `min` Z.of_nat (length x))) with 0%nat by lia.
  rewrite drop_0. f_equal. lia.
Qed.

Lemma py_slice_full {A} (x : list A) (n : Z) :
  Z.of_nat (length x) = n → py_slice x 0 n = x.
Proof.
  intros Hn. rewrite py_slice_take by lia. apply firstn_all2. lia.
Qed.

Lemma slice2d_full {A} (a : list (list A)) (n m : Z) :
  Z.of_nat (length a) = n →
  Forall (λ row, Z.of_nat (length row) = m) a →
  slice2d a 0 n 0 m = a.
Proof.
  intros Hn Hrows. unfold slice2d. rewrite py_slice_full by done. clear Hn.
  induction Hrows as [|row a' Hrow _ IH]; [done|].
  simpl in *. rewrite py_slice_full by done. by f_equal.
Qed.

Lemma at_set2d_Ok {A} (a : list (list A)) r0 r1 c0 c1 v :
  Forall2 (λ arow vrow : list A,
             length vrow = v_len (mk_view (length arow) c0 c1))
          (view_contents a (mk_view (length a) r0 r1)) v →
  ∃ tail, at_set2d a r0 r1 c0 c1 v
          = Ok (take (slice_bound (length a) r0) a ++ tail).
Proof.
  intros H. unfold at_set2d. rewrite bool_decide_true by done.
  eexists. reflexivity.
Qed.

Lemma at_set2d_zeros {A} (z : A) (f : list (list A)) (n_ext n m : Z) :
  Z.of_nat (length f) = n → n ≤ n_ext → 0 ≤ m →
  Forall (λ row, Z.of_nat (length row) = m) f →
  at_set2d (replicate (Z.to_nat n_ext) (replicate (Z.to_nat m) z)) 0 n 0 m f
  = Ok (f ++ replicate (Z.to_nat (n_ext - n)) (replicate (Z.to_nat m) z)).
Proof.
  intros Hn Hle Hm Hrows. unfold at_set2d.
  rewrite length_replicate.
  assert (Hv : mk_view (Z.to_nat n_ext) 0 n = View 0 (Z.to_nat n)).
  { unfold mk_view, slice_bound. simpl.
    destruct (n <? 0) eqn:E; [lia|]. f_equal; lia. }
  rewrite Hv. unfold view_contents. cbn [v_off v_len]. rewrite drop_0.
  rewrite take_replicate.
  replace (Z.to_nat n `min` Z.to_nat n_ext)%nat with (length f) by lia.
  assert (Hc : ∀ row : list A, Z.of_nat (length row) = m →
             mk_view (length (replicate (Z.to_nat m) z)) 0 m = View 0 (length row)).
  { intros row Hr. rewrite length_replicate. unfold mk_view, slice_bound. simpl.
    destruct (m <? 0) eqn:E; [lia|]. f_equal; lia. }
  rewrite bool_decide_true.
  2:{ apply Forall2_same_length_lookup_2; [by rewrite length_replicate|].
      intros i x y Hx Hy. apply lookup_replicate in Hx as [-> _].
      rewrite Forall_lookup in Hrows. cbv beta. rewrite (Hc y) by eauto. done. }
  f_equal. rewrite take_0, app_nil_l. f_equal.
  - apply list_eq_same_length with (length f);
      [done|rewrite length_zip_with, length_replicate; lia|].
    intros i x y Hi Hx Hy.
    apply lookup_zip_with_Some in Hx as (arow & vrow & -> & Ha & Hv').
    apply lookup_replicate in Ha as [-> _].
    rewrite Forall_lookup in Hrows. cbv beta zeta. rewrite (Hc vrow) by eauto. cbn [v_off v_len take app Nat.add].
    rewrite drop_ge by (rewrite length_replicate; specialize (Hrows _ _ Hv'); simpl in *; lia).
    rewrite app_nil_r, take_0. simpl. congruence.
  - rewrite drop_replicate. f_equal. lia.
Qed.

Section resampling_facts.
Context {C : Type} {SC : Scalar C}.
Variables ntheta nphi_equiang ntheta_extension : Z → string → Z.
Variables fft ifft : list C → list C.

(** C5: for a field [f] of shape [(ntheta, nphi)] on the MW or the MWSS
    grid, any [L >= 1] and any spin, [periodic_extension] returns, and
    [unextend] of its result is [f].  The grid sizes are those of
    [s2fft.samples]; the one-dimensional [fft] keeps lengths and is undone
    by [ifft] on arrays of length [nphi]. *)
Theorem unextend_periodic_extension (f : list (list C)) (L spin : Z)
    (sampling : string) :
  sampling = "mw" ∨ sampling = "mwss" →
  1 ≤ L →
  ntheta L sampling = equiang_ntheta L sampling →
  nphi_equiang L sampling = equiang_nphi L sampling →
  ntheta_extension L sampling = equiang_ntheta_extension L sampling →
  (∀ x, length (fft x) = length x) →
  (∀ x, Z.of_nat (length x) = nphi_equiang L sampling → ifft (fft x) = x) →
  Z.of_nat (length f) = ntheta L sampling →
  Forall (λ row, Z.of_nat (length row) = nphi_equiang L sampling) f →
  (f_ext ← periodic_extension ntheta nphi_equiang ntheta_extension fft ifft
             f L spin sampling;
   unextend f_ext L sampling) = Ok f.
Proof.
  intros Hs HL Hnt Hnp Hne Hlen Hinv Hf Hrows.
  set (mo := if bool_decide (sampling = "mwss") then 1 else 0).
  assert (Hmo : mo = 0 ∨ mo = 1) by (unfold mo; case_bool_decide; lia).
  assert (Hnt' : ntheta L sampling = L + mo)
    by (rewrite Hnt; unfold equiang_ntheta, mo; case_bool_decide; lia).
  assert (Hnp' : nphi_equiang L sampling = 2 * L - 1 + mo)
    by (rewrite Hnp; unfold equiang_nphi, mo; case_bool_decide; lia).
  assert (Hne' : ntheta_extension L sampling = 2 * L - 1 + mo)
    by (rewrite Hne; unfold equiang_ntheta_extension, mo; case_bool_decide; lia).
  unfold periodic_extension. fold mo.
  rewrite Hnt', Hne'. set (nphi := nphi_equiang L sampling) in *.
  unfold np_zeros2. cbn [fst snd].
  assert (E : (2 * L - 1 + mo <? 0) || (nphi <? 0) = false)
    by (apply orb_false_iff; split; apply Z.ltb_ge; lia).
  rewrite E.
  cbn [mbind result_bind].
  rewrite Hnt' in Hf.
  rewrite (slice2d_full f (L + mo) nphi) by done.
  rewrite (at_set2d_zeros czero f (2 * L - 1 + mo) (L + mo) nphi)
    by (lia || done).
  cbn [mbind result_bind].
  set (g := λ row : list C, fftshift (fft row)).
  set (E2 := g <$> _).
  match goal with |- context [at_set2d E2 ?r0 ?r1 ?c0 ?c1 ?v] =>
    destruct (at_set2d_Ok E2 r0 r1 c0 c1 v) as [tail Htail] end.
  { assert (HE2len : length E2 = Z.to_nat (2 * L - 1 + mo)).
    { unfold E2. rewrite length_fmap, length_app, length_replicate. lia. }
    assert (HE2rows : ∀ i row, E2 !! i = Some row →
              length row = Z.to_nat (2 * L - 1 + mo)).
    { intros i row Hi. unfold E2 in Hi. rewrite list_lookup_fmap in Hi.
      destruct ((f ++ _) !! i) as [r|] eqn:Hr; [|done].
      simpl in Hi. injection Hi as <-. unfold g.
      rewrite length_fftshift, Hlen.
      apply lookup_app_Some in Hr as [Hr|[_ Hr]].
      - rewrite Forall_lookup in Hrows. specialize (Hrows _ _ Hr). lia.
      - apply lookup_replicate in Hr as [-> _].
        rewrite length_replicate. lia. }
    assert (Hsb1 : slice_bound (length E2) (L + mo) = Z.to_nat (L + mo)).
    { unfold slice_bound. destruct (L + mo <? 0) eqn:E'; lia. }
    assert (Hsb2 : slice_bound (length E2) (2 * L - 1 + mo)
                   = Z.to_nat (2 * L - 1 + mo)).
    { unfold slice_bound. destruct (2 * L - 1 + mo <? 0) eqn:E'; lia. }
    assert (Hsb3 : slice_bound (length E2) mo = Z.to_nat mo).
    { unfold slice_bound. destruct (mo <? 0) eqn:E'; lia. }
    assert (Hsb4 : slice_bound (length E2) (L - 1 + mo) = Z.to_nat (L - 1 + mo)).
    { unfold slice_bound. destruct (L - 1 + mo <? 0) eqn:E'; lia. }
    apply Forall2_same_length_lookup_2.
    - rewrite length_fmap, length_reverse. unfold slice2d.
      rewrite length_fmap. unfold py_slice, view_contents, mk_view.
      cbn [v_off v_len]. rewrite Hsb1, Hsb2, Hsb3, Hsb4.
      rewrite !length_take, !length_drop. lia.
    - intros i arow vrow Ha Hv. cbv beta.
      unfold view_contents in Ha. apply lookup_take_Some in Ha as [Ha _].
      rewrite lookup_drop in Ha. apply HE2rows in Ha.
      rewrite list_lookup_fmap in Hv.
      destruct (reverse _ !! i) as [r|] eqn:Hr; [|done].
      simpl in Hv. injection Hv as <-.
      apply list_elem_of_lookup_2 in Hr. rewrite elem_of_reverse in Hr.
      unfold slice2d in Hr. apply list_elem_of_fmap in Hr as (r0 & -> & Hr0).
      unfold py_slice in Hr0 at 1. unfold view_contents in Hr0.
      apply elem_of_take in Hr0 as (j & Hj & _).
      rewrite lookup_drop in Hj. apply HE2rows in Hj.
      rewrite length_zip_with, length_fmap. unfold py_range.
      rewrite length_seqZ. unfold py_slice, view_contents, mk_view.
      cbn [v_off v_len]. rewrite Hj, Ha, HE2len in *.
      rewrite Hsb2, Hsb3. rewrite length_take, length_drop. lia. }
  rewrite Htail. cbn [mbind result_bind].
  assert (HE2len : length E2 = Z.to_nat (2 * L - 1 + mo)).
  { unfold E2. rewrite length_fmap, length_app, length_replicate. lia. }
  assert (Hsb1 : slice_bound (length E2) (L + mo) = length f).
  { unfold slice_bound. destruct (L + mo <? 0) eqn:E'; lia. }
  rewrite Hsb1. unfold E2. rewrite (fmap_app g).
  rewrite take_app_length' by (by rewrite length_fmap).
  rewrite fmap_app, <- !list_fmap_compose.
  assert (Hid : (λ row : list C, ifft (ifftshift row)) ∘ g <$> f = f).
  { clear -Hrows Hinv. induction Hrows as [|row f' Hrow _ IH]; [done|].
    rewrite fmap_cons, IH. f_equal. unfold g. simpl.
    rewrite ifftshift_fftshift. by apply Hinv. }
  rewrite Hid.
  assert (Hout : ∀ tl : list (list C), py_slice (f ++ tl) 0 (L + mo) = f).
  { intros tl. rewrite py_slice_take by (rewrite length_app; lia).
    rewrite take_app_length'; [done|lia]. }
  unfold unextend. destruct Hs as [-> | ->]; simpl.
  - replace L with (L + mo) at 1 by (unfold mo; simpl; lia). apply f_equal, Hout.
  - replace (L + 1) with (L + mo) by (unfold mo; simpl; lia). apply f_equal, Hout.
Qed.
End resampling_facts.

Lemma length_gauss_dft sign x : length (gauss_dft sign x) = length x.
Proof. unfold gauss_dft. rewrite length_fmap, length_seqZ. lia. Qed.

Lemma gauss_ifft_fft_4 (x : list GaussZ.t) :
  Z.of_nat (length x) = 4 → gauss_ifft (gauss_dft (-1) x) = x.
Proof.
  intros Hx.
  destruct x as [|[a1 a2] [|[b1 b2] [|[c1 c2] [|[d1 d2] [|? ?]]]]];
    simpl in Hx; try lia.
  unfold gauss_ifft. rewrite length_gauss_dft. unfold gauss_dft.
  rewrite !length_fmap, !length_seqZ.
  cbn [length]. change (Z.of_nat 4) with 4. change (Z.of_nat (Z.to_nat 4)) with 4.
  change (seqZ 0 4) with [0; 1; 2; 3].
  cbn [fmap list_fmap imap foldl compose].
  repeat match goal with
  | |- context [gauss_ipow ?e] =>
      let v := eval vm_compute in (gauss_ipow e) in
      change (gauss_ipow e) with v
  end.
  unfold cadd, cmul, czero, GaussZ_scalar, GaussZ.add, GaussZ.mul.
  cbn [fst snd].
  repeat (f_equal; try (symmetry; apply (Z.div_unique _ 4 _ 0); lia)).
Qed.

Lemma unextend_periodic_extension_witness :
  (f_ext ← periodic_extension equiang_ntheta equiang_nphi
             equiang_ntheta_extension (gauss_dft (-1)) gauss_ifft
             sample_field 2 1 "mwss";
   unextend f_ext 2 "mwss") = Ok sample_field.
Proof.
  apply (unextend_periodic_extension equiang_ntheta equiang_nphi
           equiang_ntheta_extension (gauss_dft (-1)) gauss_ifft
           sample_field 2 1 "mwss").
  - by right.
  - lia.
  - reflexivity.
  - reflexivity.
  - reflexivity.
  - apply length_gauss_dft.
  - intros x Hx. apply gauss_ifft_fft_4. exact Hx.
  - reflexivity.
  - repeat constructor.
Defined.

(** ** s2fft/precompute_transforms/construct.py: the reality fallback *)

Lemma getitem_elem_of {A} (l : list A) k x : getitem l k = Ok x → x ∈ l.
Proof.
  unfold getitem. intros H. apply bind_Ok in H as (i & _ & H).
  destruct (l !! i) eqn:E; [|done]. injection H as <-.
  by eapply list_elem_of_lookup_2.
Qed.

Lemma setitem_Ok_inv {A} (l l' : list A) k v :
  setitem l k v = Ok l' → ∃ i, l' = <[i := v]> l.
Proof.
  unfold setitem. intros H. apply bind_Ok in H as (i & _ & H).
  injection H as <-. by exists i.
Qed.

Section assign_facts.
Context {A : Type}.

Lemma row_assign_rows (a a' : list (list A)) t row (m : nat) :
  row_assign a t row = Ok a' →
  Forall (λ r, length r = m) a → Forall (λ r, length r = m) a'.
Proof.
  unfold row_assign. intros H Ha. apply bind_Ok in H as (i & _ & H).
  destruct (a !! i) as [old|] eqn:E; [|done].
  assert (Hold : length old = m)
    by (rewrite Forall_lookup in Ha; eauto).
  destruct (decide (length row = length old)).
  - injection H as <-. apply Forall_insert; [done|congruence].
  - destruct row as [|x [|? ?]]; try done.
    injection H as <-. apply Forall_insert; [done|].
    by rewrite length_replicate.
Qed.

Lemma assign_row3_last_axis (dl dl' : list (list (list A))) t el row (m : nat) :
  last_axis_is m dl → assign_row3 dl t el row = Ok dl' → last_axis_is m dl'.
Proof.
  unfold assign_row3, last_axis_is. intros Hdl H.
  apply bind_Ok in H as (plane & Hp & H).
  apply bind_Ok in H as (plane' & Hp' & H).
  apply setitem_Ok_inv in H as [i ->].
  apply Forall_insert; [done|].
  eapply row_assign_rows; [exact Hp'|].
  apply getitem_elem_of in Hp. rewrite Forall_forall in Hdl. by apply Hdl.
Qed.

Lemma np_full3_last_axis (d0 d1 d2 : Z) (x : A) (dl : list (list (list A))) :
  np_full3 (d0, d1, d2) x = Ok dl → last_axis_is (Z.to_nat d2) dl.
Proof.
  unfold np_full3, last_axis_is.
  destruct ((d0 <? 0) || (d1 <? 0) || (d2 <? 0)); [done|].
  intros [= <-]. apply Forall_replicate, Forall_replicate, length_replicate.
Qed.
End assign_facts.

Section construct_facts.
Context {C : Type} {SC : Scalar C}.

Lemma scale_row3_last_axis (dl dl' : list (list (list C))) t el c (m : nat) :
  last_axis_is m dl → scale_row3 dl t el c = Ok dl' → last_axis_is m dl'.
Proof.
  unfold scale_row3, last_axis_is. intros Hdl H.
  apply bind_Ok in H as (plane & Hp & H).
  apply bind_Ok in H as (row & Hr & H).
  apply bind_Ok in H as (plane' & Hp' & H).
  apply setitem_Ok_inv in H as [i ->].
  apply setitem_Ok_inv in Hp' as [j ->].
  apply getitem_elem_of in Hp, Hr.
  assert (Hplane : Forall (λ row : list C, length row = m) plane)
    by (rewrite Forall_forall in Hdl; by apply Hdl).
  apply Forall_insert; [done|].
  apply Forall_insert; [done|].
  rewrite length_fmap. rewrite Forall_forall in Hplane. by apply Hplane.
Qed.

Lemma einsum_tlm_t_last_axis (dl dl' : list (list (list C))) w (m : nat) :
  last_axis_is m dl → einsum_tlm_t dl w = Ok dl' → last_axis_is m dl'.
Proof.
  unfold einsum_tlm_t, last_axis_is. intros Hdl H.
  destruct (decide (length w = length dl)); [|done]. injection H as <-.
  apply Forall_lookup. intros i plane Hi.
  apply lookup_zip_with_Some in Hi as (p & x & -> & Hp & _).
  rewrite Forall_lookup in Hdl. specialize (Hdl _ _ Hp).
  unfold map2d. apply Forall_fmap. eapply Forall_impl; [exact Hdl|].
  intros row Hrow. simpl. by rewrite length_fmap.
Qed.

Lemma einsum_tlm_tm_last_axis (dl dl' : list (list (list C))) ph (m : nat) :
  last_axis_is m dl → einsum_tlm_tm dl ph = Ok dl' → last_axis_is m dl'.
Proof.
  unfold einsum_tlm_tm, last_axis_is. intros Hdl H.
  case_bool_decide as Hsh; [|done]. injection H as <-.
  apply Forall_lookup. intros i plane Hi.
  apply lookup_zip_with_Some in Hi as (p & x & -> & Hp & Hx).
  pose proof (Forall2_lookup_lr _ _ _ _ _ _ Hsh Hp Hx) as Hpx.
  rewrite Forall_lookup in Hdl. specialize (Hdl _ _ Hp).
  apply Forall_fmap. rewrite Forall_forall in Hdl, Hpx. apply Forall_forall.
  intros row Hrow. simpl. rewrite length_zip_with.
  specialize (Hdl _ Hrow). specialize (Hpx _ Hrow). lia.
Qed.

Variable angle : Type.
Variable thetas : Z → string → option Z → result (list angle).
Variable compute_slice : angle → Z → Z → Z → bool → result (list C).
Variable kernel_norm : Z → C.
Variable quad_weights_transform : Z → string → Z → option Z → result (list C).
Variable ring_phase_shift_hp : Z → Z → option Z → bool → result (list C).

Lemma spin_spherical_kernel_last_axis L spin sampling nside forward dl :
  (spin_spherical_kernel angle thetas compute_slice kernel_norm
     quad_weights_transform ring_phase_shift_hp L spin false sampling nside forward).2 = Ok dl →
  last_axis_is (Z.to_nat (2 * L - 1)) dl.
Proof.
  unfold spin_spherical_kernel. cbn [andb fst snd]. intros H.
  apply bind_Ok in H as ([sampling' thetas_] & _ & H).
  apply bind_Ok in H as (dl0 & H0 & H).
  apply np_full3_last_axis in H0.
  apply bind_Ok in H as (dl1 & H1 & H).
  assert (Hdl1 : last_axis_is (Z.to_nat (2 * L - 1)) dl1).
  { eapply (for_each_inv _ (last_axis_is (Z.to_nat (2 * L - 1))));
      [exact H0| |exact H1].
    intros s [t theta] s1 _ Hs Hbody.
    eapply (for_each_inv _ (last_axis_is (Z.to_nat (2 * L - 1))));
      [exact Hs| |exact Hbody].
    intros s2 el s3 _ Hs2 Hb.
    apply bind_Ok in Hb as (slice & _ & Hb).
    apply bind_Ok in Hb as (s4 & Ha & Hb).
    eapply scale_row3_last_axis; [|exact Hb].
    eapply assign_row3_last_axis; [exact Hs2|exact Ha]. }
  apply bind_Ok in H as (dl2 & H2 & H).
  assert (Hdl2 : last_axis_is (Z.to_nat (2 * L - 1)) dl2).
  { destruct forward.
    - apply bind_Ok in H2 as (w & _ & H2).
      eapply einsum_tlm_t_last_axis; [exact Hdl1|exact H2].
    - by injection H2 as <-. }
  case_bool_decide.
  - apply bind_Ok in H as (ph & _ & H).
    eapply einsum_tlm_tm_last_axis; [exact Hdl2|exact H].
  - by injection H as <-.
Qed.

(** C9: for every [L], sampling, [nside], [forward] flag and every
    [spin <> 0], the call with [reality=True] issues the one warning and does
    not stop there: its outcome is that of the call with [reality=False],
    which issues no warning, and a kernel it returns has rows of the full
    length [2L-1] along the [m] axis. *)
Theorem spin_spherical_kernel_reality_fallback L spin sampling nside forward :
  spin ≠ 0 →
  let real_call := (spin_spherical_kernel angle thetas compute_slice kernel_norm
     quad_weights_transform ring_phase_shift_hp L spin true sampling nside forward) in
  let complex_call := (spin_spherical_kernel angle thetas compute_slice kernel_norm
     quad_weights_transform ring_phase_shift_hp L spin false sampling nside forward) in
  real_call.1 = [reality_warning] ∧
  complex_call.1 = [] ∧
  real_call.2 = complex_call.2 ∧
  ∀ dl, real_call.2 = Ok dl → last_axis_is (Z.to_nat (2 * L - 1)) dl.
Proof.
  intros Hspin real_call complex_call.
  assert (Heq : real_call = ([reality_warning], complex_call.2)).
  { unfold real_call, complex_call, spin_spherical_kernel.
    destruct (Z.eqb_spec spin 0); [done|]. reflexivity. }
  rewrite Heq. cbn [fst snd]. split; [done|]. split; [done|]. split; [done|].
  intros dl. apply spin_spherical_kernel_last_axis.
Qed.
End construct_facts.

Lemma spin_spherical_kernel_reality_fallback_witness :
  let real_call :=
    spin_spherical_kernel Z sample_thetas sample_compute_slice
      sample_kernel_norm sample_quad_weights sample_ring_phase_shift
      2 1 true "mw" None false in
  let complex_call :=
    spin_spherical_kernel Z sample_thetas sample_compute_slice
      sample_kernel_norm sample_quad_weights sample_ring_phase_shift
      2 1 false "mw" None false in
  real_call.1 = [reality_warning] ∧
  complex_call.1 = [] ∧
  real_call.2 = complex_call.2 ∧
  ∀ dl, real_call.2 = Ok dl → last_axis_is (Z.to_nat (2 * 2 - 1)) dl.
Proof.
  apply (spin_spherical_kernel_reality_fallback Z sample_thetas
           sample_compute_slice sample_kernel_norm sample_quad_weights
           sample_ring_phase_shift 2 1 "mw" None false).
  lia.
Defined.

(** * Further properties *)

(** ** s2fft/wigner/samples.py: indexing and packing *)

Lemma for_each_raises {S I} (body : S → I → result S) (Inv : S → Prop)
    (e : exn) (idxs : list I) (s : S) :
  Inv s →
  (∀ s i, i ∈ idxs → Inv s →
     (∃ s1, body s i = Ok s1 ∧ Inv s1) ∨ body s i = Raise e) →
  (∃ i, i ∈ idxs ∧ ∀ s, Inv s → body s i = Raise e) →
  for_each body idxs s = Raise e.
Proof.
  revert s. induction idxs as [|i idxs IH]; intros s Hs Hstep [j [Hj Hbad]].
  - by apply elem_of_nil in Hj.
  - simpl. apply elem_of_cons in Hj as [->|Hj].
    + by rewrite (Hbad s Hs).
    + destruct (Hstep s i ltac:(by left) Hs) as [(s1 & -> & Hs1)| ->];
        [|done].
      simpl. apply IH; [done| |by exists j].
      intros s' i' Hi'. apply Hstep. by right.
Qed.

(** X1: for [L > 0], [elmn2ind] is a bijection from the triples
    [(el, m, n)] with [0 <= el < L], [|m| <= el], [|n| < N] onto the indices
    [0, ..., flmn_shape_1d(L, N) - 1]: it stays in range, no two triples share
    an index, and every index is taken. *)
Theorem elmn2ind_bijection (L N : Z) :
  0 < L →
  (∀ el m n, - N + 1 ≤ n < N → 0 ≤ el < L → - el ≤ m ≤ el →
     0 ≤ elmn2ind el m n L N < flmn_shape_1d L N) ∧
  (∀ el m n el' m' n',
     0 ≤ el < L → - el ≤ m ≤ el → 0 ≤ el' < L → - el' ≤ m' ≤ el' →
     elmn2ind el m n L N = elmn2ind el' m' n' L N →
     el = el' ∧ m = m' ∧ n = n') ∧
  (∀ idx, 0 ≤ idx < flmn_shape_1d L N →
     ∃ el m n, - N + 1 ≤ n < N ∧ 0 ≤ el < L ∧ - el ≤ m ≤ el ∧
               elmn2ind el m n L N = idx).
Proof.
  intros HL. split; [|split].
  - intros el m n. apply elmn2ind_bounds.
  - intros el m n el' m' n' Hel Hm Hel' Hm' Heq.
    destruct (elmn2ind_inj el m n el' m' n' L N) as (-> & -> & ->); done.
  - intros idx Hidx.
    destruct (elmn2ind_decode L N idx Hidx HL) as [(Hn & Hel & Hm) Heq].
    eexists _, _, _. split_and!; try exact Heq; lia.
Qed.

Lemma elmn2ind_bijection_witness :
  (∀ el m n, - 2 + 1 ≤ n < 2 → 0 ≤ el < 3 → - el ≤ m ≤ el →
     0 ≤ elmn2ind el m n 3 2 < flmn_shape_1d 3 2) ∧
  (∀ el m n el' m' n',
     0 ≤ el < 3 → - el ≤ m ≤ el → 0 ≤ el' < 3 → - el' ≤ m' ≤ el' →
     elmn2ind el m n 3 2 = elmn2ind el' m' n' 3 2 →
     el = el' ∧ m = m' ∧ n = n') ∧
  (∀ idx, 0 ≤ idx < flmn_shape_1d 3 2 →
     ∃ el m n, - 2 + 1 ≤ n < 2 ∧ 0 ≤ el < 3 ∧ - el ≤ m ≤ el ∧
               elmn2ind el m n 3 2 = idx).
Proof. apply (elmn2ind_bijection 3 2). lia. Defined.

(** X2: [elmn2ind] follows the flatten priority [n, el, m] of the
    docstrings: a triple that comes first in the lexicographic order of
    [(n, el, m)] has the smaller index. *)
Theorem elmn2ind_flatten_order (L N el m n el' m' n' : Z) :
  0 ≤ el < L → - el ≤ m ≤ el → 0 ≤ el' < L → - el' ≤ m' ≤ el' →
  n < n' ∨ (n = n' ∧ (el < el' ∨ (el = el' ∧ m < m'))) →
  elmn2ind el m n L N < elmn2ind el' m' n' L N.
Proof.
  intros Hel Hm Hel' Hm' Hlt. unfold elmn2ind.
  assert (0 ≤ el * el + el + m < L * L) by nia.
  assert (0 ≤ el' * el' + el' + m' < L * L) by nia.
  destruct Hlt as [Hn|[-> [Hl|[-> Hmm]]]]; nia.
Qed.

Lemma elmn2ind_flatten_order_witness :
  elmn2ind 2 2 (-1) 3 2 < elmn2ind 0 0 0 3 2.
Proof. apply elmn2ind_flatten_order; lia. Defined.

Lemma getitem_Ok_or_IndexError {A} (l : list A) (k : Z) :
  (∃ x, getitem l k = Ok x) ∨ getitem l k = Raise IndexError.
Proof.
  unfold getitem. destruct (norm_index (length l) k) as [i|e] eqn:Hi; simpl.
  - destruct (l !! i); eauto.
  - right. unfold norm_index in Hi.
    repeat case_match; simplify_eq. done.
Qed.

Lemma getitem_nonneg_None {A} (l : list A) (k : Z) :
  0 ≤ k → l !! Z.to_nat k = None → getitem l k = Raise IndexError.
Proof.
  intros Hk Hnone. apply lookup_ge_None in Hnone.
  unfold getitem, norm_index.
  destruct (Z.leb_spec 0 k); [|lia].
  destruct (Z.ltb_spec k (Z.of_nat (length l))); [lia|]. simpl.
  destruct (Z.ltb_spec k 0); [lia|]. by rewrite andb_false_r.
Qed.

Lemma getitem3_Ok_or_IndexError {A} (a : list (list (list A))) (i j k : Z) :
  (∃ x, getitem3 a i j k = Ok x) ∨ getitem3 a i j k = Raise IndexError.
Proof.
  unfold getitem3.
  destruct (getitem_Ok_or_IndexError a i) as [[x ->]| ->]; [|by right].
  simpl. destruct (getitem_Ok_or_IndexError x j) as [[y ->]| ->]; [|by right].
  simpl. apply getitem_Ok_or_IndexError.
Qed.

Lemma getitem3_nonneg_None {A} (a : list (list (list A))) (i j k : Z) :
  0 ≤ i → 0 ≤ j → 0 ≤ k →
  lookup3 a (Z.to_nat i) (Z.to_nat j) (Z.to_nat k) = None →
  getitem3 a i j k = Raise IndexError.
Proof.
  intros Hi Hj Hk Hnone. unfold getitem3, lookup3 in *.
  destruct (a !! Z.to_nat i) as [x|] eqn:Hx; simpl in Hnone.
  - rewrite (getitem_nonneg a i x) by done. simpl.
    destruct (x !! Z.to_nat j) as [y|] eqn:Hy; simpl in Hnone.
    + rewrite (getitem_nonneg x j y) by done. simpl.
      by apply getitem_nonneg_None.
    + by rewrite getitem_nonneg_None.
  - by rewrite getitem_nonneg_None.
Qed.

Section packing_outcomes.
Context {C : Type} {SC : Scalar C}.
Implicit Types (a x : list (list (list C))) (y : list C) (L N : Z).

Lemma flmn_3d_to_1d_present a L N :
  1 ≤ L → 1 ≤ N →
  (∀ n el m, - N + 1 ≤ n < N → 0 ≤ el < L → - el ≤ m ≤ el →
     is_Some (lookup3 a (Z.to_nat el) (Z.to_nat (L - 1 + m)) (Z.to_nat (N - 1 + n)))) →
  ∃ r, flmn_3d_to_1d (Arr3 a) L N = Ok r ∧
       length r = Z.to_nat (flmn_shape_1d L N) ∧
       ∀ n el m, - N + 1 ≤ n < N → 0 ≤ el < L → - el ≤ m ≤ el →
         r !! Z.to_nat (elmn2ind el m n L N) =
         lookup3 a (Z.to_nat el) (Z.to_nat (L - 1 + m)) (Z.to_nat (N - 1 + n)).
Proof.
  intros HL HN Hpresent. rewrite flmn_3d_to_1d_loop.
  unfold np_full. assert (0 ≤ flmn_shape_1d L N) by (unfold flmn_shape_1d; nia).
  destruct (Z.ltb_spec (flmn_shape_1d L N) 0); [lia|]. simpl.
  set (val := λ p : Z * (Z * Z),
         default czero (lookup3 a (Z.to_nat p.2.1) (Z.to_nat (L - 1 + p.2.2))
                          (Z.to_nat (N - 1 + p.1)))).
  set (pos := λ p : Z * (Z * Z), Z.to_nat (elmn2ind p.2.1 p.2.2 p.1 L N)).
  assert (∀ n el m, - N + 1 ≤ n < N → 0 ≤ el < L → - el ≤ m ≤ el →
            lookup3 a (Z.to_nat el) (Z.to_nat (L - 1 + m)) (Z.to_nat (N - 1 + n))
            = Some (val (n, (el, m)))) as Hval.
  { intros n el m Hn Hel Hm. unfold val. simpl.
    destruct (Hpresent n el m Hn Hel Hm) as [v ->]. done. }
  edestruct (for_each_foldl
    (λ flmn_1d (p : Z * (Z * Z)),
       v ← getitem3 a p.2.1 (L - 1 + p.2.2) (N - 1 + p.1);
       setitem flmn_1d (elmn2ind p.2.1 p.2.2 p.1 L N) v)
    (λ s p, <[pos p := val p]> s)
    (λ s, length s = Z.to_nat (flmn_shape_1d L N))
    (flmn_iter L N) (replicate (Z.to_nat (flmn_shape_1d L N)) czero))
    as [Hrun Hlen]; [by rewrite length_replicate| |].
  { intros s [n [el m]] (Hn & Hel & Hm)%elem_of_flmn_iter Hs. simpl.
    split; [|by rewrite length_insert].
    rewrite (getitem3_nonneg a el (L - 1 + m) (N - 1 + n) _ ltac:(lia) ltac:(lia) ltac:(lia)
               (Hval n el m Hn Hel Hm)). simpl.
    pose proof (elmn2ind_bounds el m n L N Hn Hel Hm).
    by rewrite setitem_nonneg by lia. }
  eexists. split; [exact Hrun|]. split; [exact Hlen|].
  intros n el m Hn Hel Hm. rewrite Hval by done.
  pose proof (elmn2ind_bounds el m n L N Hn Hel Hm).
  apply (lookup_foldl_insert_eq pos val _ _ _ (n, (el, m))).
  - by apply elem_of_flmn_iter.
  - done.
  - rewrite length_replicate. lia.
  - intros [n' [el' m']] (Hn' & Hel' & Hm')%elem_of_flmn_iter Hpos.
    unfold pos in Hpos. simpl in Hpos.
    pose proof (elmn2ind_bounds el' m' n' L N Hn' Hel' Hm').
    destruct (elmn2ind_inj el' m' n' el m n L N) as (-> & -> & ->);
      [lia..|done].
Qed.

(** X3: the outcome of [flmn_3d_to_1d] on a three-dimensional array, for
    [L, N >= 1].  If every entry [(el, L-1+m, N-1+n)] of the support exists
    (the array may be larger than [flmn_shape(L, N)]), the call returns the
    flat array of length [flmn_shape_1d(L, N)] holding these entries at
    [elmn2ind(el, m, n)]; if one of them is out of range, the call raises
    [IndexError]. *)
Theorem flmn_3d_to_1d_outcome a L N :
  1 ≤ L → 1 ≤ N →
  ((∀ n el m, - N + 1 ≤ n < N → 0 ≤ el < L → - el ≤ m ≤ el →
      is_Some (lookup3 a (Z.to_nat el) (Z.to_nat (L - 1 + m))
                 (Z.to_nat (N - 1 + n)))) →
   ∃ r, flmn_3d_to_1d (Arr3 a) L N = Ok r ∧
        length r = Z.to_nat (flmn_shape_1d L N) ∧
        ∀ n el m, - N + 1 ≤ n < N → 0 ≤ el < L → - el ≤ m ≤ el →
          r !! Z.to_nat (elmn2ind el m n L N) =
          lookup3 a (Z.to_nat el) (Z.to_nat (L - 1 + m)) (Z.to_nat (N - 1 + n))) ∧
  ((∃ n el m, - N + 1 ≤ n < N ∧ 0 ≤ el < L ∧ - el ≤ m ≤ el ∧
      lookup3 a (Z.to_nat el) (Z.to_nat (L - 1 + m)) (Z.to_nat (N - 1 + n))
      = None) →
   flmn_3d_to_1d (Arr3 a) L N = Raise IndexError).
Proof.
  intros HL HN. split; [by apply flmn_3d_to_1d_present|].
  intros (n & el & m & Hn & Hel & Hm & Hnone).
  rewrite flmn_3d_to_1d_loop.
  unfold np_full. assert (0 ≤ flmn_shape_1d L N) by (unfold flmn_shape_1d; nia).
  destruct (Z.ltb_spec (flmn_shape_1d L N) 0); [lia|]. simpl.
  apply (for_each_raises _ (λ s, length s = Z.to_nat (flmn_shape_1d L N)));
    [by rewrite length_replicate| |].
  - intros s [n' [el' m']] (Hn' & Hel' & Hm')%elem_of_flmn_iter Hs. simpl.
    destruct (getitem3_Ok_or_IndexError a el' (L - 1 + m') (N - 1 + n'))
      as [[v ->]| ->]; [|by right].
    left. simpl.
    pose proof (elmn2ind_bounds el' m' n' L N Hn' Hel' Hm').
    rewrite setitem_nonneg by lia. eexists. split; [done|].
    by rewrite length_insert.
  - exists (n, (el, m)). split; [by apply elem_of_flmn_iter|].
    intros s _. simpl.
    by rewrite getitem3_nonneg_None by (done || lia).
Qed.

(** X5: [flmn_3d_to_1d] reads the support only: two arrays that hold the
    same entries at the positions [(el, L-1+m, N-1+n)], [|m| <= el], are packed
    into the same flat array, whatever they hold elsewhere. *)
Theorem flmn_3d_to_1d_reads_support a b L N :
  1 ≤ L → 1 ≤ N →
  (∀ n el m, - N + 1 ≤ n < N → 0 ≤ el < L → - el ≤ m ≤ el →
     is_Some (lookup3 a (Z.to_nat el) (Z.to_nat (L - 1 + m))
                (Z.to_nat (N - 1 + n))) ∧
     lookup3 a (Z.to_nat el) (Z.to_nat (L - 1 + m)) (Z.to_nat (N - 1 + n)) =
     lookup3 b (Z.to_nat el) (Z.to_nat (L - 1 + m)) (Z.to_nat (N - 1 + n))) →
  ∃ r, flmn_3d_to_1d (Arr3 a) L N = Ok r ∧ flmn_3d_to_1d (Arr3 b) L N = Ok r.
Proof.
  intros HL HN Hab.
  destruct (flmn_3d_to_1d_present a L N HL HN) as (r & Hr & Hlen & Hent).
  { intros n el m Hn Hel Hm. by apply Hab. }
  destruct (flmn_3d_to_1d_present b L N HL HN) as (r' & Hr' & Hlen' & Hent').
  { intros n el m Hn Hel Hm. destruct (Hab n el m Hn Hel Hm) as [Hs <-]. done. }
  exists r. split; [done|]. rewrite Hr'. f_equal.
  apply (list_eq_same_length _ _ (Z.to_nat (flmn_shape_1d L N))); [done..|].
  intros i x x' Hi Hx Hx'.
  destruct (elmn2ind_decode L N (Z.of_nat i) ltac:(lia) ltac:(lia))
    as [(Hn & Hel & Hm) Heq].
  specialize (Hent _ _ _ Hn Hel Hm). specialize (Hent' _ _ _ Hn Hel Hm).
  rewrite Heq, Nat2Z.id in Hent, Hent'.
  destruct (Hab _ _ _ Hn Hel Hm) as [_ Hagree]. congruence.
Qed.
Lemma flmn_1d_to_3d_long_enough y L N :
  1 ≤ L → 1 ≤ N → (Z.to_nat (flmn_shape_1d L N) ≤ length y)%nat →
  ∃ x, flmn_1d_to_3d (Arr1 y) L N = Ok x ∧
       has_shape3 x (Z.to_nat L) (Z.to_nat (2 * L - 1)) (Z.to_nat (2 * N - 1)) ∧
       (∀ n el m, - N + 1 ≤ n < N → 0 ≤ el < L → - el ≤ m ≤ el →
         lookup3 x (Z.to_nat el) (Z.to_nat (L - 1 + m)) (Z.to_nat (N - 1 + n)) =
         y !! Z.to_nat (elmn2ind el m n L N)) ∧
       (∀ i j k : nat, Z.of_nat i < L → Z.of_nat j < 2 * L - 1 →
         Z.of_nat k < 2 * N - 1 →
         ¬ (- Z.of_nat i ≤ Z.of_nat j - (L - 1) ≤ Z.of_nat i) →
         lookup3 x i j k = Some czero).
Proof.
  intros HL HN Hy. rewrite flmn_1d_to_3d_loop.
  unfold np_full3, flmn_shape.
  destruct (Z.ltb_spec L 0); [lia|].
  destruct (Z.ltb_spec (2 * L - 1) 0); [lia|].
  destruct (Z.ltb_spec (2 * N - 1) 0); [lia|]. simpl.
  set (zeros := replicate _ _).
  set (val := λ p : Z * (Z * Z), y !!! Z.to_nat (elmn2ind p.2.1 p.2.2 p.1 L N)).
  set (pos := λ p : Z * (Z * Z),
         (Z.to_nat p.2.1, Z.to_nat (L - 1 + p.2.2), Z.to_nat (N - 1 + p.1))).
  set (get := λ (s : list (list (list C))) (k : nat * nat * nat),
         lookup3 s k.1.1 k.1.2 k.2).
  set (set_ := λ (k : nat * nat * nat) (v : C) (s : list (list (list C))),
         insert3 k.1.1 k.1.2 k.2 v s).
  assert (∀ n el m, - N + 1 ≤ n < N → 0 ≤ el < L → - el ≤ m ≤ el →
            y !! Z.to_nat (elmn2ind el m n L N) = Some (val (n, (el, m)))) as Hval.
  { intros n el m Hn Hel Hm. unfold val. simpl.
    pose proof (elmn2ind_bounds el m n L N Hn Hel Hm).
    apply list_lookup_lookup_total_lt. lia. }
  edestruct (for_each_foldl
    (λ flmn_3d (p : Z * (Z * Z)),
       v ← getitem y (elmn2ind p.2.1 p.2.2 p.1 L N);
       setitem3 flmn_3d p.2.1 (L - 1 + p.2.2) (N - 1 + p.1) v)
    (λ s p, set_ (pos p) (val p) s)
    (λ s, has_shape3 s (Z.to_nat L) (Z.to_nat (2 * L - 1)) (Z.to_nat (2 * N - 1)))
    (flmn_iter L N) zeros)
    as [Hrun Hshape]; [apply has_shape3_replicate| |].
  { intros s [n [el m]] (Hn & Hel & Hm)%elem_of_flmn_iter Hs. simpl.
    split; [|by apply has_shape3_insert3].
    pose proof (elmn2ind_bounds el m n L N Hn Hel Hm).
    rewrite (getitem_nonneg y (elmn2ind el m n L N) _ ltac:(lia) (Hval n el m Hn Hel Hm)). simpl.
    rewrite setitem3_nonneg; [done|lia..|].
    eapply has_shape3_lookup3; [done|lia..]. }
  assert (∀ s k k' v, k ≠ k' → get (set_ k v s) k' = get s k') as Hne.
  { intros s [[i j] k] [[i' j'] k'] v Hkk. unfold get, set_. simpl.
    apply lookup3_insert3_ne. congruence. }
  assert (∀ s k v, is_Some (get s k) → get (set_ k v s) k = Some v) as Heq.
  { intros s [[i j] k] v. unfold get, set_. simpl. apply lookup3_insert3_eq. }
  eexists. split; [exact Hrun|]. split; [exact Hshape|]. split.
  - intros n el m Hn Hel Hm. rewrite Hval by done.
    apply (get_foldl_set_eq get set_ Hne Heq pos val _ _
             (Z.to_nat el, Z.to_nat (L - 1 + m), Z.to_nat (N - 1 + n))
             (n, (el, m))).
    + by apply elem_of_flmn_iter.
    + done.
    + unfold get. simpl. eapply has_shape3_lookup3;
        [apply has_shape3_replicate|lia..].
    + intros [n' [el' m']] (Hn' & Hel' & Hm')%elem_of_flmn_iter Hpos.
      unfold pos in Hpos. simpl in Hpos.
      assert (n' = n ∧ el' = el ∧ m' = m) as (-> & -> & ->); [|done].
      injection Hpos as ???. lia.
  - intros i j k Hi Hj Hk Hoff.
    change (get (foldl (λ s p, set_ (pos p) (val p) s) zeros (flmn_iter L N))
              (i, j, k) = Some czero).
    rewrite (get_foldl_set_ne get set_ Hne).
    + unfold get. simpl. unfold zeros. apply lookup3_replicate; lia.
    + intros [n' [el' m']] (Hn' & Hel' & Hm')%elem_of_flmn_iter Hpos.
      unfold pos in Hpos. simpl in Hpos. injection Hpos as ???. lia.
Qed.

(** X4: the outcome of [flmn_1d_to_3d] on a one-dimensional array, for
    [L, N >= 1].  An array with at least [flmn_shape_1d(L, N)] entries is
    unpacked into a cube of shape [flmn_shape(L, N)] that is zero outside the
    support [|m| <= el] and holds entry [elmn2ind(el, m, n)] at
    [(el, L-1+m, N-1+n)]; a shorter array raises [IndexError]. *)
Theorem flmn_1d_to_3d_outcome y L N :
  1 ≤ L → 1 ≤ N →
  ((Z.to_nat (flmn_shape_1d L N) ≤ length y)%nat →
   ∃ x, flmn_1d_to_3d (Arr1 y) L N = Ok x ∧
        has_shape3 x (Z.to_nat L) (Z.to_nat (2 * L - 1)) (Z.to_nat (2 * N - 1)) ∧
        zero_off_support x L ∧
        ∀ n el m, - N + 1 ≤ n < N → 0 ≤ el < L → - el ≤ m ≤ el →
          lookup3 x (Z.to_nat el) (Z.to_nat (L - 1 + m)) (Z.to_nat (N - 1 + n)) =
          y !! Z.to_nat (elmn2ind el m n L N)) ∧
  ((length y < Z.to_nat (flmn_shape_1d L N))%nat →
   flmn_1d_to_3d (Arr1 y) L N = Raise IndexError).
Proof.
  intros HL HN. split.
  - intros Hlen.
    destruct (flmn_1d_to_3d_long_enough y L N HL HN Hlen)
      as (x & Hx & Hshape & Hent & Hzero).
    exists x. split; [done|]. split; [done|]. split; [|done].
    intros i j k v Hv Hoff.
    destruct (lookup3_Some_shape x _ _ _ i j k v Hshape Hv) as (Hi & Hj & Hk).
    rewrite Hzero in Hv by (done || lia). congruence.
  - intros Hshort. rewrite flmn_1d_to_3d_loop.
    unfold np_full3, flmn_shape.
    destruct (Z.ltb_spec L 0); [lia|].
    destruct (Z.ltb_spec (2 * L - 1) 0); [lia|].
    destruct (Z.ltb_spec (2 * N - 1) 0); [lia|]. simpl.
    apply (for_each_raises _
             (λ s, has_shape3 s (Z.to_nat L) (Z.to_nat (2 * L - 1))
                     (Z.to_nat (2 * N - 1))));
      [apply has_shape3_replicate| |].
    + intros s [n [el m]] (Hn & Hel & Hm)%elem_of_flmn_iter Hs. simpl.
      destruct (getitem_Ok_or_IndexError y (elmn2ind el m n L N))
        as [[v ->]| ->]; [|by right].
      left. simpl. rewrite setitem3_nonneg; [|lia..|].
      * eexists. split; [done|]. by apply has_shape3_insert3.
      * eapply has_shape3_lookup3; [done|lia..].
    + destruct (elmn2ind_decode L N (Z.of_nat (length y)) ltac:(lia) ltac:(lia))
        as [(Hn & Hel & Hm) Heq].
      eexists (_, (_, _)). split; [by apply elem_of_flmn_iter|].
      intros s _. simpl. rewrite Heq.
      rewrite getitem_nonneg_None; [done|lia|].
      rewrite Nat2Z.id. by apply lookup_ge_None.
Qed.

End packing_outcomes.

Lemma flmn_3d_to_1d_outcome_witness :
  (∃ r, flmn_3d_to_1d
          (Arr3 [[[GaussZ.re 9; GaussZ.re 9]; [GaussZ.re 1; GaussZ.re 9];
                  [GaussZ.re 9; GaussZ.re 9]];
                 [[GaussZ.re 2; GaussZ.re 9]; [GaussZ.re 3; GaussZ.re 9];
                  [GaussZ.re 4; GaussZ.re 9]]])
          2 1 = Ok r ∧
        r = [GaussZ.re 1; GaussZ.re 2; GaussZ.re 3; GaussZ.re 4]) ∧
  flmn_3d_to_1d (Arr3 [[[GaussZ.re 0]; [GaussZ.re 1]; [GaussZ.re 0]]]) 2 1
  = Raise IndexError.
Proof.
  split.
  - destruct (flmn_3d_to_1d_outcome
                [[[GaussZ.re 9; GaussZ.re 9]; [GaussZ.re 1; GaussZ.re 9];
                  [GaussZ.re 9; GaussZ.re 9]];
                 [[GaussZ.re 2; GaussZ.re 9]; [GaussZ.re 3; GaussZ.re 9];
                  [GaussZ.re 4; GaussZ.re 9]]]
                2 1 ltac:(lia) ltac:(lia)) as [Hok _].
    destruct Hok as (r & Hr & _).
    + intros n el m Hn Hel Hm. assert (n = 0) as -> by lia.
      assert (el = 0 ∨ el = 1) as [-> | ->] by lia.
      * assert (m = 0) as -> by lia. vm_compute. eauto.
      * assert (m = -1 ∨ m = 0 ∨ m = 1) as [-> | [-> | ->]] by lia;
          vm_compute; eauto.
    + exists r. split; [exact Hr|]. vm_compute in Hr. by injection Hr as <-.
  - eapply (flmn_3d_to_1d_outcome
              [[[GaussZ.re 0]; [GaussZ.re 1]; [GaussZ.re 0]]] 2 1); [lia..|].
    exists 0, 1, 0. split_and!; try lia. reflexivity.
Defined.

Lemma flmn_1d_to_3d_outcome_witness :
  (∃ x, flmn_1d_to_3d (Arr1 (GaussZ.re <$> [1; 2; 3; 4; 5])) 2 1 = Ok x ∧
        zero_off_support x 2) ∧
  flmn_1d_to_3d (Arr1 (GaussZ.re <$> [1; 2; 3])) 2 1 = Raise IndexError.
Proof.
  split.
  - destruct (flmn_1d_to_3d_outcome (GaussZ.re <$> [1; 2; 3; 4; 5]) 2 1
                ltac:(lia) ltac:(lia)) as [Hok _].
    destruct Hok as (x & Hx & _ & Hzero & _); [vm_compute; lia|].
    exists x. split; [exact Hx|exact Hzero].
  - apply (flmn_1d_to_3d_outcome (GaussZ.re <$> [1; 2; 3]) 2 1); [lia..|].
    vm_compute. lia.
Defined.

Lemma flmn_3d_to_1d_reads_support_witness :
  ∃ r, flmn_3d_to_1d (Arr3 [[[GaussZ.re 0]]]) 1 1 = Ok r ∧
       flmn_3d_to_1d (Arr3 [[[GaussZ.re 0; GaussZ.re 7]]]) 1 1 = Ok r.
Proof.
  apply (flmn_3d_to_1d_reads_support [[[GaussZ.re 0]]]
           [[[GaussZ.re 0; GaussZ.re 7]]] 1 1); [lia..|].
  intros n el m Hn Hel Hm.
  assert (n = 0) as -> by lia. assert (el = 0) as -> by lia.
  assert (m = 0) as -> by lia. split; [vm_compute; eauto|reflexivity].
Defined.

(** ** s2fft/healpix_ffts.py: folding and extension *)

Section folding_more.
Context {C : Type} {SC : Scalar C}.
Implicit Types (fm buf : list C) (nphi L : Z).

(** X6: for [1 <= nphi <= 2L] and [fm] of length [nphi],
    [spectral_periodic_extension] returns an array of length [2L] that holds
    [fm] in the window starting at [L - nphi // 2] and is periodic with period
    [nphi]. *)
Theorem spectral_periodic_extension_periodic fm nphi L :
  1 ≤ nphi ≤ 2 * L → length fm = Z.to_nat nphi →
  ∃ out, spectral_periodic_extension fm nphi L = Ok out ∧
    length out = Z.to_nat (2 * L) ∧
    (∀ j, 0 ≤ j < nphi →
       out !! Z.to_nat (L - nphi `div` 2 + j) = fm !! Z.to_nat j) ∧
    (∀ k, 0 ≤ k → k + nphi < 2 * L →
       out !! Z.to_nat (k + nphi) = out !! Z.to_nat k).
Proof.
  intros Hn Hlen. exists (periodic_buffer fm nphi L).
  split; [by apply spectral_periodic_extension_spec|].
  split; [apply length_periodic_buffer|].
  pose proof (slice_start_nonneg nphi L ltac:(lia)) as Hs.
  assert (nphi `div` 2 * 2 ≤ nphi) by (pose proof (Z.mul_div_le nphi 2); lia).
  assert (nphi < (nphi `div` 2 + 1) * 2)
    by (pose proof (Z.mul_succ_div_gt nphi 2); lia).
  split.
  - intros j Hj. rewrite lookup_periodic_buffer by lia.
    replace (L - nphi `div` 2 + j - (L - nphi `div` 2)) with j by lia.
    rewrite Z.mod_small by lia. symmetry.
    apply list_lookup_lookup_total_lt. lia.
  - intros k Hk Hkn. rewrite !lookup_periodic_buffer by lia.
    replace (k + nphi - (L - nphi `div` 2))
      with (k - (L - nphi `div` 2) + 1 * nphi) by lia.
    by rewrite Z.mod_add by lia.
Qed.

(** X7: on a ring of full resolution, [nphi = 2L], both operations are
    the identity: the extension of [fm] is [fm], and folding returns the
    whole of [fm] without changing it. *)
Theorem full_ring_is_identity fm L :
  1 ≤ L → length fm = Z.to_nat (2 * L) →
  spectral_periodic_extension fm (2 * L) L = Ok fm ∧
  spectral_folding fm (2 * L) L = Ok (fm, View 0 (length fm)).
Proof.
  intros HL Hlen.
  assert (Hs : L - (2 * L) `div` 2 = 0)
    by (rewrite (Z.mul_comm 2 L), Z.div_mul by lia; lia).
  split.
  - rewrite spectral_periodic_extension_spec by (lia || done). f_equal.
    apply (list_eq_same_length _ _ (Z.to_nat (2 * L)));
      [done|apply length_periodic_buffer|].
    intros i x y Hi Hx Hy.
    rewrite <- (Nat2Z.id i), lookup_periodic_buffer in Hx by lia.
    rewrite Hs, Z.sub_0_r, Z.mod_small, Nat2Z.id in Hx by lia.
    rewrite (list_lookup_total_correct _ _ _ Hy) in Hx. congruence.
  - rewrite spectral_folding_spec by lia. rewrite Hs. f_equal. f_equal.
    + unfold outside_bins. rewrite Hs. simpl.
      replace (Z.of_nat (length fm) - (0 + 2 * L)) with 0 by lia. done.
    + f_equal. lia.
Qed.

(** X8: ring sizes outside the intended range.  For [nphi > 2L] both
    functions stop at their assertion; for [nphi = 0] (and [L >= 1]) the first
    index computation [-1 % nphi] raises [ZeroDivisionError]. *)
Theorem degenerate_ring_sizes fm L :
  (∀ nphi, 2 * L < nphi →
     spectral_folding fm nphi L = Raise AssertionError ∧
     spectral_periodic_extension fm nphi L = Raise AssertionError) ∧
  (1 ≤ L →
     spectral_folding fm 0 L = Raise ZeroDivisionError ∧
     ((length fm ≤ 1)%nat →
        spectral_periodic_extension fm 0 L = Raise ZeroDivisionError)).
Proof.
  split.
  - intros nphi Hn. unfold spectral_folding, spectral_periodic_extension.
    destruct (Z.leb_spec nphi (2 * L)); [lia|]. done.
  - intros HL. unfold spectral_folding, spectral_periodic_extension.
    destruct (Z.leb_spec 0 (2 * L)); [|lia]. simpl.
    change (0 `div` 2) with 0. rewrite Z.sub_0_r.
    assert (Hseq : seqZ 1 L = 1 :: seqZ 2 (L - 1)).
    { rewrite (seqZ_cons 1 L) by lia. done. }
    rewrite Hseq. split; [done|].
    intros Hlen. unfold np_full.
    destruct (Z.ltb_spec (2 * L) 0); [lia|]. simpl.
    unfold slice_assign, mk_view. simpl.
    replace (slice_bound (length (replicate (Z.to_nat (2 * L)) czero)) (L + 0)
             - slice_bound (length (replicate (Z.to_nat (2 * L)) czero)) L)%nat
      with 0%nat by (rewrite Z.add_0_r; lia).
    destruct fm as [|x [|? ?]]; simpl in *; try lia; done.
Qed.
End folding_more.

Lemma spectral_periodic_extension_periodic_witness :
  ∃ out, spectral_periodic_extension (GaussZ.re <$> [1; 2; 3]) 3 4 = Ok out ∧
    length out = Z.to_nat (2 * 4) ∧
    (∀ j, 0 ≤ j < 3 →
       out !! Z.to_nat (4 - 3 `div` 2 + j) = (GaussZ.re <$> [1; 2; 3]) !! Z.to_nat j) ∧
    (∀ k, 0 ≤ k → k + 3 < 2 * 4 →
       out !! Z.to_nat (k + 3) = out !! Z.to_nat k).
Proof.
  apply (spectral_periodic_extension_periodic (GaussZ.re <$> [1; 2; 3]) 3 4);
    [lia|reflexivity].
Defined.

Lemma full_ring_is_identity_witness :
  spectral_periodic_extension (GaussZ.re <$> [1; 2; 3; 4]) (2 * 2) 2
    = Ok (GaussZ.re <$> [1; 2; 3; 4]) ∧
  spectral_folding (GaussZ.re <$> [1; 2; 3; 4]) (2 * 2) 2
    = Ok (GaussZ.re <$> [1; 2; 3; 4], View 0 (length (GaussZ.re <$> [1; 2; 3; 4]))).
Proof.
  apply (full_ring_is_identity (GaussZ.re <$> [1; 2; 3; 4]) 2); [lia|reflexivity].
Defined.

Lemma degenerate_ring_sizes_witness :
  (spectral_folding (GaussZ.re <$> [1; 2; 3; 4]) 5 2 = Raise AssertionError ∧
   spectral_periodic_extension (GaussZ.re <$> [1; 2; 3; 4]) 5 2
     = Raise AssertionError) ∧
  spectral_folding (GaussZ.re <$> [1; 2; 3; 4]) 0 2 = Raise ZeroDivisionError.
Proof.
  destruct (degenerate_ring_sizes (GaussZ.re <$> [1; 2; 3; 4]) 2) as [Ha Hz].
  split; [apply Ha; lia|]. apply Hz. lia.
Defined.

Section sum_facts.
Context {C : Type} {SC : Scalar C}.
Implicit Types (l fm buf : list C) (nphi L : Z).

Lemma csum_nil : csum [] = czero :> C.
Proof. done. Qed.

Lemma csum_cons (x : C) l : csum (x :: l) = cadd x (csum l).
Proof. done. Qed.

Lemma csum_app l1 l2 : csum (l1 ++ l2) = cadd (csum l1) (csum l2).
Proof.
  induction l1 as [|x l1 IH].
  - by rewrite app_nil_l, csum_nil, cadd_zero_l.
  - by rewrite <- app_comm_cons, !csum_cons, IH, cadd_assoc.
Qed.

Lemma csum_reverse l : csum (reverse l) = csum l.
Proof.
  induction l as [|x l IH]; [done|].
  rewrite reverse_cons, csum_app, IH, !csum_cons, csum_nil.
  by rewrite cadd_zero_r, cadd_comm.
Qed.

Lemma csum_alter l (i : nat) (v : C) :
  (i < length l)%nat →
  csum (alter (λ x, cadd x v) i l) = cadd (csum l) v.
Proof.
  revert i. induction l as [|x l IH]; intros [|i] Hi; simpl in Hi; try lia.
  - change (alter (λ x, cadd x v) 0%nat (x :: l)) with (cadd x v :: l).
    rewrite !csum_cons.
    by rewrite <- !cadd_assoc, (cadd_comm v).
  - change (alter (λ x, cadd x v) (S i) (x :: l))
      with (x :: alter (λ x, cadd x v) i l).
    rewrite !csum_cons, IH by lia. by rewrite cadd_assoc.
Qed.

Lemma fmap_lookup_total_seqZ fm (a n : Z) :
  0 ≤ a → 0 ≤ n → a + n ≤ Z.of_nat (length fm) →
  (λ k, fm !!! Z.to_nat k) <$> seqZ a n = take (Z.to_nat n) (drop (Z.to_nat a) fm).
Proof.
  intros Ha Hn Hlen.
  apply (list_eq_same_length _ _ (Z.to_nat n)).
  - rewrite length_take, length_drop. lia.
  - by rewrite length_fmap, length_seqZ.
  - intros i x y Hi Hx Hy.
    rewrite list_lookup_fmap, lookup_seqZ_lt in Hx by lia. simpl in Hx.
    rewrite lookup_take_lt, lookup_drop in Hy by lia.
    replace (Z.to_nat (a + Z.of_nat i)) with (Z.to_nat a + i)%nat in Hx by lia.
    rewrite (list_lookup_total_correct _ _ _ Hy) in Hx. congruence.
Qed.

Lemma csum_window_fold fm nphi L (ks : list Z) buf :
  let slice_start := L - nphi `div` 2 in
  1 ≤ nphi → 0 ≤ slice_start → slice_start + nphi ≤ Z.of_nat (length buf) →
  csum (take (Z.to_nat nphi)
          (drop (Z.to_nat slice_start) (foldl (fold_step fm nphi L) buf ks)))
  = cadd (csum (take (Z.to_nat nphi) (drop (Z.to_nat slice_start) buf)))
         (csum ((λ k, fm !!! Z.to_nat k) <$> ks)).
Proof.
  intros slice_start Hn Hs. revert buf.
  induction ks as [|k ks IH]; intros buf Hlen.
  - rewrite fmap_nil, csum_nil. cbn [foldl]. by rewrite cadd_zero_r.
  - rewrite fmap_cons, csum_cons. cbn [foldl].
    rewrite IH by (by rewrite length_fold_step).
    rewrite cadd_assoc. f_equal.
    unfold fold_step. fold slice_start.
    pose proof (Z.mod_pos_bound (k - slice_start) nphi ltac:(lia)).
    rewrite drop_alter_ge by lia.
    rewrite take_alter_lt by lia.
    apply csum_alter. rewrite length_take, length_drop. lia.
Qed.

(** X9: folding conserves the sum of the coefficients: the [nphi]
    entries returned by [spectral_folding] add up to the sum of all the
    entries of [fm]. *)
Theorem spectral_folding_conserves_sum fm nphi L :
  1 ≤ nphi ≤ 2 * L →
  L - nphi `div` 2 + nphi ≤ Z.of_nat (length fm) →
  ∃ buf w, spectral_folding fm nphi L = Ok (buf, w) ∧
    length (view_contents buf w) = Z.to_nat nphi ∧
    csum (view_contents buf w) = csum fm.
Proof.
  intros Hn Hlen.
  pose proof (slice_start_nonneg nphi L ltac:(lia)) as Hs.
  rewrite spectral_folding_spec by done.
  eexists _, _. split; [done|]. unfold view_contents. cbn [v_off v_len].
  set (s := L - nphi `div` 2) in *.
  split.
  { rewrite length_take, length_drop, length_foldl_fold_step. lia. }
  rewrite (csum_window_fold fm nphi L) by (done || lia). fold s.
  unfold outside_bins. fold s.
  rewrite fmap_app, fmap_reverse, csum_app, csum_reverse.
  rewrite (fmap_lookup_total_seqZ fm 0 s) by lia.
  rewrite (fmap_lookup_total_seqZ fm (s + nphi)) by lia.
  rewrite drop_0.
  set (A := csum (take (Z.to_nat s) fm)).
  set (W := csum (take (Z.to_nat nphi) (drop (Z.to_nat s) fm))).
  set (B := csum (take _ (drop (Z.to_nat (s + nphi)) fm))).
  assert (Hfm : csum fm = cadd A (cadd W B)).
  { rewrite <- (take_drop (Z.to_nat s) fm) at 1.
    rewrite <- (take_drop (Z.to_nat nphi) (drop (Z.to_nat s) fm)) at 1.
    rewrite !csum_app, drop_drop. fold A W. unfold B. do 3 f_equal.
    replace (Z.to_nat s + Z.to_nat nphi)%nat with (Z.to_nat (s + nphi)) by lia.
    symmetry. apply firstn_all2. rewrite length_drop. lia. }
  rewrite Hfm.
  by rewrite !cadd_assoc, (cadd_comm W A).
Qed.
End sum_facts.

Section linear_facts.
Context {C : Type} {SC : Scalar C}.
Implicit Types (x y fm buf : list C) (nphi L : Z).

Lemma lookup_total_zip_cadd x y (i : nat) :
  length x = length y →
  zip_with cadd x y !!! i = cadd (x !!! i) (y !!! i).
Proof.
  intros Hlen. destruct (x !! i) as [a|] eqn:Ha.
  - destruct (y !! i) as [b|] eqn:Hb.
    + rewrite (list_lookup_total_correct _ _ _ Ha),
        (list_lookup_total_correct _ _ _ Hb).
      apply list_lookup_total_correct, lookup_zip_with_Some. eauto.
    + apply lookup_lt_Some in Ha. apply lookup_ge_None in Hb. lia.
  - pose proof Ha as Hge. apply lookup_ge_None in Hge.
    rewrite !list_lookup_total_alt, Ha.
    rewrite (proj2 (lookup_ge_None y i)) by lia.
    rewrite (proj2 (lookup_ge_None (zip_with cadd x y) i))
      by (rewrite length_zip_with; lia).
    simpl. by rewrite cadd_zero_l.
Qed.

Lemma lookup_total_fmap_cmul (c : C) x (i : nat) :
  (cmul c <$> x) !!! i = cmul c (x !!! i).
Proof.
  rewrite !list_lookup_total_alt, list_lookup_fmap.
  destruct (x !! i); simpl; [done|].
  by rewrite cmul_comm, cmul_zero_l.
Qed.

Lemma zip_cadd_alter (bx by_ : list C) (p : nat) (a b : C) :
  zip_with cadd (alter (λ v, cadd v a) p bx) (alter (λ v, cadd v b) p by_)
  = alter (λ v, cadd v (cadd a b)) p (zip_with cadd bx by_).
Proof.
  revert by_ p. induction bx as [|u bx IH]; intros [|v by_] [|p]; simpl; try done.
  - f_equal. rewrite !cadd_assoc. f_equal.
    by rewrite <- !cadd_assoc, (cadd_comm a v).
  - f_equal. apply IH.
Qed.

Lemma fold_steps_additive x y nphi L (ks : list Z) (bx by_ : list C) :
  length x = length y →
  foldl (fold_step (zip_with cadd x y) nphi L) (zip_with cadd bx by_) ks
  = zip_with cadd (foldl (fold_step x nphi L) bx ks)
                  (foldl (fold_step y nphi L) by_ ks).
Proof.
  intros Hlen. revert bx by_.
  induction ks as [|k ks IH]; intros bx by_; [done|].
  cbn [foldl]. rewrite <- IH. f_equal.
  unfold fold_step. rewrite zip_cadd_alter. by rewrite lookup_total_zip_cadd.
Qed.

Lemma fold_steps_homogeneous (c : C) x nphi L (ks : list Z) (bx : list C) :
  foldl (fold_step (cmul c <$> x) nphi L) (cmul c <$> bx) ks
  = cmul c <$> foldl (fold_step x nphi L) bx ks.
Proof.
  revert bx. induction ks as [|k ks IH]; intros bx; [done|].
  cbn [foldl]. rewrite <- IH. f_equal.
  unfold fold_step. symmetry. apply list_fmap_alter.
  apply Forall_forall. intros v _.
  by rewrite cmul_add_distr_l, lookup_total_fmap_cmul.
Qed.

(** X10: [spectral_folding] is linear: the buffer left by folding
    [x + y] is the sum of the buffers left by folding [x] and [y], and the
    buffer left by folding [c * x] is [c] times the one left by folding
    [x]. *)
Theorem spectral_folding_linear x y (c : C) nphi L :
  1 ≤ nphi ≤ 2 * L →
  L - nphi `div` 2 + nphi ≤ Z.of_nat (length x) →
  length x = length y →
  ∃ bx by_ w,
    spectral_folding x nphi L = Ok (bx, w) ∧
    spectral_folding y nphi L = Ok (by_, w) ∧
    spectral_folding (zip_with cadd x y) nphi L = Ok (zip_with cadd bx by_, w) ∧
    spectral_folding (cmul c <$> x) nphi L = Ok (cmul c <$> bx, w).
Proof.
  intros Hn Hlen Hxy.
  rewrite !spectral_folding_spec
    by (rewrite ?length_zip_with, ?length_fmap; lia).
  rewrite length_zip_with, length_fmap, <- Hxy, Nat.min_id.
  eexists _, _, _. split; [done|]. split; [done|].
  split; f_equal; f_equal.
  - by apply fold_steps_additive.
  - apply fold_steps_homogeneous.
Qed.
End linear_facts.

Lemma spectral_folding_conserves_sum_witness :
  ∃ buf w, spectral_folding (GaussZ.re <$> [1; 2; 3; 4; 5; 6]) 4 3 = Ok (buf, w) ∧
    length (view_contents buf w) = Z.to_nat 4 ∧
    csum (view_contents buf w) = csum (GaussZ.re <$> [1; 2; 3; 4; 5; 6]).
Proof.
  apply (spectral_folding_conserves_sum (GaussZ.re <$> [1; 2; 3; 4; 5; 6]) 4 3);
    [lia|]. vm_compute. discriminate.
Defined.

Lemma spectral_folding_linear_witness :
  ∃ bx by_ w,
    spectral_folding (GaussZ.re <$> [1; 2; 3; 4]) 2 2 = Ok (bx, w) ∧
    spectral_folding (GaussZ.im <$> [4; 3; 2; 1]) 2 2 = Ok (by_, w) ∧
    spectral_folding
      (zip_with cadd (GaussZ.re <$> [1; 2; 3; 4]) (GaussZ.im <$> [4; 3; 2; 1])) 2 2
    = Ok (zip_with cadd bx by_, w) ∧
    spectral_folding (cmul (GaussZ.im 1) <$> (GaussZ.re <$> [1; 2; 3; 4])) 2 2
    = Ok (cmul (GaussZ.im 1) <$> bx, w).
Proof.
  apply (spectral_folding_linear (GaussZ.re <$> [1; 2; 3; 4])
           (GaussZ.im <$> [4; 3; 2; 1]) (GaussZ.im 1) 2 2);
    [lia| |reflexivity]. vm_compute. discriminate.
Defined.

(** ** s2fft/precompute_transforms/construct.py: the kernels *)

Lemma elem_of_py_enumerate {A} (l : list A) (t : Z) (x : A) :
  (t, x) ∈ py_enumerate l ↔ 0 ≤ t ∧ l !! Z.to_nat t = Some x.
Proof.
  unfold py_enumerate. rewrite list_elem_of_lookup. split.
  - intros [i Hi]. rewrite list_lookup_imap in Hi.
    destruct (l !! i) eqn:E; simplify_eq/=. split; [lia|].
    by rewrite Nat2Z.id.
  - intros [Ht Hx]. exists (Z.to_nat t). rewrite list_lookup_imap, Hx. simpl.
    by rewrite Z2Nat.id.
Qed.

Lemma row_assign_inv {A} (a a' : list (list A)) (t : Z) (row : list A) :
  0 ≤ t → row_assign a t row = Ok a' →
  ∃ old new, a !! Z.to_nat t = Some old ∧ length new = length old ∧
             (length row = length old → new = row) ∧
             a' = <[Z.to_nat t := new]> a.
Proof.
  intros Ht. unfold row_assign, norm_index.
  destruct (Z.leb_spec 0 t); [|lia].
  destruct (Z.ltb_spec t (Z.of_nat (length a))); simpl.
  - destruct (a !! Z.to_nat t) as [old|] eqn:E; [|done].
    destruct (decide (length row = length old)).
    + intros [= <-]. exists old, row. done.
    + destruct row as [|x [|? ?]]; try done. intros [= <-].
      exists old, (replicate (length old) x).
      split; [done|]. split; [by rewrite length_replicate|]. done.
  - destruct (Z.ltb_spec t 0); [lia|]. by rewrite andb_false_r.
Qed.


Lemma assign_row3_inv {A} (dl dl' : list (list (list A))) (t el : Z) (row : list A) :
  0 ≤ t → 0 ≤ el → assign_row3 dl t el row = Ok dl' →
  ∃ plane old new,
    dl !! Z.to_nat t = Some plane ∧ plane !! Z.to_nat el = Some old ∧
    length new = length old ∧
    dl' = <[Z.to_nat t := <[Z.to_nat el := new]> plane]> dl.
Proof.
  intros Ht Hel H. unfold assign_row3 in H.
  apply bind_Ok in H as (plane & Hp & H).
  apply bind_Ok in H as (plane' & Hp' & H).
  apply getitem_nonneg_inv in Hp; [|done].
  apply row_assign_inv in Hp' as (old & new & Hold & Hlen & _ & ->); [|done].
  apply setitem_nonneg_inv in H as [-> _]; [|done].
  by exists plane, old, new.
Qed.

Lemma has_shape3_insert_row {A} (dl : list (list (list A))) (d0 d1 d2 t el : nat)
    (plane : list (list A)) (old new : list A) :
  has_shape3 dl d0 d1 d2 →
  dl !! t = Some plane → plane !! el = Some old → length new = length old →
  has_shape3 (<[t := <[el := new]> plane]> dl) d0 d1 d2.
Proof.
  intros [Hlen Hall] Hp Hold Hnew. split; [by rewrite length_insert|].
  apply Forall_insert; [done|].
  rewrite Forall_lookup in Hall. destruct (Hall _ _ Hp) as [Hpl Hrows].
  split; [by rewrite length_insert|].
  apply Forall_insert; [done|].
  rewrite Forall_lookup in Hrows. rewrite Hnew. by eapply Hrows.
Qed.

Lemma lookup3_insert_row_ne {A} (dl : list (list (list A))) (t el t' el' m : nat)
    (plane : list (list A)) (new : list A) :
  dl !! t = Some plane → el' ≠ el →
  lookup3 (<[t := <[el := new]> plane]> dl) t' el' m = lookup3 dl t' el' m.
Proof.
  intros Hp Hne. unfold lookup3.
  destruct (decide (t' = t)) as [->|Ht].
  - rewrite list_lookup_insert_eq by (by eapply lookup_lt_Some).
    rewrite Hp. cbn [mbind option_bind].
    by rewrite (list_lookup_insert_ne plane el el') by done.
  - by rewrite (list_lookup_insert_ne dl t t') by done.
Qed.

Section construct_more.
Context {C : Type} {SC : Scalar C}.
Variable angle : Type.
Variable thetas : Z → string → option Z → result (list angle).
Variable compute_slice : angle → Z → Z → Z → bool → result (list C).
Variable kernel_norm : Z → C.
Variable quad_weights_transform : Z → string → Z → option Z → result (list C).
Variable ring_phase_shift_hp : Z → Z → option Z → bool → result (list C).

(** X11: [healpix_phase_shifts] stacks the ring phase shifts: when
    [samples.thetas] returns [ths] and [ring_phase_shift_hp] returns a row of
    length [2L-1] for every ring, the result is the array of these rows, one
    for each ring in order. *)
Theorem healpix_phase_shifts_rows (L : Z) (nside : option Z) (forward : bool)
    (ths : list angle) (rows : Z → list C) :
  1 ≤ L →
  thetas L "healpix" nside = Ok ths →
  (∀ t, 0 ≤ t < Z.of_nat (length ths) →
     ring_phase_shift_hp L t nside forward = Ok (rows t) ∧
     length (rows t) = Z.to_nat (2 * L - 1)) →
  healpix_phase_shifts angle thetas ring_phase_shift_hp L nside forward
  = Ok (rows <$> seqZ 0 (Z.of_nat (length ths))).
Proof.
  intros HL Hths Hrows. unfold healpix_phase_shifts. rewrite Hths. simpl.
  unfold np_zeros2. cbn [fst snd].
  destruct (Z.ltb_spec (Z.of_nat (length ths)) 0); [lia|].
  destruct (Z.ltb_spec (2 * L - 1) 0); [lia|]. simpl.
  rewrite Nat2Z.id.
  set (zeros := replicate (length ths) _).
  edestruct (for_each_foldl
    (λ (phase_array : list (list C)) '(t, theta),
       row ← ring_phase_shift_hp L t nside forward;
       row_assign phase_array t row)
    (λ s (p : Z * angle), <[Z.to_nat p.1 := rows p.1]> s)
    (λ s, length s = length ths ∧
          Forall (λ r, length r = Z.to_nat (2 * L - 1)) s)
    (py_enumerate ths) zeros) as [Hrun [Hlen _]].
  { split; [apply length_replicate|].
    apply Forall_replicate, length_replicate. }
  { intros s [t theta] [Ht Hth]%elem_of_py_enumerate [Hs Hrs].
    apply lookup_lt_Some in Hth.
    destruct (Hrows t ltac:(lia)) as [Hr Hrl]. rewrite Hr. simpl.
    split.
    - unfold row_assign. rewrite norm_index_nonneg by lia. simpl.
      destruct (lookup_lt_is_Some_2 s (Z.to_nat t) ltac:(lia)) as [old Hold].
      rewrite Hold. rewrite Forall_lookup in Hrs.
      rewrite decide_True; [done|]. rewrite (Hrs _ _ Hold). done.
    - split; [by rewrite length_insert|]. by apply Forall_insert. }
  rewrite Hrun. f_equal.
  apply (list_eq_same_length _ _ (length ths));
    [by rewrite length_fmap, length_seqZ; lia|done|].
  intros i x y Hi Hx Hy.
  rewrite list_lookup_fmap, lookup_seqZ_lt in Hy by lia. simpl in Hy.
  destruct (lookup_lt_is_Some_2 ths i Hi) as [theta Hth].
  rewrite (lookup_foldl_insert_eq (λ p : Z * angle, Z.to_nat p.1)
             (λ p : Z * angle, rows p.1) _ _ i (Z.of_nat i, theta)) in Hx.
  - simpl in Hx. rewrite Z.add_0_l in Hy. congruence.
  - apply elem_of_py_enumerate. rewrite Nat2Z.id. split; [lia|done].
  - simpl. lia.
  - unfold zeros. rewrite length_replicate. done.
  - intros [t' th'] [Ht' _]%elem_of_py_enumerate Hpos. simpl in *.
    f_equal. lia.
Qed.

Lemma scale_row3_inv (dl dl' : list (list (list C))) (t el : Z) (c : C) :
  0 ≤ t → 0 ≤ el → scale_row3 dl t el c = Ok dl' →
  ∃ plane row,
    dl !! Z.to_nat t = Some plane ∧ plane !! Z.to_nat el = Some row ∧
    dl' = <[Z.to_nat t := <[Z.to_nat el := (λ x, cmul x c) <$> row]> plane]> dl.
Proof.
  intros Ht Hel H. unfold scale_row3 in H.
  apply bind_Ok in H as (plane & Hp & H).
  apply bind_Ok in H as (row & Hr & H).
  apply bind_Ok in H as (plane' & Hp' & H).
  apply getitem_nonneg_inv in Hp; [|done].
  apply getitem_nonneg_inv in Hr; [|done].
  apply setitem_nonneg_inv in Hp' as [-> _]; [|done].
  apply setitem_nonneg_inv in H as [-> _]; [|done].
  by exists plane, row.
Qed.

Lemma has_shape3_einsum_tlm_t (dl dl' : list (list (list C))) w d0 d1 d2 :
  has_shape3 dl d0 d1 d2 → einsum_tlm_t dl w = Ok dl' → has_shape3 dl' d0 d1 d2.
Proof.
  unfold einsum_tlm_t. intros [Hlen Hall] H.
  destruct (decide (length w = length dl)); [|done]. injection H as <-.
  split; [rewrite length_zip_with; lia|].
  apply Forall_lookup. intros i plane Hi.
  apply lookup_zip_with_Some in Hi as (p & x & -> & Hp & _).
  rewrite Forall_lookup in Hall. destruct (Hall _ _ Hp) as [Hpl Hrows].
  unfold map2d. split; [by rewrite length_fmap|].
  apply Forall_fmap. eapply Forall_impl; [exact Hrows|].
  intros row Hrow. simpl. by rewrite length_fmap.
Qed.

Lemma has_shape3_einsum_tlm_tm (dl dl' : list (list (list C))) ph d0 d1 d2 :
  has_shape3 dl d0 d1 d2 → einsum_tlm_tm dl ph = Ok dl' → has_shape3 dl' d0 d1 d2.
Proof.
  unfold einsum_tlm_tm. intros [Hlen Hall] H.
  case_bool_decide as Hsh; [|done]. injection H as <-.
  pose proof (Forall2_length _ _ _ Hsh) as Hl.
  split; [rewrite length_zip_with; lia|].
  apply Forall_lookup. intros i plane Hi.
  apply lookup_zip_with_Some in Hi as (p & x & -> & Hp & Hx).
  pose proof (Forall2_lookup_lr _ _ _ _ _ _ Hsh Hp Hx) as Hpx.
  rewrite Forall_lookup in Hall. destruct (Hall _ _ Hp) as [Hpl Hrows].
  split; [by rewrite length_fmap|].
  apply Forall_fmap. rewrite Forall_forall in Hrows, Hpx. apply Forall_forall.
  intros row Hrow. simpl. rewrite length_zip_with.
  specialize (Hrows _ Hrow). specialize (Hpx _ Hrow). lia.
Qed.

(** X12: a kernel returned by [spin_spherical_kernel] has shape
    [(len(thetas), L, m_dim)], where [thetas] are the colatitudes the call
    asked for and [m_dim] is [L] only for [reality=True] with [spin = 0], and
    [2L-1] otherwise. *)
Theorem spin_spherical_kernel_shape (L spin : Z) (reality : bool)
    (sampling : string) (nside : option Z) (forward : bool)
    (dl : list (list (list C))) :
  (spin_spherical_kernel angle thetas compute_slice kernel_norm
     quad_weights_transform ring_phase_shift_hp
     L spin reality sampling nside forward).2 = Ok dl →
  ∃ ths,
    (if forward && bool_decide (py_lower sampling ∈ ["mw"; "mwss"])
     then thetas (2 * L) "mwss" None else thetas L sampling nside) = Ok ths ∧
    has_shape3 dl (length ths) (Z.to_nat L)
      (Z.to_nat (if reality && (spin =? 0) then L else 2 * L - 1)).
Proof.
  unfold spin_spherical_kernel.
  set (reality' := reality && (spin =? 0)).
  assert (Hre : (if reality && negb (spin =? 0)
                 then (false, [reality_warning]) else (reality, []))
                = (reality', if reality && negb (spin =? 0)
                             then [reality_warning] else [])).
  { unfold reality'. by destruct reality, (spin =? 0). }
  rewrite Hre. cbn [fst snd]. clear Hre.
  set (m_dim := if reality' then L else 2 * L - 1).
  intros H.
  apply bind_Ok in H as ([sampling' ths] & Hths & H).
  exists ths. split.
  { destruct (forward && _).
    - apply bind_Ok in Hths as (th & -> & [= _ <-]). done.
    - apply bind_Ok in Hths as (th & -> & [= _ <-]). done. }
  apply bind_Ok in H as (dl0 & H0 & H).
  assert (Hdl0 : has_shape3 dl0 (length ths) (Z.to_nat L) (Z.to_nat m_dim)).
  { unfold np_full3 in H0.
    destruct (_ || _); [done|]. injection H0 as <-.
    rewrite Nat2Z.id. apply has_shape3_replicate. }
  apply bind_Ok in H as (dl1 & H1 & H).
  assert (Hdl1 : has_shape3 dl1 (length ths) (Z.to_nat L) (Z.to_nat m_dim)).
  { eapply (for_each_inv _
      (λ s, has_shape3 s (length ths) (Z.to_nat L) (Z.to_nat m_dim)));
      [exact Hdl0| |exact H1].
    intros s [t theta] s1 [Ht _]%elem_of_py_enumerate Hs Hbody.
    eapply (for_each_inv _
      (λ s, has_shape3 s (length ths) (Z.to_nat L) (Z.to_nat m_dim)));
      [exact Hs| |exact Hbody].
    intros s2 el s3 Hel Hs2 Hb.
    assert (0 ≤ el).
    { unfold py_range in Hel. apply elem_of_seqZ in Hel. lia. }
    apply bind_Ok in Hb as (slice & _ & Hb).
    apply bind_Ok in Hb as (s4 & Ha & Hb).
    apply assign_row3_inv in Ha as (plane & old & new & Hp & Hold & Hnew & ->);
      [|done..].
    pose proof (has_shape3_insert_row _ _ _ _ _ _ _ _ _ Hs2 Hp Hold Hnew) as Hs4.
    apply scale_row3_inv in Hb as (plane' & row & Hp' & Hrow & ->); [|done..].
    eapply has_shape3_insert_row; [exact Hs4|exact Hp'|exact Hrow|].
    by rewrite length_fmap. }
  apply bind_Ok in H as (dl2 & H2 & H).
  assert (Hdl2 : has_shape3 dl2 (length ths) (Z.to_nat L) (Z.to_nat m_dim)).
  { destruct forward.
    - apply bind_Ok in H2 as (w & _ & H2).
      eapply has_shape3_einsum_tlm_t; [exact Hdl1|exact H2].
    - by injection H2 as <-. }
  case_bool_decide.
  - apply bind_Ok in H as (ph & _ & H).
    eapply has_shape3_einsum_tlm_tm; [exact Hdl2|exact H].
  - by injection H as <-.
Qed.

Lemma lookup3_einsum_tlm_t (dl dl' : list (list (list C))) w (t el m : nat) v :
  einsum_tlm_t dl w = Ok dl' → lookup3 dl' t el m = Some v →
  ∃ v0 c, lookup3 dl t el m = Some v0 ∧ v = cmul v0 c.
Proof.
  unfold einsum_tlm_t. intros H Hv.
  destruct (decide (length w = length dl)); [|done]. injection H as <-.
  unfold lookup3 in *.
  destruct (zip_with _ dl w !! t) as [plane|] eqn:Hp; [|done].
  apply lookup_zip_with_Some in Hp as (p & c & -> & Hp & _).
  rewrite Hp. simpl in *. unfold map2d in Hv.
  rewrite list_lookup_fmap in Hv.
  destruct (p !! el) as [row|]; [|done]. simpl in *.
  rewrite list_lookup_fmap in Hv.
  destruct (row !! m) as [v0|]; [|done]. simpl in Hv.
  injection Hv as <-. eauto.
Qed.

Lemma lookup3_einsum_tlm_tm (dl dl' : list (list (list C))) ph (t el m : nat) v :
  einsum_tlm_tm dl ph = Ok dl' → lookup3 dl' t el m = Some v →
  ∃ v0 c, lookup3 dl t el m = Some v0 ∧ v = cmul v0 c.
Proof.
  unfold einsum_tlm_tm. intros H Hv.
  case_bool_decide; [|done]. injection H as <-.
  unfold lookup3 in *.
  destruct (zip_with _ dl ph !! t) as [plane|] eqn:Hp; [|done].
  apply lookup_zip_with_Some in Hp as (p & c & -> & Hp & _).
  rewrite Hp. simpl in *.
  rewrite list_lookup_fmap in Hv.
  destruct (p !! el) as [row|]; [|done]. simpl in *.
  destruct (zip_with cmul row c !! m) as [v'|] eqn:Hz; [|done].
  apply lookup_zip_with_Some in Hz as (v0 & c0 & -> & Hv0 & _).
  rewrite Hv0. injection Hv as <-. eauto.
Qed.

(** X13: a kernel returned by [spin_spherical_kernel] vanishes below
    the spin: every entry [dl[t, el, m]] with [el < |spin|] is zero, also
    after the quadrature weights and the HEALPix phase shifts have been
    applied. *)
Theorem spin_spherical_kernel_zero_below_spin (L spin : Z) (reality : bool)
    (sampling : string) (nside : option Z) (forward : bool)
    (dl : list (list (list C))) :
  (spin_spherical_kernel angle thetas compute_slice kernel_norm
     quad_weights_transform ring_phase_shift_hp
     L spin reality sampling nside forward).2 = Ok dl →
  ∀ (t el m : nat) (v : C),
    lookup3 dl t el m = Some v → Z.of_nat el < Z.abs spin → v = czero.
Proof.
  unfold spin_spherical_kernel.
  destruct (if reality && negb (spin =? 0)
            then (false, [reality_warning]) else (reality, []))
    as [reality' warnings].
  cbn [fst snd]. intros H.
  set (P := λ s : list (list (list C)),
         ∀ (t el m : nat) (v : C),
           lookup3 s t el m = Some v → Z.of_nat el < Z.abs spin → v = czero).
  change (P dl).
  apply bind_Ok in H as ([sampling' ths] & _ & H).
  apply bind_Ok in H as (dl0 & H0 & H).
  assert (Hdl0 : P dl0).
  { unfold np_full3 in H0. destruct (_ || _); [done|]. injection H0 as <-.
    intros t el m v Hv _. unfold lookup3 in Hv.
    destruct (replicate _ _ !! t) as [plane|] eqn:Hp; [|done].
    apply lookup_replicate in Hp as [-> _]. simpl in Hv.
    destruct (replicate _ _ !! el) as [row|] eqn:Hr; [|done].
    apply lookup_replicate in Hr as [-> _]. simpl in Hv.
    by apply lookup_replicate in Hv as [-> _]. }
  apply bind_Ok in H as (dl1 & H1 & H).
  assert (Hdl1 : P dl1).
  { eapply (for_each_inv _ P); [exact Hdl0| |exact H1].
    intros s [t theta] s1 [Ht _]%elem_of_py_enumerate Hs Hbody.
    eapply (for_each_inv _ P); [exact Hs| |exact Hbody].
    intros s2 el s3 Hel Hs2 Hb.
    assert (Z.abs spin ≤ el).
    { unfold py_range in Hel. apply elem_of_seqZ in Hel. lia. }
    apply bind_Ok in Hb as (slice & _ & Hb).
    apply bind_Ok in Hb as (s4 & Ha & Hb).
    apply assign_row3_inv in Ha as (plane & old & new & Hp & Hold & Hnew & ->);
      [|lia..].
    apply scale_row3_inv in Hb as (plane' & row & Hp' & Hrow & ->); [|lia..].
    intros t' el' m' v Hv Hlt.
    rewrite (lookup3_insert_row_ne _ _ _ _ _ _ _ _ Hp') in Hv by lia.
    rewrite (lookup3_insert_row_ne _ _ _ _ _ _ _ _ Hp) in Hv by lia.
    by eapply Hs2. }
  apply bind_Ok in H as (dl2 & H2 & H).
  assert (Hdl2 : P dl2).
  { destruct forward.
    - apply bind_Ok in H2 as (w & _ & H2).
      intros t el m v Hv Hlt.
      destruct (lookup3_einsum_tlm_t _ _ _ _ _ _ _ H2 Hv) as (v0 & c & Hv0 & ->).
      rewrite (Hdl1 _ _ _ _ Hv0 Hlt). apply cmul_zero_l.
    - by injection H2 as <-. }
  case_bool_decide.
  - apply bind_Ok in H as (ph & _ & H).
    intros t el m v Hv Hlt.
    destruct (lookup3_einsum_tlm_tm _ _ _ _ _ _ _ H Hv) as (v0 & c & Hv0 & ->).
    rewrite (Hdl2 _ _ _ _ Hv0 Hlt). apply cmul_zero_l.
  - by injection H as <-.
Qed.
End construct_more.

Lemma healpix_phase_shifts_rows_witness :
  healpix_phase_shifts Z sample_thetas sample_ring_phase_shift 2 (Some 1) false
  = Ok ((λ _ : Z, replicate 3 (GaussZ.re 1)) <$> seqZ 0 (Z.of_nat (length (seqZ 0 2)))).
Proof.
  apply (healpix_phase_shifts_rows Z sample_thetas sample_ring_phase_shift
           2 (Some 1) false (seqZ 0 2) (λ _, replicate 3 (GaussZ.re 1)));
    [lia|reflexivity|].
  intros t Ht. split; reflexivity.
Defined.

Lemma spin_spherical_kernel_shape_witness :
  ∃ dl ths,
    (spin_spherical_kernel Z sample_thetas sample_compute_slice
       sample_kernel_norm sample_quad_weights sample_ring_phase_shift
       3 0 true "mw" None false).2 = Ok dl ∧
    sample_thetas 3 "mw" None = Ok ths ∧
    has_shape3 dl (length ths) (Z.to_nat 3) (Z.to_nat 3).
Proof.
  eexists.
  assert (∀ P Q : Prop, P → (P → Q) → P ∧ Q) as Hcut by tauto.
  assert (∀ A (P Q : A → Prop) R, R → (R → ∃ x, P x ∧ Q x) → ∃ x, R ∧ P x ∧ Q x)
    as Hcut2 by (intros A P Q R HR HPQ; destruct (HPQ HR) as [x ?]; eauto).
  apply Hcut2; [vm_compute; reflexivity|]. intros Hdl.
  apply (spin_spherical_kernel_shape Z sample_thetas sample_compute_slice
           sample_kernel_norm sample_quad_weights sample_ring_phase_shift
           3 0 true "mw" None false _ Hdl).
Defined.

Lemma spin_spherical_kernel_zero_below_spin_witness :
  ∃ dl,
    (spin_spherical_kernel Z sample_thetas sample_compute_slice
       sample_kernel_norm sample_quad_weights sample_ring_phase_shift
       3 2 false "mw" None false).2 = Ok dl ∧
    ∀ (t el m : nat) (v : GaussZ.t),
      lookup3 dl t el m = Some v → Z.of_nat el < Z.abs 2 → v = czero.
Proof.
  eexists.
  assert (∀ P Q : Prop, P → (P → Q) → P ∧ Q) as Hcut by tauto.
  apply Hcut; [vm_compute; reflexivity|]. intros Hdl.
  apply (spin_spherical_kernel_zero_below_spin Z sample_thetas
           sample_compute_slice sample_kernel_norm sample_quad_weights
           sample_ring_phase_shift 3 2 false "mw" None false _ Hdl).
Defined.

(** ** s2fft/general_precompute/resampling_jax.py: extensions and resampling *)

Lemma mk_view_full (n : nat) (m : Z) :
  Z.of_nat n = m → mk_view n 0 m = View 0 n.
Proof.
  intros <-. unfold mk_view, slice_bound. simpl.
  destruct (Z.ltb_spec (Z.of_nat n) 0); [lia|]. f_equal; lia.
Qed.

Lemma at_set2d_rows {A} (a v : list (list A)) (r0 r1 m : Z) :
  0 ≤ r0 → r0 ≤ r1 → r1 ≤ Z.of_nat (length a) →
  Forall (λ row, Z.of_nat (length row) = m) a →
  Forall (λ row, Z.of_nat (length row) = m) v →
  Z.of_nat (length v) = r1 - r0 →
  at_set2d a r0 r1 0 m v
  = Ok (take (Z.to_nat r0) a ++ v ++ drop (Z.to_nat r1) a).
Proof.
  intros H0 H01 H1 Ha Hv Hlen. unfold at_set2d.
  rewrite mk_view_in by lia. unfold view_contents. cbn [v_off v_len].
  set (target := take (Z.to_nat (r1 - r0)) (drop (Z.to_nat r0) a)).
  assert (Htl : length target = length v).
  { unfold target. rewrite length_take, length_drop. lia. }
  assert (Ht : Forall (λ row, Z.of_nat (length row) = m) target).
  { unfold target. by apply Forall_take, Forall_drop. }
  rewrite bool_decide_true.
  2:{ apply Forall2_same_length_lookup_2; [done|].
      intros i x y Hx Hy. cbv beta.
      rewrite Forall_lookup in Ht, Hv.
      rewrite (mk_view_full (length x) m) by eauto. cbn [v_len].
      specialize (Ht _ _ Hx). specialize (Hv _ _ Hy). lia. }
  f_equal. f_equal. f_equal.
  - apply (list_eq_same_length _ _ (length v));
      [done|rewrite length_zip_with; lia|].
    intros i x y Hi Hx Hy.
    apply lookup_zip_with_Some in Hx as (arow & vrow & -> & Harow & Hvrow).
    rewrite Forall_lookup in Ht, Hv. cbv zeta.
    rewrite (mk_view_full (length arow) m) by eauto. cbn [v_off v_len].
    rewrite take_0, drop_ge by lia. rewrite app_nil_r. simpl. congruence.
  - f_equal. lia.
Qed.

Lemma mk_view_bound (len : nat) (a b : Z) :
  (v_off (mk_view len a b) + v_len (mk_view len a b) ≤ len)%nat.
Proof.
  assert (∀ k, (slice_bound len k ≤ len)%nat) as Hsb.
  { intros k. unfold slice_bound. destruct (Z.ltb_spec k 0); lia. }
  unfold mk_view. cbn [v_off v_len].
  pose proof (Hsb a). pose proof (Hsb b). lia.
Qed.

Lemma at_set2d_preserves_shape {A} (a a' v : list (list A)) (r0 r1 c0 c1 : Z)
    (m : nat) :
  at_set2d a r0 r1 c0 c1 v = Ok a' →
  length a' = length a ∧
  (Forall (λ row, length row = m) a → Forall (λ row, length row = m) a').
Proof.
  unfold at_set2d. case_bool_decide as Hsh; [|done]. intros [= <-].
  pose proof (mk_view_bound (length a) r0 r1) as Hb.
  pose proof (Forall2_length _ _ _ Hsh) as Hl.
  unfold view_contents in Hl. rewrite length_take, length_drop in Hl.
  unfold mk_view in Hb, Hl. cbn [v_off v_len] in Hb, Hl.
  split.
  - rewrite !length_app, length_take, length_zip_with, length_drop.
    unfold view_contents. rewrite length_take, length_drop.
    unfold mk_view. cbn [v_off v_len]. lia.
  - intros Ha. apply Forall_app. split; [by apply Forall_take|].
    apply Forall_app. split; [|by apply Forall_drop].
    apply Forall_lookup. intros i row Hi.
    apply lookup_zip_with_Some in Hi as (arow & vrow & -> & Harow & Hvrow).
    pose proof (Forall2_lookup_lr _ _ _ _ _ _ Hsh Harow Hvrow) as Hv.
    cbv beta in Hv. cbv zeta.
    pose proof (mk_view_bound (length arow) c0 c1) as Hcb.
    assert (length arow = m) as Hm.
    { unfold view_contents in Harow. apply lookup_take_Some in Harow as [Harow _].
      rewrite lookup_drop in Harow. rewrite Forall_lookup in Ha. eauto. }
    rewrite !length_app, length_take, length_drop.
    unfold mk_view in Hcb, Hv |- *. cbn [v_off v_len] in Hcb, Hv |- *. lia.
Qed.

Section resampling_spatial_facts.
Context {C : Type} {SC : Scalar C}.
Variables fft_forward ifft_forward : list C → list C.

(** X14: for [L >= 1] and [f] of shape [(L+1, 2L)],
    [periodic_extension_spatial_mwss] returns the [2L] rows made of [f]
    followed by the rows [L-1, ..., 1] of [f], each shifted by half a turn in
    [phi] and multiplied by [(-1)^spin]; [unextend] of the result is [f]. *)
Theorem periodic_extension_spatial_mwss_rows (f : list (list C)) (L spin : Z) :
  1 ≤ L →
  Z.of_nat (length f) = L + 1 →
  Forall (λ row, Z.of_nat (length row) = 2 * L) f →
  periodic_extension_spatial_mwss f L spin
  = Ok (f ++ ((λ row : list C, cmul (csign spin) <$> fftshift row)
               <$> reverse (take (Z.to_nat (L - 1)) (drop 1 f)))) ∧
  (f_ext ← periodic_extension_spatial_mwss f L spin; unextend f_ext L "mwss")
  = Ok f.
Proof.
  intros HL Hlen Hrows.
  set (mirror := (λ row : list C, cmul (csign spin) <$> fftshift row)
                   <$> reverse (take (Z.to_nat (L - 1)) (drop 1 f))).
  assert (Hpes : periodic_extension_spatial_mwss f L spin = Ok (f ++ mirror)).
  { unfold periodic_extension_spatial_mwss, np_zeros2. cbn [fst snd].
    destruct (Z.ltb_spec (2 * L) 0); [lia|]. simpl.
    rewrite (slice2d_full f (L + 1) (2 * L)) by done.
    rewrite (at_set2d_zeros czero f (2 * L) (L + 1) (2 * L)) by (lia || done).
    simpl.
    assert (Hsl : slice2d f 1 (L + 1 - 1) 0 (2 * L)
                  = take (Z.to_nat (L - 1)) (drop 1 f)).
    { unfold slice2d. rewrite py_slice_in by lia.
      replace (Z.to_nat (L + 1 - 1 - 1)) with (Z.to_nat (L - 1)) by lia.
      change (Z.to_nat 1) with 1%nat.
      assert (Forall (λ row : list C, Z.of_nat (length row) = 2 * L)
                (take (Z.to_nat (L - 1)) (drop 1 f))) as Hsub
        by (by apply Forall_take, Forall_drop).
      induction Hsub as [|row l Hrow _ IH]; [done|].
      rewrite fmap_cons, IH. f_equal. by apply py_slice_full. }
    rewrite Hsl.
    set (zs := replicate (Z.to_nat (2 * L - (L + 1)))
                 (replicate (Z.to_nat (2 * L)) czero)).
    assert (Hmir : map2d (cmul (csign spin))
                     (fftshift <$> reverse (take (Z.to_nat (L - 1)) (drop 1 f)))
                   = mirror).
    { unfold map2d, mirror. rewrite <- list_fmap_compose. done. }
    rewrite Hmir.
    assert (Hml : length mirror = Z.to_nat (L - 1)).
    { unfold mirror. rewrite length_fmap, length_reverse, length_take, length_drop.
      lia. }
    rewrite (at_set2d_rows (f ++ zs) mirror (L + 1) _ (2 * L)).
    - f_equal. rewrite take_app_length' by lia.
      rewrite drop_ge by lia. by rewrite app_nil_r.
    - lia.
    - rewrite length_app. lia.
    - lia.
    - apply Forall_app. split; [done|].
      apply Forall_replicate. rewrite length_replicate. lia.
    - unfold mirror. apply Forall_fmap, Forall_reverse, Forall_take, Forall_drop.
      eapply Forall_impl; [exact Hrows|]. intros row Hrow. simpl.
      by rewrite length_fmap, length_fftshift.
    - rewrite length_app. unfold zs. rewrite length_replicate. lia. }
  split; [done|]. rewrite Hpes. simpl. unfold unextend. simpl. f_equal.
  rewrite py_slice_take by (rewrite length_app; lia).
  rewrite take_app_length'; [done|lia].
Qed.

(** X15: for [L >= 1] and [f_mw] of shape [(L+1, 2L-1)],
    [mw_to_mwss_phi] works row by row: each row is transformed, one zero
    coefficient is put in front of its centred spectrum, and the [2L]
    coefficients are transformed back. *)
Theorem mw_to_mwss_phi_rows (f_mw : list (list C)) (L : Z) :
  1 ≤ L →
  (∀ x, length (fft_forward x) = length x) →
  Z.of_nat (length f_mw) = L + 1 →
  Forall (λ row, Z.of_nat (length row) = 2 * L - 1) f_mw →
  mw_to_mwss_phi fft_forward ifft_forward f_mw L
  = Ok ((λ row : list C,
           ifft_forward (ifftshift (czero :: fftshift (fft_forward row))))
          <$> f_mw).
Proof.
  intros HL Hfft Hlen Hrows. unfold mw_to_mwss_phi, np_zeros2. cbn [fst snd].
  destruct (Z.ltb_spec (L + 1) 0); [lia|].
  destruct (Z.ltb_spec (2 * L) 0); [lia|]. simpl.
  set (zrow := replicate (Z.to_nat (2 * L)) (czero : C)).
  set (zs := replicate (Z.to_nat (L + 1)) zrow).
  assert (Hhead : default [] (head zs) = zrow).
  { unfold zs. destruct (Z.to_nat (L + 1)) eqn:E; [lia|]. done. }
  rewrite Hhead.
  assert (Hzl : length zs = Z.to_nat (L + 1)) by apply length_replicate.
  assert (Hzr : length zrow = Z.to_nat (2 * L)) by apply length_replicate.
  set (v := (λ row : list C, fftshift (fft_forward row)) <$> f_mw).
  assert (Hset : at_set2d zs 0 (Z.of_nat (length zs)) 1 (Z.of_nat (length zrow)) v
                 = Ok ((λ vrow : list C, czero :: vrow) <$> v)).
  { unfold at_set2d. rewrite (mk_view_full (length zs)) by done.
    unfold view_contents. cbn [v_off v_len]. rewrite drop_0, firstn_all.
    assert (Hcw : mk_view (length zrow) 1 (Z.of_nat (length zrow))
                  = View 1 (length zrow - 1)).
    { unfold mk_view, slice_bound. simpl.
      destruct (Z.ltb_spec (Z.of_nat (length zrow)) 0); [lia|]. f_equal; lia. }
    assert (Hvl : ∀ i y, v !! i = Some y → length y = Z.to_nat (2 * L - 1)).
    { intros i y Hy. unfold v in Hy. rewrite list_lookup_fmap in Hy.
      destruct (f_mw !! i) as [row|] eqn:Hrow; [|done]. injection Hy as <-.
      rewrite length_fftshift, Hfft. rewrite Forall_lookup in Hrows.
      specialize (Hrows _ _ Hrow). lia. }
    rewrite bool_decide_true.
    2:{ apply Forall2_same_length_lookup_2;
          [unfold v; rewrite length_fmap; lia|].
        intros i x y Hx Hy. cbv beta.
        apply lookup_replicate in Hx as [-> _]. rewrite Hcw. cbn [v_len].
        rewrite (Hvl _ _ Hy). lia. }
    f_equal. rewrite take_0, app_nil_l.
    rewrite drop_ge by lia. rewrite app_nil_r.
    apply (list_eq_same_length _ _ (length v));
      [by rewrite length_fmap|rewrite length_zip_with; unfold v;
        rewrite length_fmap; lia|].
    intros i x y Hi Hx Hy.
    apply lookup_zip_with_Some in Hx as (arow & vrow & -> & Harow & Hvrow).
    apply lookup_replicate in Harow as [-> _]. cbv zeta. rewrite Hcw.
    cbn [v_off v_len].
    rewrite list_lookup_fmap, Hvrow in Hy. injection Hy as <-.
    rewrite drop_ge by lia. rewrite app_nil_r.
    unfold zrow. destruct (Z.to_nat (2 * L)) eqn:E; [lia|]. done. }
  rewrite Hset. simpl. f_equal. unfold v.
  by rewrite <- !list_fmap_compose.
Qed.
End resampling_spatial_facts.

Section resampling_shape.
Context {C : Type} {SC : Scalar C}.
Variables ntheta nphi_equiang ntheta_extension : Z → string → Z.
Variables fft ifft : list C → list C.

(** X16: both periodic extensions depend on the spin through its parity
    only. *)
Theorem periodic_extension_spin_parity (f : list (list C)) (L spin k : Z)
    (sampling : string) :
  periodic_extension ntheta nphi_equiang ntheta_extension fft ifft
    f L (spin + 2 * k) sampling
  = periodic_extension ntheta nphi_equiang ntheta_extension fft ifft
      f L spin sampling ∧
  periodic_extension_spatial_mwss f L (spin + 2 * k)
  = periodic_extension_spatial_mwss f L spin.
Proof.
  assert (Hsign : ∀ m, csign (m + 2 * k) = csign m :> C).
  { intros m. unfold csign. by rewrite Z.even_add_mul_2. }
  split.
  - unfold periodic_extension.
    assert ((λ m, csign (m + (spin + 2 * k)) : C) <$> py_range (- (L - 1)) L
            = (λ m, csign (m + spin)) <$> py_range (- (L - 1)) L) as Heq.
    { apply list_fmap_ext. intros i m _. by rewrite Z.add_assoc, Hsign. }
    by rewrite Heq.
  - unfold periodic_extension_spatial_mwss. by rewrite Hsign.
Qed.

(** X17: an array returned by [periodic_extension] has
    [ntheta_extension(L, sampling)] rows of [nphi_equiang(L, sampling)]
    entries, when the one-dimensional transforms keep lengths. *)
Theorem periodic_extension_shape (f out : list (list C)) (L spin : Z)
    (sampling : string) :
  (∀ x, length (fft x) = length x) →
  (∀ x, length (ifft x) = length x) →
  periodic_extension ntheta nphi_equiang ntheta_extension fft ifft
    f L spin sampling = Ok out →
  length out = Z.to_nat (ntheta_extension L sampling) ∧
  Forall (λ row, length row = Z.to_nat (nphi_equiang L sampling)) out.
Proof.
  intros Hfft Hifft H. unfold periodic_extension in H.
  apply bind_Ok in H as (z & Hz & H).
  unfold np_zeros2 in Hz. cbn [fst snd] in Hz.
  destruct (_ || _); [done|]. injection Hz as <-.
  apply bind_Ok in H as (e1 & H1 & H).
  apply (at_set2d_preserves_shape _ _ _ _ _ _ _
           (Z.to_nat (nphi_equiang L sampling))) in H1 as [Hl1 Hr1].
  rewrite length_replicate in Hl1.
  specialize (Hr1 ltac:(apply Forall_replicate, length_replicate)).
  apply bind_Ok in H as (e3 & H3 & H).
  apply (at_set2d_preserves_shape _ _ _ _ _ _ _
           (Z.to_nat (nphi_equiang L sampling))) in H3 as [Hl3 Hr3].
  rewrite length_fmap in Hl3.
  injection H as <-. split; [rewrite length_fmap; lia|].
  apply Forall_fmap. eapply Forall_impl; [apply Hr3|].
  - apply Forall_fmap. eapply Forall_impl; [exact Hr1|].
    intros row Hrow. simpl. by rewrite length_fftshift, Hfft.
  - intros row Hrow. simpl. by rewrite Hifft, length_ifftshift.
Qed.
End resampling_shape.

Lemma periodic_extension_spatial_mwss_rows_witness :
  periodic_extension_spatial_mwss sample_field 2 1
  = Ok (sample_field
        ++ ((λ row : list GaussZ.t, cmul (csign 1) <$> fftshift row)
              <$> reverse (take (Z.to_nat (2 - 1)) (drop 1 sample_field)))) ∧
  (f_ext ← periodic_extension_spatial_mwss sample_field 2 1;
   unextend f_ext 2 "mwss") = Ok sample_field.
Proof.
  apply (periodic_extension_spatial_mwss_rows sample_field 2 1);
    [lia|reflexivity|repeat constructor].
Defined.

Lemma mw_to_mwss_phi_rows_witness :
  mw_to_mwss_phi (gauss_dft (-1)) (gauss_dft 1)
    [[GaussZ.re 1]; [GaussZ.im 2]] 1
  = Ok ((λ row : list GaussZ.t,
           gauss_dft 1 (ifftshift (czero :: fftshift (gauss_dft (-1) row))))
          <$> [[GaussZ.re 1]; [GaussZ.im 2]]).
Proof.
  apply (mw_to_mwss_phi_rows (gauss_dft (-1)) (gauss_dft 1)
           [[GaussZ.re 1]; [GaussZ.im 2]] 1);
    [lia|apply length_gauss_dft|reflexivity|repeat constructor].
Defined.

Lemma periodic_extension_shape_witness :
  ∃ out,
    periodic_extension equiang_ntheta equiang_nphi equiang_ntheta_extension
      (gauss_dft (-1)) gauss_ifft sample_field 2 1 "mwss" = Ok out ∧
    length out = Z.to_nat (equiang_ntheta_extension 2 "mwss") ∧
    Forall (λ row, length row = Z.to_nat (equiang_nphi 2 "mwss")) out.
Proof.
  eexists.
  assert (∀ P Q : Prop, P → (P → Q) → P ∧ Q) as Hcut by tauto.
  apply Hcut; [vm_compute; reflexivity|]. intros Hout.
  apply (periodic_extension_shape equiang_ntheta equiang_nphi
           equiang_ntheta_extension (gauss_dft (-1)) gauss_ifft
           sample_field _ 2 1 "mwss"); [apply length_gauss_dft| |exact Hout].
  intros x. unfold gauss_ifft. by rewrite length_fmap, length_gauss_dft.
Defined.

(** ** s2fft/healpix_ffts.py: the transforms ring by ring *)

Lemma for_each_states {S} (body : S → Z → result S) (st : Z → S) (n : Z) :
  0 ≤ n →
  (∀ t, 0 ≤ t < n → body (st t) t = Ok (st (t + 1))) →
  for_each body (seqZ 0 n) (st 0) = Ok (st n).
Proof.
  intros Hn Hstep.
  assert (∀ k : nat, Z.of_nat k ≤ n →
            for_each body (seqZ 0 (Z.of_nat k)) (st 0) = Ok (st (Z.of_nat k)))
    as Hk.
  { induction k as [|k IH]; intros Hle; [done|].
    rewrite seqZ_S, for_each_app, IH by lia. simpl.
    rewrite Z.add_0_l, Hstep by lia. simpl. f_equal. f_equal. lia. }
  specialize (Hk (Z.to_nat n)). rewrite Z2Nat.id in Hk by lia. apply Hk. lia.
Qed.

Section healpix_rows.
Context {C : Type} {SC : Scalar C}.
Variable nphi_ring : Z → Z → Z.
Variable ftm_shape : Z → Z → Z * Z.
Variable f_shape_healpix : Z → Z.
Variables fft rfft ifft : list C → list C.

Lemma periodic_buffer_full (fm : list C) (L : Z) :
  1 ≤ L → length fm = Z.to_nat (2 * L) → periodic_buffer fm (2 * L) L = fm.
Proof.
  intros HL Hlen.
  assert (Hs : L - (2 * L) `div` 2 = 0)
    by (rewrite (Z.mul_comm 2 L), Z.div_mul by lia; lia).
  apply (list_eq_same_length _ _ (Z.to_nat (2 * L)));
    [done|apply length_periodic_buffer|].
  intros i x y Hi Hx Hy.
  rewrite <- (Nat2Z.id i), lookup_periodic_buffer in Hx by lia.
  rewrite Hs, Z.sub_0_r, Z.mod_small, Nat2Z.id in Hx by lia.
  rewrite (list_lookup_total_correct _ _ _ Hy) in Hx. congruence.
Qed.

Lemma ring_offset_succ nside (t : Z) :
  0 ≤ t →
  ring_offset nphi_ring nside (t + 1)
  = ring_offset nphi_ring nside t + nphi_ring t nside.
Proof.
  intros Ht. unfold ring_offset.
  rewrite seqZ_app by lia. rewrite fmap_app.
  change (seqZ (0 + t) 1) with [0 + t]. rewrite Z.add_0_l. simpl.
  apply foldr_add_snoc.
Qed.

(** X23: [healpix_fft] ring by ring.  When the rings fit in the pixel
    array and hold between [1] and [2L] pixels, the result has one row of
    [2L] coefficients for each ring: the centred spectrum of the ring's
    pixels, continued periodically with period [nphi] (for a ring of [2L]
    pixels this is the spectrum itself).  The reality flag plays no part. *)
Theorem healpix_fft_rows (f : list C) (L nside ntheta : Z) (reality : bool) :
  2 * nside ≤ L → 0 ≤ L → 0 ≤ ntheta →
  ftm_shape L nside = (ntheta, 2 * L) →
  (∀ x, length (fft x) = length x) →
  (∀ x, (1 ≤ length x)%nat → length (rfft x) = (length x `div` 2 + 1)%nat) →
  (∀ t, 0 ≤ t < ntheta →
     1 ≤ nphi_ring t nside ≤ 2 * L ∧
     ring_offset nphi_ring nside t + nphi_ring t nside ≤ Z.of_nat (length f)) →
  healpix_fft nphi_ring ftm_shape fft rfft f L nside reality
  = Ok ((λ t,
           periodic_buffer
             (fftshift (fft (py_slice f (ring_offset nphi_ring nside t)
                               (ring_offset nphi_ring nside t
                                + nphi_ring t nside))))
             (nphi_ring t nside) L)
          <$> seqZ 0 ntheta).
Proof.
  intros Hns HL Hnt Hshape Hfft Hrfft Hcover.
  assert (healpix_fft nphi_ring ftm_shape fft rfft f L nside reality
          = healpix_fft nphi_ring ftm_shape fft rfft f L nside false) as ->.
  { destruct reality; [|done]. apply healpix_fft_reality_irrelevant; [done|].
    rewrite Hshape. simpl. intros t Ht. destruct (Hcover t Ht). split; lia. }
  unfold healpix_fft.
  destruct (Z.leb_spec (2 * nside) L); [|lia]. simpl.
  rewrite Hshape. unfold np_zeros2. cbn [fst snd].
  destruct (Z.ltb_spec ntheta 0); [lia|].
  destruct (Z.ltb_spec (2 * L) 0); [lia|]. simpl.
  rewrite length_replicate, Z2Nat.id by lia.
  set (zrow := replicate (Z.to_nat (2 * L)) (czero : C)).
  set (row := λ t,
         periodic_buffer
           (fftshift (fft (py_slice f (ring_offset nphi_ring nside t)
                             (ring_offset nphi_ring nside t + nphi_ring t nside))))
           (nphi_ring t nside) L).
  set (st := λ t : Z,
         ((row <$> seqZ 0 t) ++ replicate (Z.to_nat (ntheta - t)) zrow,
          ring_offset nphi_ring nside t)).
  unfold py_range. rewrite Z.sub_0_r.
  assert (st 0 = (replicate (Z.to_nat ntheta) zrow, 0)) as Hst0.
  { unfold st. rewrite Z.sub_0_r. done. }
  rewrite <- Hst0.
  rewrite (for_each_states _ st ntheta Hnt).
  { simpl. rewrite Z.sub_diag. simpl. by rewrite app_nil_r. }
  intros t Ht. unfold st at 1. cbv beta iota.
  destruct (Hcover t Ht) as [Hnphi Hfit].
  set (nphi := nphi_ring t nside) in *.
  set (index := ring_offset nphi_ring nside t) in *.
  assert (0 ≤ index) as Hidx.
  { apply ring_offset_nonneg. intros t' Ht'. destruct (Hcover t'); lia. }
  simpl.
  pose proof (length_py_slice_in f index (index + nphi)
                ltac:(lia) ltac:(lia) ltac:(lia)) as Hslice.
  destruct (py_slice f index (index + nphi)) as [|c cs] eqn:Hsl.
  { simpl in Hslice. lia. }
  rewrite <- Hsl. unfold np_fft at 1. rewrite Hsl. rewrite <- Hsl. simpl.
  assert (length (fftshift (fft (py_slice f index (index + nphi))))
          = Z.to_nat nphi) as Hchunk.
  { rewrite length_fftshift, Hfft, Hsl, Hslice. lia. }
  assert ((if nphi =? 2 * L
           then Ok (fftshift (fft (py_slice f index (index + nphi))))
           else spectral_periodic_extension
                  (fftshift (fft (py_slice f index (index + nphi)))) nphi L)
          = Ok (row t)) as ->.
  { unfold row. fold nphi index.
    destruct (Z.eqb_spec nphi (2 * L)) as [Heq|Hne].
    - rewrite Heq. rewrite periodic_buffer_full; [done|lia|].
      rewrite <- Heq. exact Hchunk.
    - apply spectral_periodic_extension_spec; [lia|done]. }
  simpl.
  assert (length (row <$> seqZ 0 t) = Z.to_nat t) as Hpre
    by (by rewrite length_fmap, length_seqZ).
  unfold row_assign. rewrite norm_index_nonneg
    by (rewrite length_app, Hpre, length_replicate; lia).
  simpl.
  replace (Z.to_nat (ntheta - t)) with (S (Z.to_nat (ntheta - (t + 1)))) by lia.
  rewrite replicate_S.
  rewrite lookup_app_r by lia. rewrite Hpre, Nat.sub_diag. simpl.
  rewrite decide_True.
  2:{ unfold row, zrow. rewrite length_periodic_buffer, length_replicate. done. }
  simpl. unfold st. f_equal. f_equal.
  - rewrite insert_app_r_alt by lia. rewrite Hpre, Nat.sub_diag. simpl.
    rewrite (seqZ_app 0 t 1) by lia. rewrite fmap_app.
    rewrite <- app_assoc. done.
  - fold index. unfold nphi. symmetry. apply ring_offset_succ. lia.
Qed.
End healpix_rows.

Section healpix_pixels.
Context {C : Type} {SC : Scalar C}.
Variable nphi_ring : Z → Z → Z.
Variable ftm_shape : Z → Z → Z * Z.
Variable f_shape_healpix : Z → Z.
Variables fft rfft ifft : list C → list C.

Lemma outside_bins_full (L : Z) (len : nat) :
  1 ≤ L → Z.of_nat len = 2 * L → outside_bins (2 * L) L len = [].
Proof.
  intros HL Hlen. unfold outside_bins.
  assert (Hs : L - (2 * L) `div` 2 = 0)
    by (rewrite (Z.mul_comm 2 L), Z.div_mul by lia; lia).
  rewrite Hs. simpl.
  replace (Z.of_nat len - (0 + 2 * L)) with 0 by lia. done.
Qed.

(** X24: [healpix_ifft] ring by ring (complex path).  The pixel array
    returned is the concatenation, in ring order, of the inverse transforms
    of the folded rows [spectral_folding(ftm[t], nphi, L)], followed by the
    zeros of the pixels that no ring covers. *)
Theorem healpix_ifft_pixels (ftm : list (list C)) (L nside : Z) :
  2 * nside ≤ L →
  Forall (λ row, length row = Z.to_nat (2 * L)) ftm →
  (∀ x, length (ifft x) = length x) →
  (∀ t, 0 ≤ t < Z.of_nat (length ftm) → 1 ≤ nphi_ring t nside ≤ 2 * L) →
  ring_offset nphi_ring nside (Z.of_nat (length ftm)) ≤ f_shape_healpix nside →
  ∃ ftm' chunks,
    healpix_ifft nphi_ring f_shape_healpix ifft ftm L nside false
    = Ok (ftm',
          concat ((λ chunk, ifft (ifftshift chunk)) <$> chunks)
          ++ replicate (Z.to_nat (f_shape_healpix nside
                                  - ring_offset nphi_ring nside
                                      (Z.of_nat (length ftm)))) czero) ∧
    length chunks = length ftm ∧
    ∀ (t : nat) row, ftm !! t = Some row →
      ∃ buf w,
        spectral_folding row (nphi_ring (Z.of_nat t) nside) L = Ok (buf, w) ∧
        chunks !! t = Some (view_contents buf w).
Proof.
  intros Hns Hrows Hifft Hnphi Htotal.
  set (ntheta := Z.of_nat (length ftm)) in *.
  set (npix := f_shape_healpix nside) in *.
  set (buf_of := λ (t : Z) (row : list C),
         foldl (fold_step row (nphi_ring t nside) L) row
           (outside_bins (nphi_ring t nside) L (length row))).
  set (chunk_of := λ (t : Z) (row : list C),
         view_contents (buf_of t row)
           (View (Z.to_nat (L - nphi_ring t nside `div` 2))
                 (Z.to_nat (nphi_ring t nside)))).
  set (chunks := imap (λ i row, chunk_of (Z.of_nat i) row) ftm).
  set (pix := λ t : Z,
         concat ((λ chunk, ifft (ifftshift chunk)) <$> take (Z.to_nat t) chunks)).
  set (st := λ t : Z,
         (imap (λ i row, if Z.of_nat i <? t then buf_of (Z.of_nat i) row else row)
            ftm,
          pix t ++ replicate (Z.to_nat (npix - ring_offset nphi_ring nside t)) czero,
          ring_offset nphi_ring nside t)).
  assert (Hoff : ∀ t, 0 ≤ t ≤ ntheta →
            0 ≤ ring_offset nphi_ring nside t ∧
            ring_offset nphi_ring nside t ≤ ring_offset nphi_ring nside ntheta).
  { intros t Ht. split.
    - apply ring_offset_nonneg. intros t' Ht'. specialize (Hnphi t'). lia.
    - assert (∀ k : nat, Z.of_nat k ≤ ntheta - t →
                ring_offset nphi_ring nside t
                ≤ ring_offset nphi_ring nside (t + Z.of_nat k)) as Hk.
      { induction k as [|k IH]; intros Hle; [rewrite Z.add_0_r; lia|].
        replace (t + Z.of_nat (S k)) with (t + Z.of_nat k + 1) by lia.
        rewrite (ring_offset_succ nphi_ring) by lia.
        specialize (Hnphi (t + Z.of_nat k) ltac:(lia)). lia. }
      specialize (Hk (Z.to_nat (ntheta - t)) ltac:(lia)).
      by replace (t + Z.of_nat (Z.to_nat (ntheta - t))) with ntheta in Hk by lia. }
  assert (Hchunk_len : ∀ (t : nat) row, ftm !! t = Some row →
            length (chunk_of (Z.of_nat t) row)
            = Z.to_nat (nphi_ring (Z.of_nat t) nside)).
  { intros t row Hrow. unfold chunk_of, view_contents, buf_of. cbn [v_off v_len].
    rewrite length_take, length_drop, length_foldl_fold_step.
    rewrite Forall_lookup in Hrows. rewrite (Hrows _ _ Hrow).
    apply lookup_lt_Some in Hrow. specialize (Hnphi (Z.of_nat t) ltac:(lia)).
    pose proof (Z.mul_div_le (nphi_ring (Z.of_nat t) nside) 2 ltac:(lia)).
    pose proof (Z.mul_succ_div_gt (nphi_ring (Z.of_nat t) nside) 2 ltac:(lia)).
    lia. }
  assert (Hpix_len : ∀ t, 0 ≤ t ≤ ntheta →
            Z.of_nat (length (pix t)) = ring_offset nphi_ring nside t).
  { assert (∀ k : nat, Z.of_nat k ≤ ntheta →
              Z.of_nat (length (pix (Z.of_nat k)))
              = ring_offset nphi_ring nside (Z.of_nat k)) as Hk.
    { induction k as [|k IH]; intros Hle; [done|].
      replace (Z.of_nat (S k)) with (Z.of_nat k + 1) by lia.
      rewrite (ring_offset_succ nphi_ring) by lia. rewrite <- IH by lia.
      unfold pix. rewrite !Nat2Z.id.
      replace (Z.to_nat (Z.of_nat k + 1)) with (S k) by lia.
      destruct (lookup_lt_is_Some_2 ftm k ltac:(lia)) as [row Hrow].
      assert (chunks !! k = Some (chunk_of (Z.of_nat k) row)) as Hck.
      { unfold chunks. by rewrite list_lookup_imap, Hrow. }
      rewrite (take_S_r _ _ _ Hck), fmap_app, concat_app, length_app.
      simpl. rewrite app_nil_r, Hifft, length_ifftshift.
      rewrite (Hchunk_len _ _ Hrow).
      specialize (Hnphi (Z.of_nat k) ltac:(lia)). lia. }
    intros t Ht. specialize (Hk (Z.to_nat t)).
    rewrite Z2Nat.id in Hk by lia. apply Hk. lia. }
  exists (st ntheta).1.1, chunks.
  split; [|split].
  - unfold healpix_ifft.
    destruct (Z.leb_spec (2 * nside) L); [|lia]. simpl.
    unfold np_full. fold npix.
    destruct (Z.ltb_spec npix 0).
    { destruct (Hoff ntheta ltac:(lia)). lia. }
    simpl. unfold py_range. rewrite Z.sub_0_r. fold ntheta.
    assert (st 0 = (ftm, replicate (Z.to_nat npix) czero, 0)) as Hst0.
    { unfold st. f_equal. f_equal.
      - apply list_eq. intros i. rewrite list_lookup_imap.
        destruct (ftm !! i) as [row|]; [|done]. simpl.
        destruct (Z.ltb_spec (Z.of_nat i) 0); [lia|done].
      - unfold pix. simpl. by rewrite Z.sub_0_r. }
    rewrite <- Hst0.
    rewrite (for_each_states _ st ntheta ltac:(lia)).
    { simpl. f_equal. f_equal. unfold pix. f_equal.
      rewrite firstn_all2; [done|]. unfold chunks. rewrite length_imap. lia. }
    intros t Ht. unfold st at 1. cbv beta iota.
    specialize (Hnphi t Ht).
    set (nphi := nphi_ring t nside) in *.
    set (index := ring_offset nphi_ring nside t) in *.
    destruct (lookup_lt_is_Some_2 ftm (Z.to_nat t) ltac:(lia)) as [row Hrow].
    pose proof (proj1 (Forall_lookup _ _) Hrows _ _ Hrow) as Hrl. simpl in Hrl.
    set (ftm_t := imap _ ftm).
    assert (ftm_t !! Z.to_nat t = Some row) as Hft.
    { unfold ftm_t. rewrite list_lookup_imap, Hrow. simpl.
      destruct (Z.ltb_spec (Z.of_nat (Z.to_nat t)) t); [lia|done]. }
    rewrite (getitem_nonneg ftm_t t row) by (lia || done). simpl.
    pose proof (Z.mul_div_le nphi 2 ltac:(lia)).
    pose proof (Z.mul_succ_div_gt nphi 2 ltac:(lia)).
    assert ((if nphi =? 2 * L then Ok (row, View 0 (length row))
             else spectral_folding row nphi L)
            = Ok (buf_of t row,
                  View (Z.to_nat (L - nphi `div` 2)) (Z.to_nat nphi))) as ->.
    { unfold buf_of. fold nphi.
      destruct (Z.eqb_spec nphi (2 * L)) as [Heq|Hne].
      - rewrite Heq, outside_bins_full by lia. simpl. f_equal. f_equal.
        f_equal; [|lia].
        rewrite (Z.mul_comm 2 L), Z.div_mul by lia. lia.
      - apply spectral_folding_spec; lia. }
    simpl.
    rewrite setitem_nonneg by (unfold ftm_t; rewrite length_imap; lia).
    simpl. fold (chunk_of t row).
    assert (Hcl : length (chunk_of t row) = Z.to_nat nphi).
    { pose proof (Hchunk_len (Z.to_nat t) row Hrow) as Hc.
      rewrite Z2Nat.id in Hc by lia. exact Hc. }
    change (view_contents (buf_of t row) _) with (chunk_of t row).
    destruct (ifftshift (chunk_of t row)) as [|c cs] eqn:Hsh.
    { apply (f_equal length) in Hsh. rewrite length_ifftshift, Hcl in Hsh.
      simpl in Hsh. lia. }
    rewrite <- Hsh. unfold np_fft. rewrite Hsh. rewrite <- Hsh. simpl.
    destruct (Hoff t ltac:(lia)) as [Hi0 Hi1]. fold index in Hi0, Hi1.
    destruct (Hoff (t + 1) ltac:(lia)) as [_ Hi2].
    rewrite (ring_offset_succ nphi_ring) in Hi2 by lia. fold nphi index in Hi2.
    pose proof (Hpix_len t ltac:(lia)) as Hpl. fold index in Hpl.
    unfold slice_assign. rewrite length_app, length_replicate.
    rewrite mk_view_in by lia. cbn [v_off v_len].
    rewrite decide_True.
    2:{ rewrite Hifft, length_ifftshift, Hcl. lia. }
    cbn [mbind result_bind]. unfold st. f_equal. f_equal; [f_equal|].
    + (* the rows of ftm *)
      apply list_eq. intros i. unfold ftm_t.
      destruct (decide (i = Z.to_nat t)) as [->|Hi].
      * rewrite list_lookup_insert_eq by (rewrite length_imap; lia).
        rewrite list_lookup_imap, Hrow. simpl.
        destruct (Z.ltb_spec (Z.of_nat (Z.to_nat t)) (t + 1)); [|lia].
        by rewrite Z2Nat.id by lia.
      * rewrite list_lookup_insert_ne by done.
        rewrite !list_lookup_imap. destruct (ftm !! i) as [r|]; [|done]. simpl.
        destruct (Z.ltb_spec (Z.of_nat i) t),
                 (Z.ltb_spec (Z.of_nat i) (t + 1)); try done; lia.
    + (* the pixels *)
      rewrite take_app_length' by lia.
      rewrite drop_app_ge by lia.
      rewrite drop_replicate.
      assert (chunks !! Z.to_nat t = Some (chunk_of t row)) as Hck.
      { unfold chunks. rewrite list_lookup_imap, Hrow. simpl.
        by rewrite Z2Nat.id by lia. }
      assert (pix (t + 1) = pix t ++ ifft (ifftshift (chunk_of t row))) as ->.
      { unfold pix. replace (Z.to_nat (t + 1)) with (S (Z.to_nat t)) by lia.
        rewrite (take_S_r _ _ _ Hck), fmap_app, concat_app. simpl.
        by rewrite app_nil_r. }
      rewrite <- app_assoc. do 3 f_equal.
      rewrite (ring_offset_succ nphi_ring) by lia. fold index nphi. lia.
    + symmetry. apply (ring_offset_succ nphi_ring). lia.
  - unfold chunks. by rewrite length_imap.
  - intros t row Hrow.
    pose proof (lookup_lt_Some _ _ _ Hrow) as Hlt.
    specialize (Hnphi (Z.of_nat t) ltac:(lia)).
    pose proof (proj1 (Forall_lookup _ _) Hrows _ _ Hrow) as Hrl. simpl in Hrl.
    pose proof (Z.mul_div_le (nphi_ring (Z.of_nat t) nside) 2 ltac:(lia)).
    pose proof (Z.mul_succ_div_gt (nphi_ring (Z.of_nat t) nside) 2 ltac:(lia)).
    eexists _, _. split; [apply spectral_folding_spec; lia|].
    unfold chunks. rewrite list_lookup_imap, Hrow. done.
Qed.
End healpix_pixels.

Lemma healpix_fft_rows_witness :
  healpix_fft nside1_nphi_ring nside1_ftm_shape (gauss_dft (-1)) gauss_rfft
    (GaussZ.re <$> seqZ 1 12) 3 1 true
  = Ok ((λ t,
           periodic_buffer
             (fftshift (gauss_dft (-1)
                (py_slice (GaussZ.re <$> seqZ 1 12)
                   (ring_offset nside1_nphi_ring 1 t)
                   (ring_offset nside1_nphi_ring 1 t + nside1_nphi_ring t 1))))
             (nside1_nphi_ring t 1) 3)
          <$> seqZ 0 3).
Proof.
  apply (healpix_fft_rows nside1_nphi_ring nside1_ftm_shape
           (gauss_dft (-1)) gauss_rfft (GaussZ.re <$> seqZ 1 12) 3 1 3 true);
    [lia|lia|lia|reflexivity|apply length_gauss_dft|apply length_gauss_rfft|].
  intros t Ht. assert (t = 0 ∨ t = 1 ∨ t = 2) as [-> | [-> | ->]] by lia;
    vm_compute; split; (split || idtac); discriminate.
Defined.

Lemma healpix_ifft_pixels_witness :
  ∃ ftm' chunks,
    healpix_ifft nside1_nphi_ring nside1_f_shape (gauss_dft 1)
      (replicate 3 (GaussZ.re <$> seqZ 1 6)) 3 1 false
    = Ok (ftm',
          concat ((λ chunk, gauss_dft 1 (ifftshift chunk)) <$> chunks)
          ++ replicate (Z.to_nat (nside1_f_shape 1
                                  - ring_offset nside1_nphi_ring 1
                                      (Z.of_nat (length
                                         (replicate 3 (GaussZ.re <$> seqZ 1 6))))))
               czero) ∧
    length chunks = length (replicate 3 (GaussZ.re <$> seqZ 1 6)) ∧
    ∀ (t : nat) row,
      replicate 3 (GaussZ.re <$> seqZ 1 6) !! t = Some row →
      ∃ buf w,
        spectral_folding row (nside1_nphi_ring (Z.of_nat t) 1) 3 = Ok (buf, w) ∧
        chunks !! t = Some (view_contents buf w).
Proof.
  apply (healpix_ifft_pixels nside1_nphi_ring nside1_f_shape (gauss_dft 1)
           (replicate 3 (GaussZ.re <$> seqZ 1 6)) 3 1).
  - lia.
  - repeat constructor.
  - apply length_gauss_dft.
  - intros t Ht. unfold nside1_nphi_ring. lia.
  - vm_compute. discriminate.
Defined.

(** ** s2fft/precompute_transforms/construct.py: the Wigner kernel *)

Lemma assign_row4_inv {A} (dl dl' : list (list (list (list A)))) (ind t el : Z)
    (row : list A) :
  0 ≤ ind → 0 ≤ t → 0 ≤ el → assign_row4 dl ind t el row = Ok dl' →
  ∃ cube plane old new,
    dl !! Z.to_nat ind = Some cube ∧
    cube !! Z.to_nat t = Some plane ∧ plane !! Z.to_nat el = Some old ∧
    length new = length old ∧
    dl' = <[Z.to_nat ind :=
              <[Z.to_nat t := <[Z.to_nat el := new]> plane]> cube]> dl.
Proof.
  intros Hind Ht Hel H. unfold assign_row4 in H.
  apply bind_Ok in H as (cube & Hc & H).
  apply bind_Ok in H as (cube' & Hc' & H).
  apply getitem_nonneg_inv in Hc; [|done].
  apply assign_row3_inv in Hc' as (plane & old & new & Hp & Hold & Hlen & ->);
    [|done..].
  apply setitem_nonneg_inv in H as [-> _]; [|done].
  by exists cube, plane, old, new.
Qed.

Lemma assign_row4_inv_eq {A} (dl dl' : list (list (list (list A)))) (ind t el : Z)
    (row : list A) :
  0 ≤ ind → 0 ≤ t → 0 ≤ el → assign_row4 dl ind t el row = Ok dl' →
  ∃ cube plane old new,
    dl !! Z.to_nat ind = Some cube ∧
    cube !! Z.to_nat t = Some plane ∧ plane !! Z.to_nat el = Some old ∧
    length new = length old ∧ (length row = length old → new = row) ∧
    dl' = <[Z.to_nat ind :=
              <[Z.to_nat t := <[Z.to_nat el := new]> plane]> cube]> dl.
Proof.
  intros Hind Ht Hel H. unfold assign_row4, assign_row3 in H.
  apply bind_Ok in H as (cube & Hc & H).
  apply bind_Ok in H as (cube' & Hc' & H).
  apply bind_Ok in Hc' as (plane & Hp & Hc').
  apply bind_Ok in Hc' as (plane' & Hp' & Hc').
  apply getitem_nonneg_inv in Hc; [|done].
  apply getitem_nonneg_inv in Hp; [|done].
  apply row_assign_inv in Hp' as (old & new & Hold & Hlen & Heq & ->); [|done].
  apply setitem_nonneg_inv in Hc' as [-> _]; [|done].
  apply setitem_nonneg_inv in H as [-> _]; [|done].
  by exists cube, plane, old, new.
Qed.

Lemma lookup_row_insert4 {A} (dl : list (list (list (list A))))
    (ind t el ind' t' el' : nat) (cube : list (list (list A)))
    (plane : list (list A)) (old new : list A) :
  dl !! ind = Some cube → cube !! t = Some plane → plane !! el = Some old →
  (<[ind := <[t := <[el := new]> plane]> cube]> dl !! ind'
     ≫= λ c, c !! t' ≫= λ p, p !! el')
  = if decide (ind' = ind ∧ t' = t ∧ el' = el) then Some new
    else dl !! ind' ≫= λ c, c !! t' ≫= λ p, p !! el'.
Proof.
  intros Hc Hp Hold.
  destruct (decide (ind' = ind)) as [->|Hi].
  - rewrite list_lookup_insert_eq by (by eapply lookup_lt_Some).
    rewrite Hc. cbn [mbind option_bind].
    destruct (decide (t' = t)) as [->|Ht].
    + rewrite list_lookup_insert_eq by (by eapply lookup_lt_Some).
      rewrite Hp. cbn [mbind option_bind].
      destruct (decide (el' = el)) as [->|He].
      * rewrite list_lookup_insert_eq by (by eapply lookup_lt_Some).
        by rewrite decide_True.
      * rewrite list_lookup_insert_ne by done.
        rewrite decide_False; [done|]. intros (_ & _ & ?). done.
    + rewrite list_lookup_insert_ne by done.
      rewrite decide_False; [done|]. intros (_ & ? & _). done.
  - rewrite list_lookup_insert_ne by done.
    rewrite decide_False; [done|]. intros (? & _). done.
Qed.

Section wigner_kernel_facts.
Context {C : Type} {SC : Scalar C}.
Variable angle : Type.
Variable thetas : Z → string → option Z → result (list angle).
Variable compute_slice : angle → Z → Z → Z → bool → result (list C).
Variable quad_weights_transform : Z → string → Z → option Z → result (list C).
Variable ring_phase_shift_hp : Z → Z → option Z → bool → result (list C).
Variable wigner_scale : Z → C.
Variable wigner_weight : Z → C.

Lemma has_shape3_fmap_map2d (g : C → C) (cube : list (list (list C))) d0 d1 d2 :
  has_shape3 cube d0 d1 d2 →
  has_shape3 ((λ plane : list (list C), map2d g plane) <$> cube) d0 d1 d2.
Proof.
  intros [Hlen Hall]. split; [by rewrite length_fmap|].
  apply Forall_fmap. eapply Forall_impl; [exact Hall|].
  intros plane [Hpl Hrows]. simpl. unfold map2d.
  split; [by rewrite length_fmap|].
  apply Forall_fmap. eapply Forall_impl; [exact Hrows|].
  intros row Hrow. simpl. by rewrite length_fmap.
Qed.

Lemma lookup3_fmap_map2d (g : C → C) (cube : list (list (list C))) t el m :
  lookup3 ((λ plane : list (list C), map2d g plane) <$> cube) t el m
  = g <$> lookup3 cube t el m.
Proof.
  unfold lookup3. rewrite list_lookup_fmap.
  destruct (cube !! t) as [plane|]; [|done]. simpl. unfold map2d.
  rewrite list_lookup_fmap. destruct (plane !! el) as [row|]; [|done]. simpl.
  by rewrite list_lookup_fmap.
Qed.

Lemma has_shape3_scale_l (s : Z → C) (cube : list (list (list C))) d0 d1 d2 :
  has_shape3 cube d0 d1 d2 →
  has_shape3
    ((λ plane : list (list C),
        imap (λ (l : nat) (row : list C), (λ x, cmul x (s (Z.of_nat l))) <$> row)
          plane) <$> cube) d0 d1 d2.
Proof.
  intros [Hlen Hall]. split; [by rewrite length_fmap|].
  apply Forall_fmap. eapply Forall_impl; [exact Hall|].
  intros plane [Hpl Hrows]. simpl.
  split; [by rewrite length_imap|].
  apply Forall_lookup. intros i row Hi. rewrite list_lookup_imap in Hi.
  destruct (plane !! i) as [r|] eqn:Hr; [|done]. injection Hi as <-.
  rewrite length_fmap. rewrite Forall_lookup in Hrows. eauto.
Qed.

Lemma lookup3_scale_l (s : Z → C) (cube : list (list (list C))) t el m :
  lookup3
    ((λ plane : list (list C),
        imap (λ (l : nat) (row : list C), (λ x, cmul x (s (Z.of_nat l))) <$> row)
          plane) <$> cube) t el m
  = (λ x, cmul x (s (Z.of_nat el))) <$> lookup3 cube t el m.
Proof.
  unfold lookup3. rewrite list_lookup_fmap.
  destruct (cube !! t) as [plane|]; [|done]. simpl.
  rewrite list_lookup_imap. destruct (plane !! el) as [row|]; [|done]. simpl.
  by rewrite list_lookup_fmap.
Qed.

(** X25. When [wigner_kernel] returns for a directional band-limit
    [N >= 1], the colatitudes it asked for were returned as some list [ths]
    (those of the MWSS sampling at [2 * L] for a forward kernel on MW or
    MWSS, those of the given sampling otherwise), the kernel has [N] planes
    for a real signal and [2 * N - 1] otherwise, and each plane has shape
    [(len(ths), L, 2 * L - 1)]. *)
Theorem wigner_kernel_shape (L N : Z) (reality : bool) (sampling : string)
    (nside : option Z) (forward : bool) (dl : list (list (list (list C)))) :
  1 ≤ N →
  wigner_kernel angle thetas compute_slice quad_weights_transform
    ring_phase_shift_hp wigner_scale wigner_weight
    L N reality sampling nside forward = Ok dl →
  ∃ ths,
    (if forward && bool_decide (py_lower sampling ∈ ["mw"; "mwss"])
     then thetas (2 * L) "mwss" None else thetas L sampling nside) = Ok ths ∧
    length dl = Z.to_nat (if reality then N else 2 * N - 1) ∧
    Forall (λ cube, has_shape3 cube (length ths) (Z.to_nat L)
                      (Z.to_nat (2 * L - 1))) dl.
Proof.
  unfold wigner_kernel. intros HN H.
  apply bind_Ok in H as ([sampling' ths] & Hths & H).
  exists ths. split.
  { destruct (forward && _).
    - apply bind_Ok in Hths as (th & -> & [= _ <-]). done.
    - apply bind_Ok in Hths as (th & -> & [= _ <-]). done. }
  set (n_dim := if reality then N else 2 * N - 1) in *.
  set (P := λ s : list (list (list (list C))),
         length s = Z.to_nat n_dim ∧
         Forall (λ cube, has_shape3 cube (length ths) (Z.to_nat L)
                           (Z.to_nat (2 * L - 1))) s).
  change (P dl).
  apply bind_Ok in H as (dl0 & H0 & H).
  assert (Hdl0 : P dl0).
  { unfold np_full4 in H0. destruct (_ || _); [done|]. injection H0 as <-.
    split; [apply length_replicate|]. apply Forall_replicate.
    rewrite <- (Nat2Z.id (length ths)) at 2. apply has_shape3_replicate. }
  apply bind_Ok in H as (dl1 & H1 & H).
  assert (Hdl1 : P dl1).
  { eapply (for_each_inv _ P); [exact Hdl0| |exact H1].
    intros s n s1 Hn%elem_of_seqZ Hs Hbody.
    eapply (for_each_inv _ P); [exact Hs| |exact Hbody].
    intros s2 [t theta] s3 [Ht _]%elem_of_py_enumerate Hs2 Hbody2.
    eapply (for_each_inv _ P); [exact Hs2| |exact Hbody2].
    intros s4 el s5 Hel%elem_of_seqZ [Hl4 Hs4] Hb.
    apply bind_Ok in Hb as (slice & _ & Hb).
    apply assign_row4_inv in Hb
      as (cube & plane & old & new & Hc & Hp & Hold & Hnew & ->);
      [|destruct reality; lia|lia..].
    split; [by rewrite length_insert|].
    apply Forall_insert; [done|].
    rewrite Forall_lookup in Hs4.
    eapply has_shape3_insert_row; [by eapply Hs4|done..]. }
  apply bind_Ok in H as (dl2 & H2 & H).
  assert (Hdl2 : P dl2).
  { destruct Hdl1 as [Hl1 Hs1]. destruct forward.
    - apply bind_Ok in H2 as (w & _ & H2).
      apply bind_Ok in H2 as (dl' & Hm & H2). injection H2 as <-.
      apply mapM_Ok in Hm. split.
      + rewrite length_fmap. by rewrite <- (Forall2_length _ _ _ Hm).
      + apply Forall_fmap. apply Forall_lookup. intros i c' Hc'.
        destruct (Forall2_lookup_r _ _ _ _ _ Hm Hc') as (c & Hc & He).
        simpl. apply has_shape3_fmap_map2d.
        rewrite Forall_lookup in Hs1.
        eapply has_shape3_einsum_tlm_t; [by eapply Hs1|exact He].
    - injection H2 as <-. unfold einsum_ntlm_l. split.
      + by rewrite length_fmap.
      + apply Forall_fmap. eapply Forall_impl; [exact Hs1|].
        intros cube Hcube. simpl. by apply has_shape3_scale_l. }
  case_bool_decide.
  - apply bind_Ok in H as (ph & _ & H). apply mapM_Ok in H.
    destruct Hdl2 as [Hl2 Hs2]. split.
    + by rewrite <- (Forall2_length _ _ _ H).
    + apply Forall_lookup. intros i c' Hc'.
      destruct (Forall2_lookup_r _ _ _ _ _ H Hc') as (c & Hc & He).
      rewrite Forall_lookup in Hs2.
      eapply has_shape3_einsum_tlm_tm; [by eapply Hs2|exact He].
  - by injection H as <-.
Qed.

(** X26. In a kernel returned by [wigner_kernel] ([N >= 1]) the entries
    [dl[ind, t, el, m]] of a degree [el] below the absolute value of the
    order [n] of the plane ([n = ind] for a real signal, [n = ind - (N - 1)]
    otherwise) are zero, for the forward and the inverse kernel and on every
    sampling. *)
Theorem wigner_kernel_zero_below_order (L N : Z) (reality : bool)
    (sampling : string) (nside : option Z) (forward : bool)
    (dl : list (list (list (list C)))) :
  1 ≤ N →
  wigner_kernel angle thetas compute_slice quad_weights_transform
    ring_phase_shift_hp wigner_scale wigner_weight
    L N reality sampling nside forward = Ok dl →
  ∀ (ind t el m : nat) cube (v : C),
    dl !! ind = Some cube → lookup3 cube t el m = Some v →
    Z.of_nat el
    < Z.abs (if reality then Z.of_nat ind else Z.of_nat ind - (N - 1)) →
    v = czero.
Proof.
  unfold wigner_kernel. intros HN H.
  set (order := λ ind : nat,
         if reality then Z.of_nat ind else Z.of_nat ind - (N - 1)).
  set (P := λ s : list (list (list (list C))),
         ∀ (ind t el m : nat) cube (v : C),
           s !! ind = Some cube → lookup3 cube t el m = Some v →
           Z.of_nat el < Z.abs (order ind) → v = czero).
  change (P dl).
  apply bind_Ok in H as ([sampling' ths] & _ & H).
  apply bind_Ok in H as (dl0 & H0 & H).
  assert (Hdl0 : P dl0).
  { unfold np_full4 in H0. destruct (_ || _); [done|]. injection H0 as <-.
    intros ind t el m cube v Hc Hv _.
    apply lookup_replicate in Hc as [-> _]. unfold lookup3 in Hv.
    destruct (replicate _ _ !! t) as [plane|] eqn:Hp; [|done].
    apply lookup_replicate in Hp as [-> _]. simpl in Hv.
    destruct (replicate _ _ !! el) as [row|] eqn:Hr; [|done].
    apply lookup_replicate in Hr as [-> _]. simpl in Hv.
    by apply lookup_replicate in Hv as [-> _]. }
  apply bind_Ok in H as (dl1 & H1 & H).
  assert (Hdl1 : P dl1).
  { eapply (for_each_inv _ P); [exact Hdl0| |exact H1].
    intros s n s1 Hn%elem_of_seqZ Hs Hbody.
    eapply (for_each_inv _ P); [exact Hs| |exact Hbody].
    intros s2 [t theta] s3 [Ht _]%elem_of_py_enumerate Hs2 Hbody2.
    eapply (for_each_inv _ P); [exact Hs2| |exact Hbody2].
    intros s4 el s5 Hel%elem_of_seqZ Hs4 Hb.
    apply bind_Ok in Hb as (slice & _ & Hb).
    set (ind := if reality then n else N - 1 + n) in *.
    assert (0 ≤ ind) by (unfold ind; destruct reality; lia).
    apply assign_row4_inv in Hb
      as (cube & plane & old & new & Hc & Hp & Hold & Hnew & ->); [|lia..].
    intros ind' t' el' m' cube' v Hc' Hv Hlt.
    destruct (decide (ind' = Z.to_nat ind)) as [->|Hne].
    - rewrite list_lookup_insert_eq in Hc' by (by eapply lookup_lt_Some).
      injection Hc' as <-.
      assert (order (Z.to_nat ind) = n) as Ho
        by (unfold order, ind; destruct reality; lia).
      rewrite Ho in Hlt.
      rewrite (lookup3_insert_row_ne _ _ _ _ _ _ _ _ Hp) in Hv by lia.
      apply (Hs4 (Z.to_nat ind) t' el' m' cube v Hc Hv). by rewrite Ho.
    - rewrite list_lookup_insert_ne in Hc' by done.
      by apply (Hs4 ind' t' el' m' cube' v Hc' Hv). }
  apply bind_Ok in H as (dl2 & H2 & H).
  assert (Hdl2 : P dl2).
  { destruct forward.
    - apply bind_Ok in H2 as (w & _ & H2).
      apply bind_Ok in H2 as (dl' & Hm & H2). injection H2 as <-.
      apply mapM_Ok in Hm.
      intros ind t el m cube v Hc Hv Hlt.
      rewrite list_lookup_fmap in Hc.
      destruct (dl' !! ind) as [c'|] eqn:Hc''; [|done]. injection Hc as <-.
      rewrite lookup3_fmap_map2d in Hv.
      destruct (lookup3 c' t el m) as [v1|] eqn:Hv1; [|done].
      injection Hv as <-.
      destruct (Forall2_lookup_r _ _ _ _ _ Hm Hc'') as (c & Hc & He).
      destruct (lookup3_einsum_tlm_t _ _ _ _ _ _ _ He Hv1) as (v0 & x & Hv0 & ->).
      rewrite (Hdl1 _ _ _ _ _ _ Hc Hv0 Hlt). by rewrite !cmul_zero_l.
    - injection H2 as <-. unfold einsum_ntlm_l.
      intros ind t el m cube v Hc Hv Hlt.
      rewrite list_lookup_fmap in Hc.
      destruct (dl1 !! ind) as [c|] eqn:Hc1; [|done]. injection Hc as <-.
      rewrite lookup3_scale_l in Hv.
      destruct (lookup3 c t el m) as [v0|] eqn:Hv0; [|done].
      injection Hv as <-.
      rewrite (Hdl1 _ _ _ _ _ _ Hc1 Hv0 Hlt). apply cmul_zero_l. }
  case_bool_decide.
  - apply bind_Ok in H as (ph & _ & H). apply mapM_Ok in H.
    intros ind t el m cube v Hc Hv Hlt.
    destruct (Forall2_lookup_r _ _ _ _ _ H Hc) as (c & Hc0 & He).
    destruct (lookup3_einsum_tlm_tm _ _ _ _ _ _ _ He Hv) as (v0 & x & Hv0 & ->).
    rewrite (Hdl2 _ _ _ _ _ _ Hc0 Hv0 Hlt). apply cmul_zero_l.
  - by injection H as <-.
Qed.
(** X27. The inverse kernel on a sampling other than HEALPix holds the
    scaled Wigner slices: when [compute_slice] returns rows of length
    [2 * L - 1], the entry [dl[ind, t, el, m]] for an order [n] of the loop
    ([ind = n] for a real signal, [ind = N - 1 + n] otherwise), a colatitude
    [ths[t]] and a degree [abs(n) <= el < L] is
    [compute_slice(ths[t], el, L, n, False)[m]] times the scale factor of
    the degree [el]. *)
Theorem wigner_kernel_inverse_entries (L N : Z) (reality : bool)
    (sampling : string) (nside : option Z) (ths : list angle)
    (dl : list (list (list (list C)))) :
  1 ≤ N →
  py_lower sampling ≠ "healpix" →
  (∀ theta el n s, compute_slice theta el L n false = Ok s →
                   length s = Z.to_nat (2 * L - 1)) →
  thetas L sampling nside = Ok ths →
  wigner_kernel angle thetas compute_slice quad_weights_transform
    ring_phase_shift_hp wigner_scale wigner_weight
    L N reality sampling nside false = Ok dl →
  ∀ (n : Z) (t : nat) (theta : angle) (el : Z),
    (if reality then 0 else 1 - N) ≤ n < N →
    ths !! t = Some theta → Z.abs n ≤ el < L →
    ∃ slice cube,
      compute_slice theta el L n false = Ok slice ∧
      dl !! Z.to_nat (if reality then n else N - 1 + n) = Some cube ∧
      ∀ m : nat, lookup3 cube t (Z.to_nat el) m
                 = (λ x, cmul x (wigner_scale el)) <$> slice !! m.
Proof.
  intros HN Hhp Hlen Hths H. unfold wigner_kernel in H.
  apply bind_Ok in H as ([sampling' ths'] & Hth & H).
  cbn [andb] in Hth. rewrite Hths in Hth. cbn in Hth.
  injection Hth as <- <-.
  set (lo := if reality then 0 else 1 - N).
  set (idx := λ n : Z, if reality then n else N - 1 + n).
  set (Sh := λ s : list (list (list (list C))),
         Forall (λ cube, has_shape3 cube (length ths) (Z.to_nat L)
                           (Z.to_nat (2 * L - 1))) s).
  set (W := λ (s : list (list (list (list C)))) (n : Z) (t : nat) (el : Z),
         lo ≤ n ∧ 0 ≤ el ∧
         ∃ theta slice, ths !! t = Some theta ∧
           compute_slice theta el L n false = Ok slice ∧
           (s !! Z.to_nat (idx n) ≫= λ c, c !! t ≫= λ p, p !! Z.to_nat el)
           = Some slice).
  set (Inv := λ (D : Z → nat → Z → Prop) s,
         Sh s ∧ ∀ n t el, D n t el → W s n t el).
  assert (Hmono : ∀ (D D' : Z → nat → Z → Prop) s,
            Inv D s → (∀ n t el, D' n t el → D n t el) → Inv D' s).
  { intros D D' s [HS HD] HDD. split; [done|]. intros n t el Hk. auto. }
  assert (Hstep : ∀ (D : Z → nat → Z → Prop) s s' n (t : nat) theta el,
            Inv D s → lo ≤ n → ths !! t = Some theta → 0 ≤ el →
            (slice ← compute_slice theta el L n false;
             assign_row4 s (idx n) (Z.of_nat t) el slice) = Ok s' →
            Inv (λ n' t' el', D n' t' el' ∨ (n' = n ∧ t' = t ∧ el' = el)) s').
  { intros D s s' n t theta el [HS HD] Hn Ht Hel Hb.
    apply bind_Ok in Hb as (slice & Hsl & Hb).
    assert (0 ≤ idx n) by (unfold idx, lo in *; destruct reality; lia).
    apply assign_row4_inv_eq in Hb
      as (cube & plane & old & new & Hc & Hp & Hold & Hnew & Heq & ->);
      [|lia..].
    rewrite Nat2Z.id in Hp |- *.
    assert (Hcube : has_shape3 cube (length ths) (Z.to_nat L)
                      (Z.to_nat (2 * L - 1))).
    { unfold Sh in HS. rewrite Forall_lookup in HS. by eapply HS. }
    assert (Hlo : length old = Z.to_nat (2 * L - 1)).
    { destruct Hcube as [_ Hall]. rewrite Forall_lookup in Hall.
      destruct (Hall _ _ Hp) as [_ Hrows]. rewrite Forall_lookup in Hrows.
      by eapply Hrows. }
    assert (new = slice) as ->.
    { apply Heq. rewrite Hlo. by eapply Hlen. }
    split.
    { apply Forall_insert; [done|].
      eapply has_shape3_insert_row; [exact Hcube|exact Hp|exact Hold|exact Hnew]. }
    intros n' t' el' Hk.
    assert (Hb' : lo ≤ n' ∧ 0 ≤ el').
    { destruct Hk as [Hk|(-> & -> & ->)]; [|by split].
      destruct (HD _ _ _ Hk) as (? & ? & _). done. }
    destruct Hb' as [Hn' Hel'].
    assert (0 ≤ idx n') by (unfold idx, lo in *; destruct reality; lia).
    unfold W. split; [done|]. split; [done|].
    rewrite (lookup_row_insert4 _ _ _ _ _ _ _ _ _ _ _ Hc Hp Hold).
    destruct (decide _) as [(Hi & -> & He)|Hne].
    - assert (n' = n) as -> by (unfold idx in *; destruct reality; lia).
      assert (el' = el) as -> by lia.
      by exists theta, slice.
    - destruct Hk as [Hk|(-> & -> & ->)]; [|by destruct Hne].
      destruct (HD _ _ _ Hk) as (_ & _ & HW). exact HW. }
  apply bind_Ok in H as (dl0 & H0 & H).
  assert (Hdl0 : Sh dl0).
  { unfold np_full4 in H0. destruct (_ || _); [done|]. injection H0 as <-.
    apply Forall_replicate.
    rewrite <- (Nat2Z.id (length ths)) at 2. apply has_shape3_replicate. }
  apply bind_Ok in H as (dl1 & H1 & H).
  assert (Hdl1 : Inv (λ n t el, n ∈ py_range (lo - 0) N ∧
                                is_Some (ths !! t) ∧ Z.abs n ≤ el < L) dl1).
  { replace (py_range ((if reality then N - 1 else 0) - N + 1) N)
      with (py_range (lo - 0) N) in H1
      by (unfold lo; destruct reality; f_equal; lia).
    revert H1.
    apply (for_each_inv_prefix _
             (λ pre s, Inv (λ n t el, n ∈ pre ∧ is_Some (ths !! t) ∧
                                      Z.abs n ≤ el < L) s)).
    { split; [done|]. intros n t el [Hn _]. by apply elem_of_nil in Hn. }
    intros pre n post s s1 Hidx Hs Hbody.
    assert (Hn : lo ≤ n).
    { assert (n ∈ py_range (lo - 0) N) as Hn
        by (rewrite Hidx, elem_of_app, elem_of_cons; auto).
      apply elem_of_seqZ in Hn. lia. }
    assert (Hmid : Inv (λ n' t' el',
                (n' ∈ pre ∧ is_Some (ths !! t') ∧ Z.abs n' ≤ el' < L) ∨
                (n' = n ∧ (∃ th, (Z.of_nat t', th) ∈ py_enumerate ths) ∧
                 Z.abs n ≤ el' < L)) s1).
    { revert Hbody.
      apply (for_each_inv_prefix _
               (λ pret s, Inv (λ n' t' el',
                  (n' ∈ pre ∧ is_Some (ths !! t') ∧ Z.abs n' ≤ el' < L) ∨
                  (n' = n ∧ (∃ th, (Z.of_nat t', th) ∈ pret) ∧
                   Z.abs n ≤ el' < L)) s)).
      { eapply Hmono; [exact Hs|]. intros n' t' el' [Hk|(_ & [th Hth] & _)];
          [done|]. by apply elem_of_nil in Hth. }
      intros pret [t theta] postt s2 s3 Hidt Hs2 Hbody2.
      assert (Ht : 0 ≤ t ∧ ths !! Z.to_nat t = Some theta).
      { apply elem_of_py_enumerate.
        rewrite Hidt, elem_of_app, elem_of_cons. auto. }
      destruct Ht as [Ht0 Ht].
      assert (Hin : Inv (λ n' t' el',
                ((n' ∈ pre ∧ is_Some (ths !! t') ∧ Z.abs n' ≤ el' < L) ∨
                 (n' = n ∧ (∃ th, (Z.of_nat t', th) ∈ pret) ∧
                  Z.abs n ≤ el' < L)) ∨
                (n' = n ∧ t' = Z.to_nat t ∧ el' ∈ py_range (Z.abs n) L)) s3).
      { revert Hbody2.
        apply (for_each_inv_prefix _
                 (λ prel s, Inv (λ n' t' el',
                    ((n' ∈ pre ∧ is_Some (ths !! t') ∧ Z.abs n' ≤ el' < L) ∨
                     (n' = n ∧ (∃ th, (Z.of_nat t', th) ∈ pret) ∧
                      Z.abs n ≤ el' < L)) ∨
                    (n' = n ∧ t' = Z.to_nat t ∧ el' ∈ prel)) s)).
        { eapply Hmono; [exact Hs2|]. intros n' t' el' [Hk|(_ & _ & Hk)];
            [done|]. by apply elem_of_nil in Hk. }
        intros prel el postl s4 s5 Hidl Hs4 Hb.
        assert (Hel : Z.abs n ≤ el).
        { assert (el ∈ py_range (Z.abs n) L) as Hel
            by (rewrite Hidl, elem_of_app, elem_of_cons; auto).
          apply elem_of_seqZ in Hel. lia. }
        cbv zeta in Hb. fold (idx n) in Hb.
        rewrite <- (Z2Nat.id t) in Hb by done.
        eapply Hmono; [eapply (Hstep _ s4 s5 n (Z.to_nat t) theta el);
                         [exact Hs4|done|done|lia|exact Hb]|].
        intros n' t' el' [Hk|(-> & -> & Hk)]; [by left; left|].
        apply elem_of_app in Hk as [Hk|Hk%list_elem_of_singleton].
        - left. right. done.
        - right. done. }
      eapply Hmono; [exact Hin|].
      intros n' t' el' [Hk|(-> & [th Hth] & Hr)]; [by left; left|].
      apply elem_of_app in Hth as [Hth|Hth%list_elem_of_singleton].
      - left. right. eauto.
      - right. injection Hth as <- <-. rewrite Nat2Z.id.
        split; [done|]. split; [done|].
        apply elem_of_seqZ. lia. }
    eapply Hmono; [exact Hmid|].
    intros n' t' el' (Hn' & [th Hth] & Hr).
    apply elem_of_app in Hn' as [Hn'|Hn'%list_elem_of_singleton].
    - left. eauto.
    - subst n'. right. split; [done|]. split; [|done].
      exists th. apply elem_of_py_enumerate. rewrite Nat2Z.id.
      split; [lia|done]. }
  apply bind_Ok in H as (dl2 & H2 & H). injection H2 as <-.
  rewrite bool_decide_eq_false_2 in H by done. injection H as <-.
  intros n t theta el Hn Ht Hel.
  destruct Hdl1 as [_ HD].
  destruct (HD n t el) as (_ & _ & theta' & slice & Ht' & Hsl & Hrow).
  { split; [apply elem_of_seqZ; fold lo in Hn; lia|]. split; [eauto|done]. }
  rewrite Ht in Ht'. injection Ht' as <-.
  fold lo in Hn. fold (idx n).
  destruct (dl1 !! Z.to_nat (idx n)) as [cube|] eqn:Hc; [|done].
  cbn [mbind option_bind] in Hrow.
  exists slice. eexists. split; [done|]. split.
  { unfold einsum_ntlm_l. rewrite list_lookup_fmap, Hc. done. }
  intros m. rewrite lookup3_scale_l. rewrite Z2Nat.id by lia.
  f_equal. unfold lookup3.
  destruct (cube !! t) as [plane|]; [|done]. cbn [mbind option_bind] in *.
  by rewrite Hrow.
Qed.
End wigner_kernel_facts.

Lemma wigner_kernel_shape_witness :
  ∃ dl ths,
    wigner_kernel Z sample_thetas sample_compute_slice sample_quad_weights
      sample_ring_phase_shift GaussZ.re GaussZ.re 2 2 false "mw" None false
    = Ok dl ∧
    sample_thetas 2 "mw" None = Ok ths ∧
    length dl = Z.to_nat (2 * 2 - 1) ∧
    Forall (λ cube, has_shape3 cube (length ths) (Z.to_nat 2)
                      (Z.to_nat (2 * 2 - 1))) dl.
Proof.
  eexists.
  assert (∀ A (P : A → Prop) (R : Prop), R → (R → ∃ x, P x) → ∃ x, R ∧ P x)
    as Hcut by (intros A P R HR HP; destruct (HP HR) as [x ?]; eauto).
  apply Hcut; [vm_compute; reflexivity|]. intros Hdl.
  apply (wigner_kernel_shape Z sample_thetas sample_compute_slice
           sample_quad_weights sample_ring_phase_shift GaussZ.re GaussZ.re
           2 2 false "mw" None false _ ltac:(lia) Hdl).
Defined.

Lemma wigner_kernel_zero_below_order_witness :
  ∃ dl,
    wigner_kernel Z sample_thetas sample_compute_slice sample_quad_weights
      sample_ring_phase_shift GaussZ.re GaussZ.re 2 2 true "mw" None false
    = Ok dl ∧
    ∀ (ind t el m : nat) cube (v : GaussZ.t),
      dl !! ind = Some cube → lookup3 cube t el m = Some v →
      Z.of_nat el < Z.abs (Z.of_nat ind) → v = czero.
Proof.
  eexists.
  assert (∀ P Q : Prop, P → (P → Q) → P ∧ Q) as Hcut by tauto.
  apply Hcut; [vm_compute; reflexivity|]. intros Hdl.
  apply (wigner_kernel_zero_below_order Z sample_thetas sample_compute_slice
           sample_quad_weights sample_ring_phase_shift GaussZ.re GaussZ.re
           2 2 true "mw" None false _ ltac:(lia) Hdl).
Defined.

Lemma wigner_kernel_inverse_entries_witness :
  ∃ dl,
    wigner_kernel Z sample_thetas sample_compute_slice sample_quad_weights
      sample_ring_phase_shift GaussZ.re GaussZ.re 2 2 false "mw" None false
    = Ok dl ∧
    ∀ (n : Z) (t : nat) (theta : Z) (el : Z),
      1 - 2 ≤ n < 2 → seqZ 0 2 !! t = Some theta → Z.abs n ≤ el < 2 →
      ∃ slice cube,
        sample_compute_slice theta el 2 n false = Ok slice ∧
        dl !! Z.to_nat (2 - 1 + n) = Some cube ∧
        ∀ m : nat, lookup3 cube t (Z.to_nat el) m
                   = (λ x, cmul x (GaussZ.re el)) <$> slice !! m.
Proof.
  eexists.
  assert (∀ P Q : Prop, P → (P → Q) → P ∧ Q) as Hcut by tauto.
  apply Hcut; [vm_compute; reflexivity|]. intros Hdl.
  apply (wigner_kernel_inverse_entries Z sample_thetas sample_compute_slice
           sample_quad_weights sample_ring_phase_shift GaussZ.re GaussZ.re
           2 2 false "mw" None (seqZ 0 2) _ ltac:(lia)).
  - vm_compute. discriminate.
  - intros theta el n s [= <-]. reflexivity.
  - reflexivity.
  - exact Hdl.
Defined.

(** ** s2fft/general_precompute/resampling_jax.py: resampling along theta *)

Lemma view_contents_length {A} (a : list A) (r0 r1 : Z) :
  length (view_contents a (mk_view (length a) r0 r1))
  = v_len (mk_view (length a) r0 r1).
Proof.
  pose proof (mk_view_bound (length a) r0 r1).
  unfold view_contents. rewrite length_take, length_drop. lia.
Qed.

(** A slice assignment of a block of the shape of the slice succeeds and
    keeps the shape of a rectangular array. *)
Lemma at_set2d_returns {A} (a v : list (list A)) (r0 r1 c0 c1 : Z) (n m : nat) :
  length a = n → Forall (λ row, length row = m) a →
  length v = v_len (mk_view n r0 r1) →
  Forall (λ row, length row = v_len (mk_view m c0 c1)) v →
  ∃ a', at_set2d a r0 r1 c0 c1 v = Ok a' ∧
        length a' = n ∧ Forall (λ row, length row = m) a'.
Proof.
  intros Hn Hrows Hv Hvrows.
  destruct (at_set2d a r0 r1 c0 c1 v) as [a'|e] eqn:Hset.
  - exists a'. split; [done|].
    destruct (at_set2d_preserves_shape a a' v r0 r1 c0 c1 m Hset) as [Hl HF].
    split; [congruence|auto].
  - exfalso. unfold at_set2d in Hset. rewrite bool_decide_true in Hset; [done|].
    apply Forall2_same_length_lookup_2.
    + rewrite view_contents_length. by rewrite Hn, Hv.
    + intros i arow vrow Ha Hvr. cbv beta.
      unfold view_contents in Ha. apply lookup_take_Some in Ha as [Ha _].
      rewrite lookup_drop in Ha.
      rewrite Forall_lookup in Hrows. rewrite (Hrows _ _ Ha).
      rewrite Forall_lookup in Hvrows. by apply (Hvrows _ _ Hvr).
Qed.

Lemma v_len_mk_view_in (len : nat) (a b : Z) :
  0 ≤ a → a ≤ b → b ≤ Z.of_nat len →
  v_len (mk_view len a b) = Z.to_nat (b - a).
Proof. intros. by rewrite mk_view_in. Qed.

Lemma Forall_fftshift {A} (P : A → Prop) (x : list A) :
  Forall P x → Forall P (fftshift x).
Proof.
  intros H. unfold fftshift. apply Forall_app.
  split; [by apply Forall_drop|by apply Forall_take].
Qed.

Lemma Forall_ifftshift {A} (P : A → Prop) (x : list A) :
  Forall P x → Forall P (ifftshift x).
Proof.
  intros H. unfold ifftshift. apply Forall_app.
  split; [by apply Forall_drop|by apply Forall_take].
Qed.

Lemma slice2d_shape {A} (a : list (list A)) (r0 r1 c0 c1 : Z) (m : nat) :
  Forall (λ row, length row = m) a →
  length (slice2d a r0 r1 c0 c1) = v_len (mk_view (length a) r0 r1) ∧
  Forall (λ row, length row = v_len (mk_view m c0 c1)) (slice2d a r0 r1 c0 c1).
Proof.
  intros Hrows. unfold slice2d. split.
  - rewrite length_fmap. unfold py_slice. apply view_contents_length.
  - apply Forall_fmap. unfold py_slice at 2. unfold view_contents.
    apply Forall_take, Forall_drop.
    eapply Forall_impl; [exact Hrows|]. intros row <-. simpl.
    unfold py_slice. apply view_contents_length.
Qed.

Lemma np_zeros2_returns {C} {SC : Scalar C} (n m : Z) :
  0 ≤ n → 0 ≤ m →
  ∃ z : list (list C), np_zeros2 (n, m) = Ok z ∧ length z = Z.to_nat n ∧
       Forall (λ row, length row = Z.to_nat m) z ∧
       (1 ≤ n → length (default [] (head z)) = Z.to_nat m).
Proof.
  intros Hn Hm. unfold np_zeros2. cbn [fst snd].
  destruct (Z.ltb_spec n 0); [lia|]. destruct (Z.ltb_spec m 0); [lia|].
  eexists. split; [done|]. split; [apply length_replicate|].
  split; [apply Forall_replicate, length_replicate|].
  intros Hn1. destruct (Z.to_nat n) eqn:E; [lia|]. simpl.
  apply length_replicate.
Qed.

Lemma length_head_row {A} (a : list (list A)) (m : nat) :
  (1 ≤ length a)%nat → Forall (λ row, length row = m) a →
  length (default [] (head a)) = m.
Proof.
  intros Hl Hrows. destruct a as [|row a]; simpl in *; [lia|].
  by inversion Hrows.
Qed.

Section resampling_returns.
Context {C : Type} {SC : Scalar C}.
Variables ntheta nphi_equiang ntheta_extension : Z → string → Z.
Variables fft ifft fft_forward ifft_forward : list C → list C.
Variables fft_theta ifft_theta : list (list C) → list (list C).
Variable theta_phase : Z → Z → C.

Lemma periodic_extension_returns (f : list (list C)) (L spin : Z)
    (sampling : string) :
  sampling = "mw" ∨ sampling = "mwss" →
  1 ≤ L →
  ntheta L sampling = equiang_ntheta L sampling →
  nphi_equiang L sampling = equiang_nphi L sampling →
  ntheta_extension L sampling = equiang_ntheta_extension L sampling →
  (∀ x, length (fft x) = length x) →
  (∀ x, length (ifft x) = length x) →
  length f = Z.to_nat (equiang_ntheta L sampling) →
  Forall (λ row, length row = Z.to_nat (equiang_nphi L sampling)) f →
  ∃ out,
    periodic_extension ntheta nphi_equiang ntheta_extension fft ifft
      f L spin sampling = Ok out ∧
    length out = Z.to_nat (equiang_ntheta_extension L sampling) ∧
    Forall (λ row, length row = Z.to_nat (equiang_nphi L sampling)) out.
Proof.
  intros Hs HL Hnt Hnp Hne Hfft Hifft Hf Hrows.
  set (mo := if bool_decide (sampling = "mwss") then 1 else 0).
  assert (Hmo : mo = 0 ∨ mo = 1) by (unfold mo; case_bool_decide; lia).
  assert (Hnt' : equiang_ntheta L sampling = L + mo)
    by (unfold equiang_ntheta, mo; case_bool_decide; lia).
  assert (Hnp' : equiang_nphi L sampling = 2 * L - 1 + mo)
    by (unfold equiang_nphi, mo; case_bool_decide; lia).
  assert (Hne' : equiang_ntheta_extension L sampling = 2 * L - 1 + mo)
    by (unfold equiang_ntheta_extension, mo; case_bool_decide; lia).
  unfold periodic_extension. fold mo. rewrite Hnt, Hnp, Hne.
  rewrite Hnt', Hnp', Hne' in *. cbv zeta.
  destruct (np_zeros2_returns (C := C) (2 * L - 1 + mo) (2 * L - 1 + mo))
    as (z & -> & Hzl & Hzr & _); [lia..|].
  cbn [mbind result_bind].
  destruct (slice2d_shape f 0 (L + mo) 0 (2 * L - 1 + mo) _ Hrows)
    as [Hsl Hsr].
  destruct (at_set2d_returns z (slice2d f 0 (L + mo) 0 (2 * L - 1 + mo))
              0 (L + mo) 0 (2 * L - 1 + mo) _ _ Hzl Hzr)
    as (a1 & -> & Ha1l & Ha1r).
  { rewrite Hsl, !v_len_mk_view_in by lia. done. }
  { exact Hsr. }
  cbn [mbind result_bind].
  set (E2 := (λ row : list C, fftshift (fft row)) <$> a1).
  assert (HE2l : length E2 = Z.to_nat (2 * L - 1 + mo))
    by (unfold E2; by rewrite length_fmap).
  assert (HE2r : Forall (λ row, length row = Z.to_nat (2 * L - 1 + mo)) E2).
  { unfold E2. apply Forall_fmap. eapply Forall_impl; [exact Ha1r|].
    intros row Hrow. cbv [compose] in Hrow |- *. by rewrite length_fftshift, Hfft. }
  destruct (slice2d_shape E2 mo (L - 1 + mo) mo (2 * L - 1 + mo) _ HE2r)
    as [Hsl2 Hsr2].
  match goal with |- context [at_set2d E2 ?r0 ?r1 ?c0 ?c1 ?v] =>
    destruct (at_set2d_returns E2 v r0 r1 c0 c1 _ _ HE2l HE2r)
      as (a2 & -> & Ha2l & Ha2r) end.
  { rewrite length_fmap, length_reverse, Hsl2.
    rewrite !v_len_mk_view_in by lia. lia. }
  { apply Forall_fmap, Forall_reverse.
    eapply Forall_impl; [exact Hsr2|]. intros row Hrow. cbv [compose] in Hrow |- *.
    rewrite length_zip_with, length_fmap, Hrow. unfold py_range.
    rewrite length_seqZ, !v_len_mk_view_in by lia. lia. }
  cbn [mbind result_bind]. eexists. split; [done|].
  split; [by rewrite length_fmap|].
  apply Forall_fmap. eapply Forall_impl; [exact Ha2r|].
  intros row Hrow. cbv [compose] in Hrow |- *. by rewrite Hifft, length_ifftshift.
Qed.

Lemma periodic_extension_spatial_mwss_returns (f : list (list C)) (L spin : Z) :
  1 ≤ L →
  length f = Z.to_nat (L + 1) →
  Forall (λ row, length row = Z.to_nat (2 * L)) f →
  ∃ out, periodic_extension_spatial_mwss f L spin = Ok out ∧
         length out = Z.to_nat (2 * L) ∧
         Forall (λ row, length row = Z.to_nat (2 * L)) out.
Proof.
  intros HL Hf Hrows. unfold periodic_extension_spatial_mwss. cbv zeta.
  destruct (np_zeros2_returns (C := C) (2 * L) (2 * L))
    as (z & -> & Hzl & Hzr & _); [lia..|].
  cbn [mbind result_bind].
  destruct (slice2d_shape f 0 (L + 1) 0 (2 * L) _ Hrows) as [Hsl Hsr].
  destruct (at_set2d_returns z (slice2d f 0 (L + 1) 0 (2 * L))
              0 (L + 1) 0 (2 * L) _ _ Hzl Hzr)
    as (a1 & -> & Ha1l & Ha1r).
  { rewrite Hsl, !v_len_mk_view_in by lia. done. }
  { exact Hsr. }
  cbn [mbind result_bind].
  destruct (slice2d_shape f 1 (L + 1 - 1) 0 (2 * L) _ Hrows) as [Hsl2 Hsr2].
  match goal with |- context [at_set2d a1 ?r0 ?r1 ?c0 ?c1 ?v] =>
    destruct (at_set2d_returns a1 v r0 r1 c0 c1 _ _ Ha1l Ha1r)
      as (a2 & -> & Ha2l & Ha2r) end.
  { unfold map2d. rewrite !length_fmap, length_reverse, Hsl2.
    rewrite !v_len_mk_view_in by lia. lia. }
  { unfold map2d. apply Forall_fmap, Forall_fmap, Forall_reverse.
    eapply Forall_impl; [exact Hsr2|]. intros row Hrow. cbv [compose] in Hrow |- *.
    by rewrite length_fmap, length_fftshift. }
  eauto.
Qed.

Lemma mw_to_mwss_phi_returns (f : list (list C)) (L : Z) :
  1 ≤ L →
  (∀ x, length (fft_forward x) = length x) →
  (∀ x, length (ifft_forward x) = length x) →
  length f = Z.to_nat (L + 1) →
  Forall (λ row, length row = Z.to_nat (2 * L - 1)) f →
  ∃ out, mw_to_mwss_phi fft_forward ifft_forward f L = Ok out ∧
         length out = Z.to_nat (L + 1) ∧
         Forall (λ row, length row = Z.to_nat (2 * L)) out.
Proof.
  intros HL Hfft Hifft Hf Hrows. unfold mw_to_mwss_phi.
  destruct (np_zeros2_returns (C := C) (L + 1) (2 * L))
    as (z & -> & Hzl & Hzr & Hzh); [lia..|].
  cbn [mbind result_bind]. rewrite Hzh by lia.
  match goal with |- context [at_set2d z ?r0 ?r1 ?c0 ?c1 ?v] =>
    destruct (at_set2d_returns z v r0 r1 c0 c1 _ _ Hzl Hzr)
      as (a1 & -> & Ha1l & Ha1r) end.
  { rewrite length_fmap, v_len_mk_view_in by lia. lia. }
  { apply Forall_fmap. eapply Forall_impl; [exact Hrows|].
    intros row Hrow. cbv [compose] in Hrow |- *.
    rewrite length_fftshift, Hfft, v_len_mk_view_in by lia. lia. }
  cbn [mbind result_bind]. eexists. split; [done|].
  split; [by rewrite length_fmap|].
  apply Forall_fmap. eapply Forall_impl; [exact Ha1r|].
  intros row Hrow. cbv [compose] in Hrow |- *. by rewrite Hifft, length_ifftshift.
Qed.

Lemma mw_to_mwss_theta_returns (f : list (list C)) (L spin : Z) :
  1 ≤ L →
  ntheta L "mw" = L → nphi_equiang L "mw" = 2 * L - 1 →
  ntheta_extension L "mw" = 2 * L - 1 →
  (∀ x, length (fft x) = length x) →
  (∀ x, length (ifft x) = length x) →
  (∀ x m, Forall (λ row, length row = m) x →
          length (fft_theta x) = length x ∧
          Forall (λ row, length row = m) (fft_theta x)) →
  (∀ x m, Forall (λ row, length row = m) x →
          length (ifft_theta x) = length x ∧
          Forall (λ row, length row = m) (ifft_theta x)) →
  length f = Z.to_nat L →
  Forall (λ row, length row = Z.to_nat (2 * L - 1)) f →
  ∃ out,
    mw_to_mwss_theta ntheta nphi_equiang ntheta_extension fft ifft
      fft_theta ifft_theta theta_phase f L spin = Ok out ∧
    length out = Z.to_nat (L + 1) ∧
    Forall (λ row, length row = Z.to_nat (2 * L - 1)) out.
Proof.
  intros HL Hnt Hnp Hne Hfft Hifft Hft Hift Hf Hrows. unfold mw_to_mwss_theta.
  destruct (periodic_extension_returns f L spin "mw")
    as (ext & -> & Hel & Her); [by left|done..|].
  change (equiang_ntheta_extension L "mw") with (2 * L - 1) in Hel.
  change (equiang_nphi L "mw") with (2 * L - 1) in Her.
  cbn [mbind result_bind].
  destruct (np_zeros2_returns (C := C) (2 * L) (2 * L - 1))
    as (z & -> & Hzl & Hzr & Hzh); [lia..|].
  cbn [mbind result_bind]. rewrite Hzh by lia.
  destruct (Hft ext _ Her) as [Hftl Hftr].
  match goal with |- context [at_set2d z ?r0 ?r1 ?c0 ?c1 ?v] =>
    destruct (at_set2d_returns z v r0 r1 c0 c1 _ _ Hzl Hzr)
      as (a1 & -> & Ha1l & Ha1r) end.
  { rewrite length_fftshift, Hftl, v_len_mk_view_in by lia. lia. }
  { apply Forall_fftshift. eapply Forall_impl; [exact Hftr|].
    intros row Hrow. cbv [compose] in Hrow |- *. rewrite v_len_mk_view_in by lia. lia. }
  cbn [mbind result_bind].
  assert (Hsl : length (py_slice a1 1 (Z.of_nat (length a1)))
                = Z.to_nat (2 * L - 1)).
  { unfold py_slice. rewrite view_contents_length, v_len_mk_view_in by lia.
    lia. }
  assert (Hsr : Forall (λ row, length row = Z.to_nat (2 * L - 1))
                  (py_slice a1 1 (Z.of_nat (length a1)))).
  { unfold py_slice, view_contents. by apply Forall_take, Forall_drop. }
  unfold einsum_lp_l. rewrite decide_True.
  2:{ rewrite length_fmap, Hsl. unfold py_range. rewrite length_seqZ. lia. }
  cbn [mbind result_bind].
  rewrite (length_head_row a1 (Z.to_nat (2 * L - 1))) by (lia || done).
  match goal with |- context [at_set2d a1 ?r0 ?r1 ?c0 ?c1 ?v] =>
    destruct (at_set2d_returns a1 v r0 r1 c0 c1 _ _ Ha1l Ha1r)
      as (a2 & -> & Ha2l & Ha2r) end.
  { rewrite length_zip_with, length_fmap, Hsl. unfold py_range.
    rewrite length_seqZ, v_len_mk_view_in by lia. lia. }
  { apply Forall_lookup. intros i row Hi.
    apply lookup_zip_with_Some in Hi as (r & x & -> & Hr & _).
    rewrite length_fmap. rewrite Forall_lookup in Hsr.
    rewrite (Hsr _ _ Hr), v_len_mk_view_in by lia. lia. }
  cbn [mbind result_bind].
  destruct (Hift (ifftshift a2) _ (Forall_ifftshift _ _ Ha2r)) as [Hil Hir].
  rewrite length_ifftshift in Hil.
  unfold unextend. simpl. eexists. split; [done|]. split.
  - unfold py_slice. rewrite view_contents_length, v_len_mk_view_in by lia.
    lia.
  - unfold py_slice, view_contents. by apply Forall_take, Forall_drop.
Qed.

Lemma upsample_by_two_mwss_ext_returns (f_ext : list (list C)) (L : Z) :
  1 ≤ L →
  (∀ x m, Forall (λ row, length row = m) x →
          length (fft_theta x) = length x ∧
          Forall (λ row, length row = m) (fft_theta x)) →
  (∀ x m, Forall (λ row, length row = m) x →
          length (ifft_theta x) = length x ∧
          Forall (λ row, length row = m) (ifft_theta x)) →
  length f_ext = Z.to_nat (2 * L) →
  Forall (λ row, length row = Z.to_nat (2 * L)) f_ext →
  ∃ out, upsample_by_two_mwss_ext fft_theta ifft_theta f_ext L = Ok out ∧
         length out = Z.to_nat (4 * L) ∧
         Forall (λ row, length row = Z.to_nat (2 * L)) out.
Proof.
  intros HL Hft Hift Hf Hrows. unfold upsample_by_two_mwss_ext. cbv zeta.
  destruct (np_zeros2_returns (C := C) (2 * (2 * L)) (2 * L))
    as (z & -> & Hzl & Hzr & _); [lia..|].
  cbn [mbind result_bind].
  destruct (Hft f_ext _ Hrows) as [Hftl Hftr].
  destruct (slice2d_shape (fftshift (fft_theta f_ext)) 0 (2 * L) 0 (2 * L) _
              (Forall_fftshift _ _ Hftr)) as [Hsl Hsr].
  rewrite length_fftshift, Hftl in Hsl.
  match goal with |- context [at_set2d z ?r0 ?r1 ?c0 ?c1 ?v] =>
    destruct (at_set2d_returns z v r0 r1 c0 c1 _ _ Hzl Hzr)
      as (a1 & -> & Ha1l & Ha1r) end.
  { rewrite Hsl, !v_len_mk_view_in by lia. lia. }
  { exact Hsr. }
  cbn [mbind result_bind].
  destruct (Hift (ifftshift a1) _ (Forall_ifftshift _ _ Ha1r)) as [Hil Hir].
  rewrite length_ifftshift in Hil.
  eexists. split; [done|]. split; [lia|done].
Qed.

(** X28. [mw_to_mwss] takes a field on the MW grid to one on the MWSS
    grid: for [L >= 1], a field of shape [(L, 2L-1)] and transforms that
    keep the shape of their argument, the call returns, and its result has
    shape [(L+1, 2L)]. *)
Theorem mw_to_mwss_shape (f_mw : list (list C)) (L spin : Z) :
  1 ≤ L →
  ntheta L "mw" = L → nphi_equiang L "mw" = 2 * L - 1 →
  ntheta_extension L "mw" = 2 * L - 1 →
  (∀ x, length (fft x) = length x) →
  (∀ x, length (ifft x) = length x) →
  (∀ x, length (fft_forward x) = length x) →
  (∀ x, length (ifft_forward x) = length x) →
  (∀ x m, Forall (λ row, length row = m) x →
          length (fft_theta x) = length x ∧
          Forall (λ row, length row = m) (fft_theta x)) →
  (∀ x m, Forall (λ row, length row = m) x →
          length (ifft_theta x) = length x ∧
          Forall (λ row, length row = m) (ifft_theta x)) →
  length f_mw = Z.to_nat L →
  Forall (λ row, length row = Z.to_nat (2 * L - 1)) f_mw →
  ∃ out,
    mw_to_mwss ntheta nphi_equiang ntheta_extension fft ifft
      fft_forward ifft_forward fft_theta ifft_theta theta_phase f_mw L spin
    = Ok out ∧
    length out = Z.to_nat (L + 1) ∧
    Forall (λ row, length row = Z.to_nat (2 * L)) out.
Proof.
  intros HL Hnt Hnp Hne Hfft Hifft Hff Hiff Hft Hift Hf Hrows.
  destruct (mw_to_mwss_theta_returns f_mw L spin)
    as (mid & Hmid & Hml & Hmr); [done..|].
  destruct (mw_to_mwss_phi_returns mid L) as (out & Hout & Hol & Hor);
    [done..|].
  exists out. split; [|done].
  unfold mw_to_mwss. rewrite Hmid. cbn [mbind result_bind]. exact Hout.
Qed.

(** X29. [upsample_by_two_mwss] doubles the resolution in [theta] only:
    for [L >= 1], a field of shape [(L+1, 2L)] and transforms along the
    first axis that keep the shape of their argument, the call returns, and
    its result has [2L+1] rows of [2L] samples each. *)
Theorem upsample_by_two_mwss_shape (f : list (list C)) (L spin : Z) :
  1 ≤ L →
  (∀ x m, Forall (λ row, length row = m) x →
          length (fft_theta x) = length x ∧
          Forall (λ row, length row = m) (fft_theta x)) →
  (∀ x m, Forall (λ row, length row = m) x →
          length (ifft_theta x) = length x ∧
          Forall (λ row, length row = m) (ifft_theta x)) →
  length f = Z.to_nat (L + 1) →
  Forall (λ row, length row = Z.to_nat (2 * L)) f →
  ∃ out,
    upsample_by_two_mwss fft_theta ifft_theta f L spin = Ok out ∧
    length out = Z.to_nat (2 * L + 1) ∧
    Forall (λ row, length row = Z.to_nat (2 * L)) out.
Proof.
  intros HL Hft Hift Hf Hrows.
  destruct (periodic_extension_spatial_mwss_returns f L spin)
    as (ext & Hext & Hel & Her); [done..|].
  destruct (upsample_by_two_mwss_ext_returns ext L)
    as (up & Hup & Hul & Hur); [done..|].
  unfold upsample_by_two_mwss. rewrite Hext. cbn [mbind result_bind].
  rewrite Hup. cbn [mbind result_bind].
  unfold unextend. simpl. eexists. split; [done|]. split.
  - unfold py_slice. rewrite view_contents_length, v_len_mk_view_in by lia.
    lia.
  - unfold py_slice, view_contents. by apply Forall_take, Forall_drop.
Qed.
End resampling_returns.

Lemma gauss_dft_theta_shape (sign : Z) (x : list (list GaussZ.t)) (m : nat) :
  Forall (λ row, length row = m) x →
  length (gauss_dft_theta sign x) = length x ∧
  Forall (λ row, length row = m) (gauss_dft_theta sign x).
Proof.
  intros Hrows. unfold gauss_dft_theta. split.
  - by rewrite length_fmap, length_seq.
  - destruct x as [|row x]; [constructor|].
    apply Forall_fmap, Forall_forall. intros i _. cbv [compose].
    rewrite !length_fmap, length_seq. simpl. by inversion Hrows.
Qed.

Lemma mw_to_mwss_shape_witness :
  ∃ out,
    mw_to_mwss equiang_ntheta equiang_nphi equiang_ntheta_extension
      (gauss_dft (-1)) gauss_ifft (gauss_dft (-1)) (gauss_dft 1)
      (gauss_dft_theta (-1)) (gauss_dft_theta 1) (λ L k, gauss_ipow k)
      [[GaussZ.re 1; GaussZ.re 2; GaussZ.im 3];
       [GaussZ.re 4; GaussZ.im 5; GaussZ.re 6]] 2 1
    = Ok out ∧
    length out = Z.to_nat (2 + 1) ∧
    Forall (λ row, length row = Z.to_nat (2 * 2)) out.
Proof.
  apply (mw_to_mwss_shape equiang_ntheta equiang_nphi equiang_ntheta_extension
           (gauss_dft (-1)) gauss_ifft (gauss_dft (-1)) (gauss_dft 1)
           (gauss_dft_theta (-1)) (gauss_dft_theta 1) (λ L k, gauss_ipow k)
           [[GaussZ.re 1; GaussZ.re 2; GaussZ.im 3];
            [GaussZ.re 4; GaussZ.im 5; GaussZ.re 6]] 2 1).
  - lia.
  - reflexivity.
  - reflexivity.
  - reflexivity.
  - apply length_gauss_dft.
  - intros x. unfold gauss_ifft. by rewrite length_fmap, length_gauss_dft.
  - apply length_gauss_dft.
  - apply length_gauss_dft.
  - apply gauss_dft_theta_shape.
  - apply gauss_dft_theta_shape.
  - reflexivity.
  - repeat constructor.
Defined.

Lemma upsample_by_two_mwss_shape_witness :
  ∃ out,
    upsample_by_two_mwss (gauss_dft_theta (-1)) (gauss_dft_theta 1)
      sample_field 2 1 = Ok out ∧
    length out = Z.to_nat (2 * 2 + 1) ∧
    Forall (λ row, length row = Z.to_nat (2 * 2)) out.
Proof.
  apply (upsample_by_two_mwss_shape (gauss_dft_theta (-1)) (gauss_dft_theta 1)
           sample_field 2 1).
  - lia.
  - apply gauss_dft_theta_shape.
  - apply gauss_dft_theta_shape.
  - reflexivity.
  - repeat constructor.
Defined.
